(** * The SceneJS geometry backend (src/scenejs/geometry/geometryBackend.js)

    A shallow embedding of the backend that keeps geometry buffers in video
    memory, evicts them least-recently-used first when the memory module asks,
    and draws them, skipping the export and bind of a geometry that is already
    the last one bound.

    The backend is a closure over four variables ([time], [canvas],
    [geometries], [currentBoundGeo]); every function of the source becomes a
    computation in a small state-and-exception monad over those variables that
    also records, in order, what the function does to its collaborators (log
    lines, events fired, buffer and GL calls). A JavaScript exception leaves
    the variables as they were when it was thrown, so a thrown outcome still
    carries the state and the trace.

    The texture node of src/scenejs/texture/texture.js is embedded after the
    backend, in [Module Texture]. *)

From Stdlib Require Import ZArith List String Bool Lia.
From Stdlib Require DecimalString QArith.
Import ListNotations.

Local Open Scope string_scope.
Local Open Scope list_scope.

(** ** JavaScript objects used as maps

    [geometries] is a plain object keyed by strings. Property enumeration
    ([for .. in]) follows insertion order, assigning to an existing property
    keeps its place, and a property assigned [null] is still enumerated.
    Every name the backend stores has the form [canvasId:type], so none is an
    array index and none meets a property inherited from [Object.prototype]:
    [JsObj] holds the object's own properties only. [drawGeometry] alone
    looks up a name its caller chooses, and what it finds under a name the
    object inherits is modelled there ([inherits], [draw_inherited]). *)

Module JsObj.

Definition t (V : Type) := list (string * V).

Definition empty {V : Type} : t V := [].

Fixpoint get {V : Type} (o : t V) (k : string) : option V :=
  match o with
  | [] => None
  | (k', v) :: rest => if String.eqb k' k then Some v else get rest k
  end.

Fixpoint set {V : Type} (o : t V) (k : string) (v : V) : t V :=
  match o with
  | [] => [(k, v)]
  | (k', v') :: rest =>
      if String.eqb k' k then (k', v) :: rest else (k', v') :: set rest k v
  end.

Definition keys {V : Type} (o : t V) : list string := map fst o.

End JsObj.

(** ** WebGL constants and buffers *)

Inductive gl_target := ARRAY_BUFFER | ELEMENT_ARRAY_BUFFER.
Inductive gl_usage := STATIC_DRAW.
Inductive gl_index_type := UNSIGNED_SHORT.
Inductive gl_primitive :=
| POINTS | LINES | LINE_LOOP | LINE_STRIP | TRIANGLES | TRIANGLE_STRIP | TRIANGLE_FAN.

(** Modelled from the spec: the buffer wrapper [SceneJS._webgl.ArrayBuffer] is
    not among the sources. Section 3 describes a GPU buffer as a device handle,
    an element count, an item size and a usage hint; the constructor call in
    [createArrayBuffer] also passes the binding target. *)
Record buffer := {
  handle : nat;
  target : gl_target;
  numItems : nat;
  itemSize : nat;
  usage : gl_usage
}.

(** A canvas, as the backend sees it: the id of its element in the page. Its
    WebGL context is the one every GL call of the trace goes to, and is not
    named there. *)
Record canvas_t := { canvasId : string }.

(** ** Geometry records and creation data *)

Module Geo.
Record t := {
  fixed : bool;
  primitive : gl_primitive;
  type : string;
  geoId : string;
  lastUsed : Z;
  canvas : canvas_t;
  vertexBuf : option buffer;
  normalBuf : option buffer;
  indexBuf : option buffer;
  texCoordBuf : option buffer
}.

Definition with_lastUsed (g : t) (u : Z) : t :=
  {| fixed := fixed g; primitive := primitive g; type := type g;
     geoId := geoId g; lastUsed := u; canvas := canvas g;
     vertexBuf := vertexBuf g; normalBuf := normalBuf g;
     indexBuf := indexBuf g; texCoordBuf := texCoordBuf g |}.
End Geo.

(** The [data] argument of [createGeometry]; an absent property is [None]. *)

Module Data.
Record t := {
  primitive : option string;
  positions : option (list Z);
  normals : option (list Z);
  uv : option (list Z);
  indices : option (list Z)
}.
End Data.

(** ** Exceptions, events and effects *)

Inductive exn :=
| NoCanvasActiveException
| NodeConfigExpectedException
| InvalidGeometryConfigException
| OutOfMemoryException
| TypeError.

(** Events the backend subscribes to with [ctx.events.onEvent]. *)
Inductive event :=
| TIME_UPDATED (t : Z)
| SCENE_ACTIVATED
| CANVAS_ACTIVATED (c : canvas_t)
| CANVAS_DEACTIVATED
| SHADER_ACTIVATED
| SHADER_DEACTIVATED
| RESET.

(** What the backend does to its collaborators, in program order. *)
Inductive effect :=
| LogDebug (msg : string)
| LogWarn (msg : string)
| Fired_SHADER_ACTIVATE
| Fired_GEOMETRY_EXPORTED (g : Geo.t)
| Fired_GEOMETRY_EXPORTED_inherited (name : string)
| AssignInherited_lastUsed (name : string) (t : Z)
| BufferCreated (b : buffer)
| BufferDestroyed (b : buffer)
| BufferBound (b : buffer)
| DisableVertexAttribArray (i : nat)
| DrawElements (mode : gl_primitive) (count : nat) (ty : gl_index_type) (offset : nat)
| Flush.

(** ** Backend state

    The first four fields are the closure variables of the source
    ([nextTypeId], whose only use is commented out there, is left out). The
    last two are the part of the host the backend consults: the ids of the
    canvas elements [document.getElementById] currently finds, and the next
    buffer name the device hands out. *)
Record backend := {
  time : Z;
  canvas : option canvas_t;
  geometries : JsObj.t (option Geo.t);
  currentBoundGeo : option string;
  document : list string;
  nextHandle : nat
}.

Definition set_time (t : Z) (s : backend) : backend :=
  {| time := t; canvas := canvas s; geometries := geometries s;
     currentBoundGeo := currentBoundGeo s; document := document s;
     nextHandle := nextHandle s |}.

Definition set_canvas (c : option canvas_t) (s : backend) : backend :=
  {| time := time s; canvas := c; geometries := geometries s;
     currentBoundGeo := currentBoundGeo s; document := document s;
     nextHandle := nextHandle s |}.

Definition set_geometries (g : JsObj.t (option Geo.t)) (s : backend) : backend :=
  {| time := time s; canvas := canvas s; geometries := g;
     currentBoundGeo := currentBoundGeo s; document := document s;
     nextHandle := nextHandle s |}.

Definition set_currentBoundGeo (b : option string) (s : backend) : backend :=
  {| time := time s; canvas := canvas s; geometries := geometries s;
     currentBoundGeo := b; document := document s;
     nextHandle := nextHandle s |}.

Definition set_document (d : list string) (s : backend) : backend :=
  {| time := time s; canvas := canvas s; geometries := geometries s;
     currentBoundGeo := currentBoundGeo s; document := d;
     nextHandle := nextHandle s |}.

Definition set_nextHandle (n : nat) (s : backend) : backend :=
  {| time := time s; canvas := canvas s; geometries := geometries s;
     currentBoundGeo := currentBoundGeo s; document := document s;
     nextHandle := n |}.

(** The state a freshly installed backend starts in. *)
Definition install (now : Z) (doc : list string) : backend :=
  {| time := now; canvas := None; geometries := JsObj.empty;
     currentBoundGeo := None; document := doc; nextHandle := 0 |}.

(** [geometries[geoId]]: [undefined] and [null] are both [None]. *)
Definition lookup (s : backend) (geoId : string) : option Geo.t :=
  match JsObj.get (geometries s) geoId with
  | Some v => v
  | None => None
  end.

(** The properties every object inherits from [Object.prototype]. A name
    among them that [geometries] does not hold itself resolves to what the
    prototype holds: a function of the runtime, or [Object.prototype] itself
    for [__proto__]; none of these has an [indexBuf]. *)
Definition Object_prototype : list string :=
  ["constructor"; "toString"; "toLocaleString"; "valueOf"; "hasOwnProperty";
   "isPrototypeOf"; "propertyIsEnumerable"; "__proto__"; "__defineGetter__";
   "__defineSetter__"; "__lookupGetter__"; "__lookupSetter__"].

Definition inherited (name : string) : bool :=
  existsb (String.eqb name) Object_prototype.

(** [geometries[geoId]] is found on the prototype: [geometries] has no
    property of that name and the prototype has one. *)
Definition inherits (s : backend) (geoId : string) : bool :=
  match JsObj.get (geometries s) geoId with
  | Some _ => false
  | None => inherited geoId
  end.

(** [document.getElementById(id)], as a truth value. *)
Definition getElementById (s : backend) (id : string) : bool :=
  existsb (String.eqb id) (document s).

(** ** The monad *)

Inductive outcome (A : Type) :=
| Return (a : A)
| Throw (e : exn).
Arguments Return {A} a.
Arguments Throw {A} e.

Definition M (A : Type) := backend -> outcome A * backend * list effect.

Definition ret {A : Type} (a : A) : M A := fun s => (Return a, s, []).

Definition throw {A : Type} (e : exn) : M A := fun s => (Throw e, s, []).

Definition bind {A B : Type} (m : M A) (k : A -> M B) : M B :=
  fun s =>
    match m s with
    | (Return a, s1, t1) =>
        match k a s1 with
        | (o, s2, t2) => (o, s2, t1 ++ t2)
        end
    | (Throw e, s1, t1) => (Throw e, s1, t1)
    end.

Definition get : M backend := fun s => (Return s, s, []).

Definition modify (f : backend -> backend) : M unit :=
  fun s => (Return tt, f s, []).

Definition emit (e : effect) : M unit := fun s => (Return tt, s, [e]).

(** [try { m } catch (e) { h e }] *)
Definition try_catch {A : Type} (m : M A) (h : exn -> M A) : M A :=
  fun s =>
    match m s with
    | (Return a, s1, t1) => (Return a, s1, t1)
    | (Throw e, s1, t1) =>
        match h e s1 with
        | (o, s2, t2) => (o, s2, t1 ++ t2)
        end
    end.

Notation "x <- m ;; k" := (bind m (fun x => k))
  (at level 61, m at next level, right associativity).
Notation "m ;; k" := (bind m (fun _ => k))
  (at level 61, right associativity).

Definition when (b : bool) (m : M unit) : M unit := if b then m else ret tt.

(** The three components of a run. *)
Definition result {A : Type} (r : outcome A * backend * list effect) : outcome A :=
  fst (fst r).
Definition final {A : Type} (r : outcome A * backend * list effect) : backend :=
  snd (fst r).
Definition trace {A : Type} (r : outcome A * backend * list effect) : list effect :=
  snd r.

(** ** The backend's functions *)

Definition buffer_destroy (b : buffer) : M unit := emit (BufferDestroyed b).

Definition destroy_if_present (ob : option buffer) : M unit :=
  match ob with
  | Some b => buffer_destroy b
  | None => ret tt
  end.

Definition option_string_eqb (a : string) (b : option string) : bool :=
  match b with
  | Some b' => String.eqb a b'
  | None => false
  end.

(** [destroyGeometry(geo)]. The argument is whatever the caller read from
    [geometries], so it may be [null]; reading [geo.type] then throws. The
    index buffer is released under the test of the normal buffer, as in the
    source. The property is assigned [null], not deleted. *)
Definition destroyGeometry (arg : option Geo.t) : M unit :=
  match arg with
  | None => throw TypeError
  | Some geo =>
      emit (LogDebug ("Destroying geometry : '" ++ Geo.type geo ++ "'")%string) ;;
      s <- get ;;
      when (option_string_eqb (Geo.geoId geo) (currentBoundGeo s))
           (modify (set_currentBoundGeo None)) ;;
      when (getElementById s (canvasId (Geo.canvas geo)))
           (destroy_if_present (Geo.vertexBuf geo) ;;
            destroy_if_present (Geo.normalBuf geo) ;;
            match Geo.normalBuf geo with
            | Some _ =>
                match Geo.indexBuf geo with
                | Some ib => buffer_destroy ib
                | None => throw TypeError
                end
            | None => ret tt
            end ;;
            destroy_if_present (Geo.texCoordBuf geo)) ;;
      modify (fun s' => set_geometries (JsObj.set (geometries s') (Geo.geoId geo) None) s')
  end.

(** One turn of the evictor's loop: [acc] is ([earliest], [evictee]). A
    property holding [null] makes [geo.lastUsed] throw. *)
Definition evictor_visit (s : backend) (acc : Z * option Geo.t) (geoId : string)
  : outcome (Z * option Geo.t) :=
  if String.eqb geoId "" then Return acc
  else
    match lookup s geoId with
    | None => Throw TypeError
    | Some geo =>
        if (Geo.lastUsed geo <? fst acc)%Z
           && getElementById s (canvasId (Geo.canvas geo))
        then Return (Geo.lastUsed geo, Some geo)
        else Return acc
    end.

Fixpoint evictor_scan (s : backend) (keys : list string) (acc : Z * option Geo.t)
  : outcome (Z * option Geo.t) :=
  match keys with
  | [] => Return acc
  | geoId :: rest =>
      match evictor_visit s acc geoId with
      | Return acc' => evictor_scan s rest acc'
      | Throw e => Throw e
      end
  end.

(** The callback given to [ctx.memory.registerEvictor]. *)
Definition evictor : M bool :=
  s <- get ;;
  match evictor_scan s (JsObj.keys (geometries s)) (time s, None) with
  | Throw e => throw e
  | Return (_, Some evictee) =>
      emit (LogWarn ("Evicting geometry from shader memory: " ++ Geo.type evictee)%string) ;;
      destroyGeometry (Some evictee) ;;
      ret true
  | Return (_, None) => ret false
  end.

(** Modelled from the spec: the memory module behind [ctx.memory.allocate] is
    not among the sources. Sections 5 and 6 say that every buffer allocation
    goes through it, that it may call the registered evictor synchronously
    during the allocation, and that it then either lets the allocation happen
    or fails it. A [gate] gives, for the allocation described by a string, how
    many times the evictor is called and whether the allocation is granted. *)
Record gate_answer := { evictions : nat; granted : bool }.

Definition gate := string -> gate_answer.

Fixpoint call_evictor (n : nat) : M unit :=
  match n with
  | O => ret tt
  | S n' => evictor ;; call_evictor n'
  end.

(** [new SceneJS._webgl.ArrayBuffer(...)] inside the allocation callback. *)
Definition new_ArrayBuffer (tg : gl_target) (n size : nat) (u : gl_usage) : M buffer :=
  s <- get ;;
  let b := {| handle := nextHandle s; target := tg; numItems := n;
              itemSize := size; usage := u |} in
  modify (set_nextHandle (S (nextHandle s))) ;;
  emit (BufferCreated b) ;;
  ret b.

Definition allocate {A : Type} (g : gate) (description : string) (tryAllocate : M A) : M A :=
  call_evictor (evictions (g description)) ;;
  if granted (g description) then tryAllocate else throw OutOfMemoryException.

Definition createArrayBuffer (g : gate) (description : string) (tg : gl_target)
    (n size : nat) (u : gl_usage) : M buffer :=
  allocate g description (new_ArrayBuffer tg n size u).

(** [getPrimitiveType(context, type)] *)
Definition getPrimitiveType (ty : string) : M gl_primitive :=
  if String.eqb ty "points" then ret POINTS
  else if String.eqb ty "lines" then ret LINES
  else if String.eqb ty "line-loop" then ret LINE_LOOP
  else if String.eqb ty "line-strip" then ret LINE_STRIP
  else if String.eqb ty "triangles" then ret TRIANGLES
  else if String.eqb ty "triangle-strip" then ret TRIANGLE_STRIP
  else if String.eqb ty "triangle-fan" then ret TRIANGLE_FAN
  else throw InvalidGeometryConfigException.

Definition make_geoId (c : canvas_t) (ty : string) : string :=
  (canvasId c ++ ":" ++ ty)%string.

(** [findGeometry(type)] *)
Definition findGeometry (ty : string) : M (option string) :=
  s <- get ;;
  match canvas s with
  | None => throw NoCanvasActiveException
  | Some c =>
      let geoId := make_geoId c ty in
      match lookup s geoId with
      | Some _ => ret (Some geoId)
      | None => ret None
      end
  end.

(** The [catch] block of [createGeometry], run with the buffer variables as
    they stand when the exception arrives. *)
Definition release_and_rethrow {A : Type}
    (vertexBuf normalBuf texCoordBuf indexBuf : option buffer) (e : exn) : M A :=
  destroy_if_present vertexBuf ;;
  destroy_if_present normalBuf ;;
  destroy_if_present texCoordBuf ;;
  destroy_if_present indexBuf ;;
  throw e.

(** [data.xs.length] and the allocation it feeds: an absent array throws
    before the memory module is asked. *)
Definition buffer_of (g : gate) (description : string) (tg : gl_target)
    (xs : option (list Z)) (size : nat) : M buffer :=
  match xs with
  | None => throw TypeError
  | Some l => createArrayBuffer g description tg (List.length l) size STATIC_DRAW
  end.

Definition truthy_string (o : option string) : bool :=
  match o with
  | Some s => negb (String.eqb s "")
  | None => false
  end.

(** [createGeometry(type, data)]. Each statement of the [try] block is
    guarded by the [catch] block applied to the buffers assigned so far. *)
Definition createGeometry (g : gate) (ty : string) (data : Data.t) : M string :=
  emit (LogDebug ("Creating geometry: '" ++ ty ++ "'")%string) ;;
  s <- get ;;
  match canvas s with
  | None => throw NoCanvasActiveException
  | Some c =>
      if negb (truthy_string (Data.primitive data))
      then throw NodeConfigExpectedException
      else
        let geoId := make_geoId c ty in
        vertexBuf <-
          try_catch
            (buffer_of g "geometry vertex buffer" ARRAY_BUFFER (Data.positions data) 3)
            (release_and_rethrow None None None None) ;;
        normalBuf <-
          try_catch
            (buffer_of g "geometry normal buffer" ARRAY_BUFFER (Data.normals data) 3)
            (release_and_rethrow (Some vertexBuf) None None None) ;;
        texCoordBuf <-
          try_catch
            (match Data.uv data with
             | Some uv =>
                 b <- buffer_of g "geometry texture buffer" ARRAY_BUFFER (Some uv) 2 ;;
                 ret (Some b)
             | None => ret None
             end)
            (release_and_rethrow (Some vertexBuf) (Some normalBuf) None None) ;;
        indexBuf <-
          try_catch
            (buffer_of g "geometry index buffer" ELEMENT_ARRAY_BUFFER (Data.indices data) 1)
            (release_and_rethrow (Some vertexBuf) (Some normalBuf) texCoordBuf None) ;;
        prim <-
          try_catch
            (match Data.primitive data with
             | Some p => getPrimitiveType p
             | None => throw InvalidGeometryConfigException
             end)
            (release_and_rethrow (Some vertexBuf) (Some normalBuf) texCoordBuf
                                 (Some indexBuf)) ;;
        s' <- get ;;
        let geo := {| Geo.fixed := true;
                      Geo.primitive := prim;
                      Geo.type := ty;
                      Geo.geoId := geoId;
                      Geo.lastUsed := time s';
                      Geo.canvas := c;
                      Geo.vertexBuf := Some vertexBuf;
                      Geo.normalBuf := Some normalBuf;
                      Geo.indexBuf := Some indexBuf;
                      Geo.texCoordBuf := texCoordBuf |} in
        modify (fun s'' => set_geometries (JsObj.set (geometries s'') geoId (Some geo)) s'') ;;
        ret geoId
  end.

(** The [RESET] handler's loop: [destroyGeometry(geometries[geoId])] for each
    enumerated property, read from the object as it is at that turn. *)
Fixpoint destroy_each (keys : list string) : M unit :=
  match keys with
  | [] => ret tt
  | geoId :: rest =>
      s <- get ;;
      destroyGeometry (lookup s geoId) ;;
      destroy_each rest
  end.

(** The handlers registered with [ctx.events.onEvent]. *)
Definition onEvent (ev : event) : M unit :=
  match ev with
  | TIME_UPDATED t => modify (set_time t)
  | SCENE_ACTIVATED =>
      modify (set_canvas None) ;; modify (set_currentBoundGeo None)
  | CANVAS_ACTIVATED c =>
      modify (set_canvas (Some c)) ;; modify (set_currentBoundGeo None)
  | CANVAS_DEACTIVATED =>
      modify (set_canvas None) ;; modify (set_currentBoundGeo None)
  | SHADER_ACTIVATED => modify (set_currentBoundGeo None)
  | SHADER_DEACTIVATED => modify (set_currentBoundGeo None)
  | RESET =>
      s <- get ;;
      destroy_each (JsObj.keys (geometries s)) ;;
      modify (set_canvas None) ;;
      modify (set_geometries JsObj.empty) ;;
      modify (set_currentBoundGeo None)
  end.

Fixpoint deliver (evs : list event) : M unit :=
  match evs with
  | [] => ret tt
  | ev :: rest => onEvent ev ;; deliver rest
  end.

(** [ctx.events.fireEvent(SHADER_ACTIVATE)]. The event bus is synchronous: as
    the header of the source describes, the shader backend may answer by
    firing events of its own, which reach this backend's handlers before
    [fireEvent] returns. [reaction] lists the events that come back. *)
Definition fire_SHADER_ACTIVATE (reaction : list event) : M unit :=
  emit Fired_SHADER_ACTIVATE ;; deliver reaction.

Fixpoint disable_attribs (slots : list nat) : M unit :=
  match slots with
  | [] => ret tt
  | i :: rest => emit (DisableVertexAttribArray i) ;; disable_attribs rest
  end.

(** [drawGeometry] from [geo.lastUsed = time] on, when [geometries[geoId]]
    is a value inherited from [Object.prototype]: the assignment lands on
    that value, which the trace records; the export, if the identifier is not
    the bound one, is fired with it; and the draw ends at the first
    [geo.indexBuf], which is [undefined]. None of the backend's variables
    changes. The assigned property stays on the inherited value, in the
    runtime (for [__proto__] that value is [Object.prototype] itself); the
    runtime is not part of the state modelled here. *)
Definition draw_inherited (geoId : string) (s1 : backend) : M unit :=
  emit (AssignInherited_lastUsed geoId (time s1)) ;;
  match canvas s1 with
  | None => throw TypeError
  | Some _ =>
      when (negb (option_string_eqb geoId (currentBoundGeo s1)))
           (disable_attribs (seq 0 8) ;;
            emit (Fired_GEOMETRY_EXPORTED_inherited geoId) ;;
            throw TypeError) ;;
      throw TypeError
  end.

(** [drawGeometry(geoId)] *)
Definition drawGeometry (reaction : list event) (geoId : string) : M unit :=
  s <- get ;;
  match canvas s with
  | None => throw NoCanvasActiveException
  | Some _ =>
      fire_SHADER_ACTIVATE reaction ;;
      s1 <- get ;;
      match lookup s1 geoId with
      | None =>
          if inherits s1 geoId then draw_inherited geoId s1 else throw TypeError
      | Some found =>
          let geo := Geo.with_lastUsed found (time s1) in
          modify (set_geometries (JsObj.set (geometries s1) geoId (Some geo))) ;;
          match canvas s1 with
          | None => throw TypeError
          | Some _ =>
              when (negb (option_string_eqb geoId (currentBoundGeo s1)))
                   (disable_attribs (seq 0 8) ;;
                    emit (Fired_GEOMETRY_EXPORTED geo) ;;
                    match Geo.indexBuf geo with
                    | Some ib => emit (BufferBound ib)
                    | None => throw TypeError
                    end ;;
                    modify (set_currentBoundGeo (Some geoId))) ;;
              match Geo.indexBuf geo with
              | Some ib =>
                  emit (DrawElements (Geo.primitive geo) (numItems ib) UNSIGNED_SHORT 0)
              | None => throw TypeError
              end ;;
              emit Flush ;;
              when (negb (Geo.fixed geo))
                   (destroyGeometry (Some geo) ;;
                    modify (set_currentBoundGeo None))
          end
      end
  end.

(** ** Sequences of calls

    What can happen to the backend from outside, one call at a time: an event
    arrives, the memory module calls the evictor, a node calls one of the
    three functions of the API, or the page changes under the backend (canvas
    elements come and go). An exception ends the call that raised it and the
    sequence goes on from the state it left. *)
Inductive call :=
| Deliver (ev : event)
| Evict
| Find (ty : string)
| Create (g : gate) (ty : string) (data : Data.t)
| Draw (reaction : list event) (geoId : string)
| Page (doc : list string).

Definition forget {A : Type} (r : outcome A * backend * list effect)
  : backend * list effect := (final r, trace r).

Definition do_call (c : call) (s : backend) : backend * list effect :=
  match c with
  | Deliver ev => forget (onEvent ev s)
  | Evict => forget (evictor s)
  | Find ty => forget (findGeometry ty s)
  | Create g ty data => forget (createGeometry g ty data s)
  | Draw reaction geoId => forget (drawGeometry reaction geoId s)
  | Page doc => (set_document doc s, [])
  end.

Fixpoint run (cs : list call) (s : backend) : backend * list effect :=
  match cs with
  | [] => (s, [])
  | c :: rest =>
      let '(s1, t1) := do_call c s in
      let '(s2, t2) := run rest s1 in
      (s2, t1 ++ t2)
  end.

(** An allocation gate under no memory pressure. *)
Definition plentiful : gate := fun _ => {| evictions := 0; granted := true |}.

(** ** The spec's vocabulary *)

(** The error kinds of section 7 of the specification, and the kind each
    exception of the source stands for ([NodeConfigExpectedException] is what
    the source throws for a missing [primitive]). [TypeError] is the
    JavaScript runtime's own and stands for none of them. *)
Inductive error_kind :=
| NoActiveSurface
| InvalidPrimitiveKind
| MissingRequiredData
| AllocationFailure
| UnknownGeometry.

Definition kind_of (e : exn) : option error_kind :=
  match e with
  | NoCanvasActiveException => Some NoActiveSurface
  | NodeConfigExpectedException => Some MissingRequiredData
  | InvalidGeometryConfigException => Some InvalidPrimitiveKind
  | OutOfMemoryException => Some AllocationFailure
  | TypeError => None
  end.

Definition is_export (e : effect) : bool :=
  match e with
  | Fired_GEOMETRY_EXPORTED _ | Fired_GEOMETRY_EXPORTED_inherited _ => true
  | _ => false
  end.
Definition is_shader_activate (e : effect) : bool :=
  match e with Fired_SHADER_ACTIVATE => true | _ => false end.
Definition is_disable (e : effect) : bool :=
  match e with DisableVertexAttribArray _ => true | _ => false end.
Definition is_bind (e : effect) : bool :=
  match e with BufferBound _ => true | _ => false end.
Definition is_draw (e : effect) : bool :=
  match e with DrawElements _ _ _ _ => true | _ => false end.
Definition is_release (e : effect) : bool :=
  match e with BufferDestroyed _ => true | _ => false end.

Definition count (p : effect -> bool) (t : list effect) : nat :=
  List.length (filter p t).

(** The live records: the properties of [geometries] that hold a record. *)
Definition records_of (l : JsObj.t (option Geo.t)) : list (string * Geo.t) :=
  flat_map (fun kv => match snd kv with
                      | Some g => [(fst kv, g)]
                      | None => []
                      end) l.

Definition live_records (s : backend) : list (string * Geo.t) :=
  records_of (geometries s).

(** * Vocabulary of the statements

    States, traces and relations the lemmas below are stated with. None of
    them is part of the backend. *)

(** ** After a [destroyGeometry] *)

(** [currentBoundGeo] cleared if it names [geoId]. *)
Definition unbind (geoId : string) (s : backend) : backend :=
  if option_string_eqb geoId (currentBoundGeo s)
  then set_currentBoundGeo None s else s.

(** [geometries[geoId] = null]. *)
Definition tombstone (geoId : string) (s : backend) : backend :=
  set_geometries (JsObj.set (geometries s) geoId None) s.

Definition released (ob : option buffer) : list effect :=
  match ob with
  | Some b => [BufferDestroyed b]
  | None => []
  end.

(** The release calls of a [destroyGeometry] that runs to its end. *)
Definition releases (g : Geo.t) : list effect :=
  released (Geo.vertexBuf g) ++ released (Geo.normalBuf g) ++
  match Geo.normalBuf g with
  | Some _ => released (Geo.indexBuf g)
  | None => []
  end ++ released (Geo.texCoordBuf g).

Definition destroy_log (g : Geo.t) : effect :=
  LogDebug ("Destroying geometry : '" ++ Geo.type g ++ "'")%string.

(** The record can be destroyed without a [TypeError]: if it has a normal
    buffer it has an index buffer. *)
Definition destroyable (g : Geo.t) : Prop :=
  Geo.normalBuf g <> None -> Geo.indexBuf g <> None.

(** What [destroyGeometry] and the evictor can do to a state: the clock, the
    canvas and the page are kept, no property of [geometries] is lost, no
    record is revived or changed, the device's counter does not go back, and
    the bound marker is unset or as it was. *)
Record frame (s s' : backend) : Prop := {
  frame_time : time s' = time s;
  frame_canvas : canvas s' = canvas s;
  frame_document : document s' = document s;
  frame_nextHandle : nextHandle s <= nextHandle s';
  frame_keys : forall k, In k (JsObj.keys (geometries s)) ->
                         In k (JsObj.keys (geometries s'));
  frame_live : forall k g, lookup s' k = Some g -> lookup s k = Some g;
  frame_bound : currentBoundGeo s' = None \/ currentBoundGeo s' = currentBoundGeo s
}.

(** [respects R P Q m]: from every state, [m] ends in a state related to the
    start by [R], emits only effects satisfying [P], and throws only
    exceptions satisfying [Q]. *)
Definition respects (R : backend -> backend -> Prop) (P : effect -> Prop)
    (Q : exn -> Prop) {A : Type} (m : M A) : Prop :=
  forall s,
    R s (final (m s)) /\
    Forall P (trace (m s)) /\
    (forall e, result (m s) = Throw e -> Q e).

(** Effects that only tidy up: log lines and buffer releases. *)
Definition housekeeping (e : effect) : Prop :=
  match e with
  | LogDebug _ | LogWarn _ | BufferDestroyed _ => True
  | _ => False
  end.

Definition only_TypeError (e : exn) : Prop := e = TypeError.

(** What an event handler can do to a state: no record is revived or
    changed, and the bound marker is unset or as it was. *)
Record settles (s s' : backend) : Prop := {
  settles_live : forall k g, lookup s' k = Some g -> lookup s k = Some g;
  settles_bound : currentBoundGeo s' = None \/ currentBoundGeo s' = currentBoundGeo s;
  settles_document : document s' = document s;
  settles_nextHandle : nextHandle s <= nextHandle s'
}.

(** Only [CANVAS_ACTIVATED] can give the backend a canvas. *)
Definition activates_canvas (c : call) : bool :=
  match c with
  | Deliver (CANVAS_ACTIVATED _) => true
  | _ => false
  end.

(** ** Drawing *)

(** What [drawGeometry] does once [fireEvent] has returned: the text of
    [drawGeometry] from the lookup on. *)
Definition draw_continue (geoId : string) : M unit :=
  s1 <- get ;;
  match lookup s1 geoId with
  | None =>
      if inherits s1 geoId then draw_inherited geoId s1 else throw TypeError
  | Some found =>
      let geo := Geo.with_lastUsed found (time s1) in
      modify (set_geometries (JsObj.set (geometries s1) geoId (Some geo))) ;;
      match canvas s1 with
      | None => throw TypeError
      | Some _ =>
          when (negb (option_string_eqb geoId (currentBoundGeo s1)))
               (disable_attribs (seq 0 8) ;;
                emit (Fired_GEOMETRY_EXPORTED geo) ;;
                match Geo.indexBuf geo with
                | Some ib => emit (BufferBound ib)
                | None => throw TypeError
                end ;;
                modify (set_currentBoundGeo (Some geoId))) ;;
          match Geo.indexBuf geo with
          | Some ib =>
              emit (DrawElements (Geo.primitive geo) (numItems ib) UNSIGNED_SHORT 0)
          | None => throw TypeError
          end ;;
          emit Flush ;;
          when (negb (Geo.fixed geo))
               (destroyGeometry (Some geo) ;;
                modify (set_currentBoundGeo None))
      end
  end.

(** The relation that constrains nothing. *)
Definition anything (s s' : backend) : Prop := True.

(** The state and the trace of the part of [drawGeometry] between the lookup
    and the test of [geo.fixed], for a record that has an index buffer. *)
(** What a draw does after [fireEvent] when the identifier resolves to no
    record: nothing if [geometries[geoId]] is [undefined] or [null]; up to
    the first [geo.indexBuf] if it is an inherited value. *)
Definition inherited_trace (geoId : string) (s : backend) : list effect :=
  AssignInherited_lastUsed geoId (time s) ::
  match canvas s with
  | None => []
  | Some _ =>
      if option_string_eqb geoId (currentBoundGeo s) then []
      else map DisableVertexAttribArray (seq 0 8)
           ++ [Fired_GEOMETRY_EXPORTED_inherited geoId]
  end.

Definition unresolved_trace (geoId : string) (s : backend) : list effect :=
  if inherits s geoId then inherited_trace geoId s else [].

Definition touched (geoId : string) (found : Geo.t) (s : backend) : backend :=
  set_geometries
    (JsObj.set (geometries s) geoId (Some (Geo.with_lastUsed found (time s)))) s.

Definition drawn_state (geoId : string) (found : Geo.t) (s : backend) : backend :=
  if option_string_eqb geoId (currentBoundGeo s)
  then touched geoId found s
  else set_currentBoundGeo (Some geoId) (touched geoId found s).

Definition drawn_trace (geoId : string) (found : Geo.t) (ib : buffer) (s : backend)
  : list effect :=
  (if option_string_eqb geoId (currentBoundGeo s) then []
   else map DisableVertexAttribArray (seq 0 8) ++
        [Fired_GEOMETRY_EXPORTED (Geo.with_lastUsed found (time s)); BufferBound ib]) ++
  [DrawElements (Geo.primitive found) (numItems ib) UNSIGNED_SHORT 0; Flush].

(** ** Example scenes, used to run the backend on concrete inputs *)

Module Example.

Definition surface : canvas_t := {| canvasId := "c" |}.

Definition triangle : Data.t :=
  {| Data.primitive := Some "triangles";
     Data.positions := Some [0; 0; 0; 1; 0; 0; 0; 1; 0]%Z;
     Data.normals := Some [0; 0; 1; 0; 0; 1; 0; 0; 1]%Z;
     Data.uv := None;
     Data.indices := Some [0; 1; 2]%Z |}.

Definition hexagon : Data.t :=
  {| Data.primitive := Some "hexagon";
     Data.positions := Some [0; 0; 0; 1; 0; 0; 0; 1; 0]%Z;
     Data.normals := Some [0; 0; 1; 0; 0; 1; 0; 0; 1]%Z;
     Data.uv := None;
     Data.indices := Some [0; 1; 2]%Z |}.

(** A backend installed at time 1 on a page holding canvas [c], with that
    canvas activated. *)
Definition started : backend :=
  fst (run [Deliver (CANVAS_ACTIVATED surface)] (install 1 ["c"])).

(** ... and geometry [a] created on it. *)
Definition with_a : backend :=
  fst (run [Create plentiful "a" triangle] started).

(** ... and geometry [b] as well. *)
Definition with_a_b : backend :=
  fst (run [Create plentiful "b" triangle] with_a).

End Example.

(** ** The fast path *)

(** Every live record is fixed, as every record [createGeometry] makes is. *)
Definition all_fixed (s : backend) : Prop :=
  forall k g, lookup s k = Some g -> Geo.fixed g = true.

Definition all_fixedb (s : backend) : bool :=
  forallb (fun kv => match snd kv with
                     | Some g => Geo.fixed g
                     | None => true
                     end) (geometries s).

(** The six lifecycle events: every event but the clock tick. *)
Definition is_lifecycle (ev : event) : bool :=
  match ev with
  | TIME_UPDATED _ => false
  | _ => true
  end.

(** ** Well-formed caches

    What [createGeometry] builds and the other functions keep: property names
    are distinct and not empty, a record is stored under its own [geoId], is
    fixed, and has its vertex, normal and index buffers. *)

Definition is_some {A : Type} (o : option A) : bool :=
  match o with Some _ => true | None => false end.

Definition record_ok (kv : string * option Geo.t) : bool :=
  negb (String.eqb (fst kv) "") &&
  match snd kv with
  | Some g =>
      String.eqb (Geo.geoId g) (fst kv) && Geo.fixed g &&
      is_some (Geo.vertexBuf g) && is_some (Geo.normalBuf g) &&
      is_some (Geo.indexBuf g)
  | None => true
  end.

Fixpoint distinct (ks : list string) : bool :=
  match ks with
  | [] => true
  | k :: rest => negb (existsb (String.eqb k) rest) && distinct rest
  end.

Definition well_formed (s : backend) : bool :=
  distinct (JsObj.keys (geometries s)) && forallb record_ok (geometries s).

(** No property of [geometries] holds [null]: nothing has been destroyed
    since the last [RESET]. *)
Definition no_tombstone (s : backend) : bool :=
  forallb (fun kv => is_some (snd kv)) (geometries s).

(** ** The evictor's choice *)

(** The record's canvas element is still in the page. *)
Definition on_page (s : backend) (g : Geo.t) : bool :=
  getElementById s (canvasId (Geo.canvas g)).

(** The test of the evictor's loop against the clock: last used strictly
    before the current time, on a canvas that is still in the page. *)
Definition evictable (s : backend) (g : Geo.t) : bool :=
  (Geo.lastUsed g <? time s)%Z && on_page s g.

(** The loop, run over the live records themselves. *)
Fixpoint pick (s : backend) (rs : list (string * Geo.t))
    (acc : Z * option (string * Geo.t)) : Z * option (string * Geo.t) :=
  match rs with
  | [] => acc
  | kg :: rest =>
      pick s rest
           (if (Geo.lastUsed (snd kg) <? fst acc)%Z && on_page s (snd kg)
            then (Geo.lastUsed (snd kg), Some kg)
            else acc)
  end.

(** [kg] is, among the records of [rs] whose canvas is in the page, the
    first-encountered one with the least [lastUsed]: those before it are
    strictly younger, those after it are not older. *)
Definition first_oldest (s : backend) (rs : list (string * Geo.t))
    (kg : string * Geo.t) : Prop :=
  exists before after,
    rs = before ++ kg :: after /\
    on_page s (snd kg) = true /\
    (forall x, In x before -> on_page s (snd x) = true ->
               (Geo.lastUsed (snd kg) < Geo.lastUsed (snd x))%Z) /\
    (forall x, In x after -> on_page s (snd x) = true ->
               (Geo.lastUsed (snd kg) <= Geo.lastUsed (snd x))%Z).

(** A live record as the property of [geometries] that holds it. *)
Definition box (kg : string * Geo.t) : string * option Geo.t :=
  (fst kg, Some (snd kg)).

Definition evict_log (g : Geo.t) : effect :=
  LogWarn ("Evicting geometry from shader memory: " ++ Geo.type g)%string.

Module Scenario.

(** Two records, [a] last used at 10 and [b] last used at 20, and the clock at
    30. *)
Definition two_records : backend :=
  fst (run [Deliver (CANVAS_ACTIVATED Example.surface);
            Create plentiful "a" Example.triangle;
            Deliver (TIME_UPDATED 20);
            Create plentiful "b" Example.triangle;
            Deliver (TIME_UPDATED 30)]
           (install 10 ["c"])).

(** Records [a] and [b] created at time 1, [a] drawn at time 5 and [b]
    evicted at time 9: [geometries] holds [a]'s record, then [null] under
    [b], and [a] is the bound geometry. *)
Definition b_evicted : backend :=
  fst (run [Deliver (TIME_UPDATED 5); Draw [] "c:a"; Deliver (TIME_UPDATED 9); Evict]
           Example.with_a_b).

End Scenario.

(** ** Creation *)

(** The buffers a trace creates, in order. *)
Definition created (t : list effect) : list buffer :=
  flat_map (fun e => match e with BufferCreated b => [b] | _ => [] end) t.

(** Only the device's counter differs. *)
Definition only_handles (s s' : backend) : Prop :=
  s' = set_nextHandle (nextHandle s') s.

Definition made (ob : option buffer) : list effect :=
  match ob with
  | Some b => [BufferCreated b]
  | None => []
  end.

Definition option_list {A : Type} (o : option A) : list A :=
  match o with
  | Some a => [a]
  | None => []
  end.

(** Every buffer a trace creates is released later in the trace. *)
Definition every_creation_released (t : list effect) : Prop :=
  forall b, In (BufferCreated b) t ->
            exists t1 t2, t = t1 ++ BufferCreated b :: t2 /\ In (BufferDestroyed b) t2.

(** A memory module that calls the evictor once before granting the vertex
    buffer and then refuses every other allocation. *)
Definition pressured : gate :=
  fun description =>
    if String.eqb description "geometry vertex buffer"
    then {| evictions := 1; granted := true |}
    else {| evictions := 0; granted := false |}.

(** No memory pressure: every allocation is granted without an eviction. *)
Definition relaxed (g : gate) : Prop :=
  forall d, g d = {| evictions := 0; granted := true |}.

(** The primitive names [getPrimitiveType] knows. *)
Definition supported (p : string) : bool :=
  existsb (String.eqb p)
          ["points"; "lines"; "line-loop"; "line-strip"; "triangles";
           "triangle-strip"; "triangle-fan"].

(** Data [createGeometry] accepts: a supported primitive, and the position,
    normal and index arrays. *)
Definition valid_data (d : Data.t) : bool :=
  match Data.primitive d with
  | Some p => supported p
  | None => false
  end && is_some (Data.positions d) && is_some (Data.normals d)
  && is_some (Data.indices d).

(** The buffers of a record, in the order [createGeometry] allocates them. *)
Definition buffers_of (g : Geo.t) : list buffer :=
  option_list (Geo.vertexBuf g) ++ option_list (Geo.normalBuf g) ++
  option_list (Geo.texCoordBuf g) ++ option_list (Geo.indexBuf g).

(** ** Global reset *)

(** What [RESET] logs and releases for one live record: the record's buffers
    are released only if its canvas is still in the page. *)
Definition reset_item (s : backend) (kg : string * Geo.t) : list effect :=
  destroy_log (snd kg) :: (if on_page s (snd kg) then releases (snd kg) else []).

Definition reset_trace (s : backend) : list effect :=
  flat_map (reset_item s) (live_records s).

(** ** The bound marker *)

(** The bound marker, when set, names a live record. *)
Definition bound_is_live (s : backend) : Prop :=
  forall geoId, currentBoundGeo s = Some geoId -> exists g, lookup s geoId = Some g.

(** A well-formed cache whose bound marker names a live record. *)
Definition sound (s : backend) : Prop :=
  well_formed s = true /\ bound_is_live s.

(** ** Rejected geometry data *)

(** The exception [createGeometry] ends with on an active canvas when memory
    is plentiful, if any: the checks in the order the source makes them. *)
Definition rejection (data : Data.t) : option exn :=
  if negb (truthy_string (Data.primitive data)) then Some NodeConfigExpectedException
  else if negb (is_some (Data.positions data)) then Some TypeError
  else if negb (is_some (Data.normals data)) then Some TypeError
  else if negb (is_some (Data.indices data)) then Some TypeError
  else match Data.primitive data with
       | Some p => if supported p then None else Some InvalidGeometryConfigException
       | None => Some InvalidGeometryConfigException
       end.

(** Calls that can add a record to the cache. *)
Definition creates (c : call) : bool :=
  match c with
  | Create _ _ _ => true
  | _ => false
  end.

(** Every record of [s'] is a record of [s] under the same name, the same but
    for its [lastUsed]. *)
Definition ages (s s' : backend) : Prop :=
  forall k g', lookup s' k = Some g' ->
               exists g u, lookup s k = Some g /\ g' = Geo.with_lastUsed g u.

Definition resets (ev : event) : bool :=
  match ev with
  | RESET => true
  | _ => false
  end.

(** * The texture node (src/scenejs/texture/texture.js)

    [SceneJS.texture] makes a scene node that loads the images of its texture
    layers, creates a texture for each, and, once all are ready, pushes them
    on the texture backend around the visit of its children. The node is a
    closure over [params], [layers] and [matrix]; a visit is a function from
    those variables to their new values, the way the visit ends, and the
    calls it makes, in order, to the texture backend, the logger and
    [visitChildren].

    The texture backend, the scene traversal and the functions a layer can
    be configured with are not among the sources and are nowhere described:
    nothing is assumed of them but that the calls return. What each call
    returns during a visit is an input of the visit ([answers]), one value
    per layer, so that every theorem holds whatever those collaborators
    do. *)

Module Texture.

(** ** Numbers, vectors and matrices *)

(** The numbers of a [translate], [rotate] or [scale] vector. *)
Definition number := QArith_base.Q.

Definition number_of (n : Z) : number := QArith_base.Qmake n 1.

(** Zero is falsy ([NaN] is not modelled). *)
Definition falsy (q : number) : bool := QArith_base.Qeq_bool q (number_of 0).

(** An object with optional [x], [y] and [z]. *)
Record xyz := { x : option number; y : option number; z : option number }.

(** [c || d] *)
Definition number_or (c : option number) (d : number) : number :=
  match c with
  | Some q => if falsy q then d else q
  | None => d
  end.

(** [SceneJS._math] is not among the sources: its functions are kept as
    constructors. [rotationMat4v degrees axis] stands for
    [SceneJS._math.rotationMat4v(degrees * 0.0174532925, axis)]. *)
Inductive mat4 :=
| translationMat4v (v : list number)
| scalingMat4v (v : list number)
| rotationMat4v (degrees : number) (axis : list Z)
| mulMat4 (a b : mat4).

(** [matrix ? mulMat4(matrix, t) : t] *)
Definition times (matrix : option mat4) (t : mat4) : mat4 :=
  match matrix with
  | Some m => mulMat4 m t
  | None => t
  end.

(** [if (rotate.c) { t = rotationMat4v(..); matrix = matrix ? mulMat4(matrix, t) : t; }] *)
Definition rotated (c : option number) (axis : list Z) (matrix : option mat4)
  : option mat4 :=
  match c with
  | Some q => if falsy q then matrix else Some (times matrix (rotationMat4v q axis))
  | None => matrix
  end.

(** [utils.getMatrix(translate, rotate, scale)] *)
Definition getMatrix (translate rotate scale : option xyz) : option mat4 :=
  let matrix := None in
  let matrix :=
    match translate with
    | Some t =>
        Some (translationMat4v [number_or (x t) (number_of 0);
                                number_or (y t) (number_of 0);
                                number_or (z t) (number_of 0)])
    | None => matrix
    end in
  let matrix :=
    match scale with
    | Some sc =>
        Some (times matrix
                    (scalingMat4v [number_or (x sc) (number_of 1);
                                   number_or (y sc) (number_of 1);
                                   number_or (z sc) (number_of 1)]))
    | None => matrix
    end in
  match rotate with
  | Some r =>
      let matrix := rotated (x r) [1; 0; 0]%Z matrix in
      let matrix := rotated (y r) [0; 1; 0]%Z matrix in
      rotated (z r) [0; 0; 1]%Z matrix
  | None => matrix
  end.

(** ** Layers *)

(** [utils.STATE_INITIAL] and the others. *)
Inductive layer_state :=
| STATE_INITIAL
| STATE_IMAGE_LOADING
| STATE_IMAGE_LOADED
| STATE_TEXTURE_CREATED
| STATE_ERROR.

(** The value of a [translate], [rotate] or [scale] parameter: left out,
    a vector, or a function of the scene data. *)
Inductive setting :=
| Absent
| Value (v : xyz)
| Function.

Inductive slot := Translate | Rotate | Scale.

(** One element of [params.layers]. *)
Module LayerParam.

Record t := {
  uri : option string;
  applyFrom : option string;
  applyTo : option string;
  blendMode : option string;
  translate : setting;
  rotate : setting;
  scale : setting
}.

End LayerParam.

(** What [cfg.getParams(data)] returns. *)
Module Params.

Record t := { layers : option (list LayerParam.t) }.

End Params.

(** Handles of the texture backend's objects. *)
Definition process := nat.
Definition image := nat.
Definition texture := nat.

(** One element of [layers]. Its [createMatrix] closure holds the
    [translate], [rotate] and [scale] of [creationParams]. *)
Module Layer.

Record t := {
  state : layer_state;
  process : option process;
  image : option image;
  creationParams : LayerParam.t;
  texture : option texture;
  applyFrom : string;
  applyTo : string;
  blendMode : string
}.

Definition with_state (l : t) (st : layer_state) : t :=
  {| state := st; process := process l; image := image l;
     creationParams := creationParams l; texture := texture l;
     applyFrom := applyFrom l; applyTo := applyTo l; blendMode := blendMode l |}.

Definition with_process (l : t) (p : option nat) : t :=
  {| state := state l; process := p; image := image l;
     creationParams := creationParams l; texture := texture l;
     applyFrom := applyFrom l; applyTo := applyTo l; blendMode := blendMode l |}.

Definition with_image (l : t) (i : option nat) : t :=
  {| state := state l; process := process l; image := i;
     creationParams := creationParams l; texture := texture l;
     applyFrom := applyFrom l; applyTo := applyTo l; blendMode := blendMode l |}.

Definition with_texture (l : t) (x : option nat) : t :=
  {| state := state l; process := process l; image := image l;
     creationParams := creationParams l; texture := x;
     applyFrom := applyFrom l; applyTo := applyTo l; blendMode := blendMode l |}.

End Layer.

(** ** The node *)

(** What a visit can throw. The source throws
    [SceneJS.exceptions.InvalidNodeConfigException(..)] without [new]: the
    value thrown is whatever that call returns. *)
Inductive thrown :=
| NodeConfigExpectedException (message : string)
| InvalidNodeConfigException_called (message : string)
| FromChildren (what : nat).

Inductive completion :=
| Normal
| Abrupt (e : thrown).

(** The calls a visit and the image callbacks make. *)
Inductive call :=
| Call_textureExists (t : option texture)
| Call_loadImage (uri : option string)
| Call_createTexture (i : option image) (creationParams : LayerParam.t)
| Call_imageLoaded (p : option process)
| Call_pushLayer (t : option texture) (applyFrom applyTo blendMode : string)
                 (m : option mat4)
| Call_visitChildren
| Call_popLayers (n : nat)
| Log_error (message : string)
| Log_warn (message : string).

(** The closure variables. *)
Record node := {
  params : option Params.t;
  layers : list Layer.t;
  matrix : option mat4
}.

(** The node as [SceneJS.texture] returns it, not yet visited. *)
Definition unvisited : node := {| params := None; layers := []; matrix := None |}.

Definition set_params (p : option Params.t) (nd : node) : node :=
  {| params := p; layers := layers nd; matrix := matrix nd |}.
Definition set_layers (ls : list Layer.t) (nd : node) : node :=
  {| params := params nd; layers := ls; matrix := matrix nd |}.
Definition set_matrix (m : option mat4) (nd : node) : node :=
  {| params := params nd; layers := layers nd; matrix := m |}.

(** What the node's collaborators answer during one visit: what
    [cfg.getParams(data)] returns; for the layer at each index, what
    [textureExists], [loadImage] and [createTexture] return and what the
    layer's parameter functions return; whether the traversal is in picking
    mode; and what [visitChildren] throws, if anything. *)
Record answers := {
  getParams : Params.t;
  textureExists : nat -> bool;
  loadImage : nat -> process;
  createTexture : nat -> texture;
  call_function : nat -> slot -> option xyz;
  picking : bool;
  visitChildren : option thrown
}.

Definition truthy (o : option string) : bool :=
  match o with
  | Some s => negb (String.eqb s "")
  | None => false
  end.

(** [o || d] *)
Definition string_or (o : option string) (d : string) : string :=
  match o with
  | Some s => if String.eqb s "" then d else s
  | None => d
  end.

(** [o != s] *)
Definition differs (o : option string) (s : string) : bool :=
  match o with
  | Some s' => negb (String.eqb s' s)
  | None => true
  end.

Definition decimal (n : nat) : string :=
  DecimalString.NilZero.string_of_uint (Nat.to_uint n).

(** The object pushed on [layers]. *)
Definition new_layer (layerParam : LayerParam.t) : Layer.t :=
  {| Layer.state := STATE_INITIAL;
     Layer.process := None;
     Layer.image := None;
     Layer.creationParams := layerParam;
     Layer.texture := None;
     Layer.applyFrom := string_or (LayerParam.applyFrom layerParam) "geometry";
     Layer.applyTo := string_or (LayerParam.applyTo layerParam) "baseColor";
     Layer.blendMode := string_or (LayerParam.blendMode layerParam) "multiply" |}.

(** The loop that prepares the layers, from index [i] on, pushing on
    [acc]. *)
Fixpoint prepare (i : nat) (ps : list LayerParam.t) (acc : list Layer.t)
  : completion * list Layer.t :=
  match ps with
  | [] => (Normal, acc)
  | layerParam :: rest =>
      if negb (truthy (LayerParam.uri layerParam))
      then (Abrupt (NodeConfigExpectedException
                      ("SceneJS.texture.layers[" ++ decimal i ++ "].uri is undefined")),
            acc)
      else if truthy (LayerParam.applyFrom layerParam)
              && (differs (LayerParam.applyFrom layerParam) "uv"
                  && differs (LayerParam.applyFrom layerParam) "uv2"
                  && differs (LayerParam.applyFrom layerParam) "normal"
                  && differs (LayerParam.applyFrom layerParam) "geometry")
      then (Abrupt (InvalidNodeConfigException_called
                      ("SceneJS.texture.layers[" ++ decimal i
                       ++ "].applyFrom value is unsupported - "
                       ++ "should be either 'uv', 'uv2', 'normal' or 'geometry'")),
            acc)
      else if truthy (LayerParam.applyTo layerParam)
              && (differs (LayerParam.applyTo layerParam) "baseColor"
                  && differs (LayerParam.applyTo layerParam) "diffuseColor")
      then (Abrupt (InvalidNodeConfigException_called
                      ("SceneJS.texture.layers[" ++ decimal i
                       ++ "].applyTo value is unsupported - "
                       ++ "should be either 'baseColor', 'diffuseColor'")),
            acc)
      else prepare (S i) rest (acc ++ [new_layer layerParam])
  end.

(** [if (!params) { .. }]: the node takes its configuration at its first
    visit. [params] is assigned before anything is checked, and
    [params.layers = params.layers || []] changes nothing once [params.layers]
    has passed the check before it. *)
Definition configure (a : answers) (nd : node) : completion * node :=
  match params nd with
  | Some _ => (Normal, nd)
  | None =>
      let nd1 := set_params (Some (getParams a)) nd in
      match Params.layers (getParams a) with
      | None =>
          (Abrupt (NodeConfigExpectedException "SceneJS.texture.layers is undefined"),
           nd1)
      | Some ps =>
          let '(c, ls) := prepare 0 ps (layers nd1) in
          (c, set_layers ls nd1)
      end
  end.

(** One turn of the loop that updates the layers: the layer at index [i]
    after the turn, the calls made, and what the turn adds to
    [countLayersReady]. *)
Definition update_layer (a : answers) (i : nat) (layer : Layer.t)
  : Layer.t * list call * nat :=
  let '(layer, checked) :=
    match Layer.state layer with
    | STATE_TEXTURE_CREATED =>
        (if textureExists a i then layer else Layer.with_state layer STATE_INITIAL,
         [Call_textureExists (Layer.texture layer)])
    | _ => (layer, [])
    end in
  match Layer.state layer with
  | STATE_TEXTURE_CREATED => (layer, checked, 1)
  | STATE_INITIAL =>
      (Layer.with_process (Layer.with_state layer STATE_IMAGE_LOADING)
                          (Some (loadImage a i)),
       checked ++ [Call_loadImage (LayerParam.uri (Layer.creationParams layer))],
       0)
  | STATE_IMAGE_LOADING => (layer, checked, 0)
  | STATE_IMAGE_LOADED =>
      (Layer.with_state (Layer.with_texture layer (Some (createTexture a i)))
                        STATE_TEXTURE_CREATED,
       checked ++ [Call_createTexture (Layer.image layer) (Layer.creationParams layer);
                   Call_imageLoaded (Layer.process layer)],
       1)
  | STATE_ERROR => (layer, checked, 0)
  end.

Fixpoint update (a : answers) (i : nat) (ls : list Layer.t)
  : list Layer.t * list call * nat :=
  match ls with
  | [] => ([], [], 0)
  | layer :: rest =>
      let '(layer', t1, c1) := update_layer a i layer in
      let '(rest', t2, c2) := update a (S i) rest in
      (layer' :: rest', t1 ++ t2, c1 + c2)
  end.

Definition is_function (v : setting) : bool :=
  match v with
  | Function => true
  | _ => false
  end.

Definition given (v : setting) : bool :=
  match v with
  | Absent => false
  | _ => true
  end.

(** [(v instanceof Function) ? v(data) : v] *)
Definition evaluate (a : answers) (i : nat) (which : slot) (v : setting) : option xyz :=
  match v with
  | Absent => None
  | Value o => Some o
  | Function => call_function a i which
  end.

(** [layer.createMatrix(data)] for the layer at index [i]: the new value of
    the node's [matrix], which is also what the call returns. *)
Definition createMatrix (a : answers) (i : nat) (layer : Layer.t)
    (matrix : option mat4) : option mat4 :=
  let translate := LayerParam.translate (Layer.creationParams layer) in
  let rotate := LayerParam.rotate (Layer.creationParams layer) in
  let scale := LayerParam.scale (Layer.creationParams layer) in
  let dynamic := is_function translate || is_function rotate || is_function scale in
  let defined := dynamic || given translate || given rotate || given scale in
  if defined && (dynamic || negb (is_some matrix))
  then getMatrix (evaluate a i Translate translate)
                 (evaluate a i Rotate rotate)
                 (evaluate a i Scale scale)
  else matrix.

(** The loop that pushes the layers, from index [i] on. *)
Fixpoint pushLayers (a : answers) (i : nat) (ls : list Layer.t)
    (matrix : option mat4) : list call * option mat4 :=
  match ls with
  | [] => ([], matrix)
  | layer :: rest =>
      let m := createMatrix a i layer matrix in
      let '(t, m') := pushLayers a (S i) rest m in
      (Call_pushLayer (Layer.texture layer) (Layer.applyFrom layer)
                      (Layer.applyTo layer) (Layer.blendMode layer) m :: t,
       m')
  end.

Definition children (a : answers) : completion :=
  match visitChildren a with
  | None => Normal
  | Some e => Abrupt e
  end.

(** The node function: one visit. *)
Definition visit (a : answers) (nd : node) : completion * node * list call :=
  match configure a nd with
  | (Abrupt e, nd1) => (Abrupt e, nd1, [])
  | (Normal, nd1) =>
      let '(ls, t, countLayersReady) := update a 0 (layers nd1) in
      let nd2 := set_layers ls nd1 in
      if picking a
      then (children a, nd2, t ++ [Call_visitChildren])
      else if Nat.eqb countLayersReady (List.length ls)
      then
        let '(pushes, m) := pushLayers a 0 ls (matrix nd2) in
        (children a, set_matrix m nd2,
         t ++ pushes ++ Call_visitChildren ::
           match visitChildren a with
           | None => [Call_popLayers (List.length ls)]
           | Some _ => []
           end)
      else (Normal, nd2, t)
  end.

(** ** The image callbacks *)

Fixpoint at_index {A : Type} (i : nat) (f : A -> A) (l : list A) : list A :=
  match l, i with
  | [], _ => []
  | a :: rest, O => f a :: rest
  | a :: rest, S i' => a :: at_index i' f rest
  end.

Definition text (o : option string) : string :=
  match o with
  | Some s => s
  | None => "undefined"
  end.

(** The three callbacks given to [loadImage] for the layer at index [i]. *)
Definition image_loaded (i : nat) (img : image) (nd : node) : node :=
  set_layers
    (at_index i (fun l => Layer.with_state (Layer.with_image l (Some img))
                                           STATE_IMAGE_LOADED)
              (layers nd)) nd.

Definition failure_log (level : string -> call) (what : string) (i : nat) (nd : node)
  : list call :=
  match nth_error (layers nd) i with
  | Some l => [level (what ++ text (LayerParam.uri (Layer.creationParams l)))%string]
  | None => []
  end.

Definition image_failed (i : nat) (nd : node) : node * list call :=
  (set_layers (at_index i (fun l => Layer.with_state l STATE_ERROR) (layers nd)) nd,
   failure_log Log_error "SceneJS.texture image load failed: " i nd).

Definition image_aborted (i : nat) (nd : node) : node * list call :=
  (set_layers (at_index i (fun l => Layer.with_state l STATE_ERROR) (layers nd)) nd,
   failure_log Log_warn "SceneJS.texture image load aborted: " i nd).

(** ** Successive visits *)

Fixpoint visits (l : list answers) (nd : node) : node * list call :=
  match l with
  | [] => (nd, [])
  | a :: rest =>
      let '(_, nd1, t1) := visit a nd in
      let '(nd2, t2) := visits rest nd1 in
      (nd2, t1 ++ t2)
  end.

(** ** Vocabulary of the statements *)

Definition is_created (l : Layer.t) : bool :=
  match Layer.state l with
  | STATE_TEXTURE_CREATED => true
  | _ => false
  end.

Definition is_push (c : call) : bool :=
  match c with
  | Call_pushLayer _ _ _ _ _ => true
  | _ => false
  end.

Definition is_pop (c : call) : bool :=
  match c with
  | Call_popLayers _ => true
  | _ => false
  end.

Definition is_visitChildren (c : call) : bool :=
  match c with
  | Call_visitChildren => true
  | _ => false
  end.

(** A call that applies textures or shows the subtree. *)
Definition applies (c : call) : bool :=
  is_push c || is_pop c || is_visitChildren c.

Definition is_load (c : call) : bool :=
  match c with
  | Call_loadImage _ => true
  | _ => false
  end.

(** The matrix pushed with each layer. *)
Definition pushed_matrices (t : list call) : list (option mat4) :=
  flat_map (fun c => match c with
                     | Call_pushLayer _ _ _ _ m => [m]
                     | _ => []
                     end) t.

(** No parameter of the layer is a function. *)
Definition static (l : Layer.t) : bool :=
  negb (is_function (LayerParam.translate (Layer.creationParams l))
        || is_function (LayerParam.rotate (Layer.creationParams l))
        || is_function (LayerParam.scale (Layer.creationParams l))).

(** A vector component that is missing or zero. *)
Definition no_turn (c : option number) : bool :=
  match c with
  | Some q => falsy q
  | None => true
  end.

(** The matrix [getMatrix] makes of the layer's own parameters, when none is
    a function. *)
Definition fixed_value (v : setting) : option xyz :=
  match v with
  | Value o => Some o
  | _ => None
  end.

Definition own_matrix (l : Layer.t) : option mat4 :=
  getMatrix (fixed_value (LayerParam.translate (Layer.creationParams l)))
            (fixed_value (LayerParam.rotate (Layer.creationParams l)))
            (fixed_value (LayerParam.scale (Layer.creationParams l))).

(** The first matrix the layers make, in order. *)
Fixpoint first_matrix (ls : list Layer.t) : option mat4 :=
  match ls with
  | [] => None
  | l :: rest =>
      match own_matrix l with
      | Some m => Some m
      | None => first_matrix rest
      end
  end.

(** The value the node's [matrix] settles on when no parameter is a
    function. *)
Definition shared_matrix (nd : node) : option mat4 :=
  match matrix nd with
  | Some m => Some m
  | None => first_matrix (layers nd)
  end.

(** The layers as the first visit leaves them when it accepts [ps]: each
    loading, with the process handle [loadImage] returned for it. *)
Fixpoint loading (a : answers) (i : nat) (ps : list LayerParam.t) : list Layer.t :=
  match ps with
  | [] => []
  | p :: rest =>
      Layer.with_process (Layer.with_state (new_layer p) STATE_IMAGE_LOADING)
                         (Some (loadImage a i))
      :: loading a (S i) rest
  end.

(** ** Example nodes, used to run the node on concrete inputs *)

Definition layer_of (u : string) (tr : setting) : LayerParam.t :=
  {| LayerParam.uri := Some u; LayerParam.applyFrom := None;
     LayerParam.applyTo := None; LayerParam.blendMode := None;
     LayerParam.translate := tr; LayerParam.rotate := Absent;
     LayerParam.scale := Absent |}.

Definition along_x (n : Z) : setting :=
  Value {| x := Some (number_of n); y := None; z := None |}.

(** A rendering visit configured with [ps], during which every texture
    exists and the children return. *)
Definition rendering (ps : option (list LayerParam.t)) : answers :=
  {| getParams := {| Params.layers := ps |};
     textureExists := fun _ => true;
     loadImage := fun i => 100 + i;
     createTexture := fun i => 200 + i;
     call_function := fun _ _ => None;
     picking := false;
     visitChildren := None |}.

Definition picking_visit : answers :=
  {| getParams := {| Params.layers := None |};
     textureExists := fun _ => true;
     loadImage := fun i => 100 + i;
     createTexture := fun i => 200 + i;
     call_function := fun _ _ => None;
     picking := true;
     visitChildren := None |}.

Definition two_layers : list LayerParam.t :=
  [layer_of "brick.jpg" (along_x 1); layer_of "moss.jpg" (along_x 2)].

(** A node with both layers of [two_layers] created: visited, both images
    loaded, visited again. *)
Definition textured : node :=
  let nd1 := fst (visits [rendering (Some two_layers)] unvisited) in
  let nd2 := image_loaded 1 11 (image_loaded 0 10 nd1) in
  fst (visits [rendering None] nd2).

(** A rendering visit during which the backend has lost every texture. *)
Definition evicting : answers :=
  {| getParams := {| Params.layers := None |};
     textureExists := fun _ => false;
     loadImage := fun i => 300 + i;
     createTexture := fun i => 400 + i;
     call_function := fun _ _ => None;
     picking := false;
     visitChildren := None |}.



(** The same node when the second image fails to load. *)
Definition half_failed : node :=
  let nd1 := fst (visits [rendering (Some two_layers)] unvisited) in
  fst (image_failed 1 (image_loaded 0 10 nd1)).

End Texture.

(** * Lemmas and theorems *)

(** ** Properties of the object model *)

Section JsObjFacts.

Context {V : Type}.
Implicit Types (o : JsObj.t V) (k : string) (v : V).

Lemma get_set_same o k v : JsObj.get (JsObj.set o k v) k = Some v.
Proof.
  induction o as [|[k' v'] o IH]; simpl.
  - now rewrite String.eqb_refl.
  - destruct (String.eqb k' k) eqn:E; simpl; now rewrite E.
Qed.

Lemma get_set_other o k k' v :
  k <> k' -> JsObj.get (JsObj.set o k v) k' = JsObj.get o k'.
Proof.
  intros Hne. induction o as [|[k0 v0] o IH]; simpl.
  - destruct (String.eqb_spec k k'); [contradiction | reflexivity].
  - destruct (String.eqb_spec k0 k) as [->|Hk]; simpl.
    + destruct (String.eqb_spec k k'); [contradiction | reflexivity].
    + destruct (String.eqb k0 k'); [reflexivity | exact IH].
Qed.

Lemma set_set_same o k v v' :
  JsObj.set (JsObj.set o k v) k v' = JsObj.set o k v'.
Proof.
  induction o as [|[k0 v0] o IH]; simpl.
  - now rewrite String.eqb_refl.
  - destruct (String.eqb k0 k) eqn:E; simpl; rewrite E; [reflexivity | now rewrite IH].
Qed.

Lemma keys_set_present o k v :
  In k (JsObj.keys o) -> JsObj.keys (JsObj.set o k v) = JsObj.keys o.
Proof.
  induction o as [|[k0 v0] o IH]; simpl; [tauto|].
  intros [->|Hin].
  - now rewrite String.eqb_refl.
  - destruct (String.eqb k0 k); simpl; [reflexivity | now rewrite IH].
Qed.

Lemma keys_set_absent o k v :
  ~ In k (JsObj.keys o) -> JsObj.set o k v = o ++ [(k, v)].
Proof.
  induction o as [|[k0 v0] o IH]; simpl; [reflexivity|].
  intros Hn. destruct (String.eqb_spec k0 k) as [->|Hk]; [tauto|].
  rewrite IH; tauto.
Qed.

Lemma keys_set_NoDup o k v :
  NoDup (JsObj.keys o) -> NoDup (JsObj.keys (JsObj.set o k v)).
Proof.
  intros Hnd. destruct (in_dec string_dec k (JsObj.keys o)) as [Hin|Hout].
  - now rewrite keys_set_present.
  - rewrite keys_set_absent by assumption. unfold JsObj.keys.
    rewrite map_app. simpl.
    apply NoDup_app; [exact Hnd | repeat constructor; simpl; tauto |].
    intros a Ha [<-|[]]. exact (Hout Ha).
Qed.

End JsObjFacts.

(** ** What [destroyGeometry] does, in closed form *)

Ltac monad_unfold :=
  unfold bind, ret, throw, get, modify, emit, when, try_catch,
         buffer_destroy, destroy_if_present in *.

Lemma destroyGeometry_null s :
  destroyGeometry None s = (Throw TypeError, s, []).
Proof. reflexivity. Qed.

Lemma destroyGeometry_gone g s :
  getElementById s (canvasId (Geo.canvas g)) = false ->
  destroyGeometry (Some g) s =
  (Return tt, tombstone (Geo.geoId g) (unbind (Geo.geoId g) s), [destroy_log g]).
Proof.
  intros Hdoc. unfold destroyGeometry, unbind, tombstone. monad_unfold.
  destruct (option_string_eqb (Geo.geoId g) (currentBoundGeo s)); simpl;
    rewrite Hdoc; reflexivity.
Qed.

Lemma destroyGeometry_present g s :
  getElementById s (canvasId (Geo.canvas g)) = true ->
  destroyable g ->
  destroyGeometry (Some g) s =
  (Return tt, tombstone (Geo.geoId g) (unbind (Geo.geoId g) s),
   destroy_log g :: releases g).
Proof.
  intros Hdoc Hok. unfold destroyGeometry, unbind, tombstone, releases, released.
  monad_unfold. unfold destroyable in Hok.
  destruct (option_string_eqb (Geo.geoId g) (currentBoundGeo s)); simpl;
    rewrite Hdoc;
    destruct (Geo.vertexBuf g), (Geo.normalBuf g), (Geo.indexBuf g),
             (Geo.texCoordBuf g); simpl; try reflexivity;
    exfalso; apply Hok; congruence.
Qed.

Lemma frame_refl s : frame s s.
Proof. constructor; auto. Qed.

Lemma frame_trans s1 s2 s3 : frame s1 s2 -> frame s2 s3 -> frame s1 s3.
Proof.
  intros [] []. constructor; try congruence; try lia; auto.
  destruct frame_bound1 as [H|H]; [now left|]. rewrite H. assumption.
Qed.

Lemma lookup_tombstone s k k' :
  lookup (tombstone k s) k' = if String.eqb k k' then None else lookup s k'.
Proof.
  unfold lookup, tombstone. simpl.
  destruct (String.eqb_spec k k') as [->|Hne].
  - now rewrite get_set_same.
  - now rewrite get_set_other.
Qed.

Lemma In_keys_set {V : Type} (o : JsObj.t V) k k' v :
  In k' (JsObj.keys o) -> In k' (JsObj.keys (JsObj.set o k v)).
Proof.
  intros Hin. destruct (in_dec string_dec k (JsObj.keys o)) as [Hk|Hk].
  - now rewrite keys_set_present.
  - rewrite keys_set_absent by assumption. unfold JsObj.keys in *.
    rewrite map_app. apply in_or_app. now left.
Qed.

Lemma frame_unbind k s : frame s (unbind k s).
Proof.
  unfold unbind. destruct (option_string_eqb k (currentBoundGeo s)).
  - constructor; simpl; auto.
  - apply frame_refl.
Qed.

Lemma frame_tombstone k s : frame s (tombstone k s).
Proof.
  constructor; simpl; auto.
  - intros k' Hin. now apply In_keys_set.
  - intros k' g. rewrite lookup_tombstone.
    destruct (String.eqb k k'); [discriminate | auto].
Qed.

Lemma destroyGeometry_frame arg s :
  frame s (final (destroyGeometry arg s)).
Proof.
  destruct arg as [g|]; [|apply frame_refl].
  destruct (getElementById s (canvasId (Geo.canvas g))) eqn:Hdoc.
  - unfold destroyGeometry. monad_unfold. unfold final. simpl.
    pose proof (frame_unbind (Geo.geoId g) s) as Hu. unfold unbind in Hu.
    destruct (option_string_eqb (Geo.geoId g) (currentBoundGeo s)); simpl;
      rewrite Hdoc;
      destruct (Geo.vertexBuf g), (Geo.normalBuf g), (Geo.indexBuf g),
               (Geo.texCoordBuf g); simpl.
    all: first [ exact Hu
               | exact (frame_trans _ _ _ Hu (frame_tombstone (Geo.geoId g) _)) ].
  - rewrite destroyGeometry_gone by assumption. unfold final. simpl.
    eapply frame_trans; [apply frame_unbind | apply frame_tombstone].
Qed.

Lemma destroyGeometry_throws arg s e :
  result (destroyGeometry arg s) = Throw e -> e = TypeError.
Proof.
  destruct arg as [g|]; [|unfold result; simpl; congruence].
  unfold destroyGeometry, result. monad_unfold.
  destruct (option_string_eqb (Geo.geoId g) (currentBoundGeo s)); simpl;
    destruct (getElementById _ _); simpl;
    destruct (Geo.vertexBuf g), (Geo.normalBuf g), (Geo.indexBuf g),
             (Geo.texCoordBuf g); simpl; congruence.
Qed.

Lemma destroyGeometry_trace arg s :
  Forall (fun e => match e with
                   | LogDebug _ | BufferDestroyed _ => True
                   | _ => False
                   end) (trace (destroyGeometry arg s)).
Proof.
  destruct arg as [g|]; [|constructor].
  unfold destroyGeometry, trace. monad_unfold.
  destruct (option_string_eqb (Geo.geoId g) (currentBoundGeo s)); simpl;
    destruct (getElementById _ _); simpl;
    destruct (Geo.vertexBuf g), (Geo.normalBuf g), (Geo.indexBuf g),
             (Geo.texCoordBuf g); simpl; repeat constructor.
Qed.

(** ** A small program logic

    With [R] a preorder, [respects R P Q] is closed under the monad's
    operations, so it is established for a function by following its text. *)

Lemma bind_run {A B : Type} (m : M A) (k : A -> M B) s :
  bind m k s =
  match m s with
  | (Return a, s1, t1) => (fst (fst (k a s1)), snd (fst (k a s1)), t1 ++ snd (k a s1))
  | (Throw e, s1, t1) => (Throw e, s1, t1)
  end.
Proof.
  unfold bind. destruct (m s) as [[[a|e] s1] t1]; [|reflexivity].
  now destruct (k a s1) as [[o s2] t2].
Qed.

Section ProgramLogic.

Variable R : backend -> backend -> Prop.
Variable P : effect -> Prop.
Variable Q : exn -> Prop.
Hypothesis R_refl : forall s, R s s.
Hypothesis R_trans : forall s1 s2 s3, R s1 s2 -> R s2 s3 -> R s1 s3.

Lemma respects_ret {A : Type} (a : A) : respects R P Q (ret a).
Proof. intros s. repeat split; [apply R_refl | constructor | discriminate]. Qed.

Lemma respects_get : respects R P Q get.
Proof. intros s. repeat split; [apply R_refl | constructor | discriminate]. Qed.

Lemma respects_throw {A : Type} (e : exn) : Q e -> respects R P Q (@throw A e).
Proof.
  intros He s. repeat split; [apply R_refl | constructor |].
  unfold result; simpl. congruence.
Qed.

Lemma respects_emit (e : effect) : P e -> respects R P Q (emit e).
Proof.
  intros He s. repeat split; [apply R_refl | repeat constructor; exact He | discriminate].
Qed.

Lemma respects_modify (f : backend -> backend) :
  (forall s, R s (f s)) -> respects R P Q (modify f).
Proof. intros Hf s. repeat split; [apply Hf | constructor | discriminate]. Qed.

Lemma respects_bind {A B : Type} (m : M A) (k : A -> M B) :
  respects R P Q m -> (forall a, respects R P Q (k a)) -> respects R P Q (bind m k).
Proof.
  intros Hm Hk s. specialize (Hm s). rewrite bind_run.
  destruct (m s) as [[[a|e] s1] t1]; unfold final, trace, result in *; simpl in *.
  - destruct Hm as (HR & HP & _). destruct (Hk a s1) as (HR' & HP' & HQ').
    unfold final, trace, result in *.
    repeat split.
    + eapply R_trans; eassumption.
    + apply Forall_app; split; assumption.
    + exact HQ'.
  - destruct Hm as (HR & HP & HQ). repeat split; auto.
    intros e0 He0. injection He0 as <-. now apply HQ.
Qed.

Lemma respects_when (b : bool) (m : M unit) : respects R P Q m -> respects R P Q (when b m).
Proof. destruct b; [trivial | intros _; apply respects_ret]. Qed.

Lemma respects_try_catch {A : Type} (m : M A) (h : exn -> M A) :
  respects R P Q m -> (forall e, respects R P Q (h e)) -> respects R P Q (try_catch m h).
Proof.
  intros Hm Hh s. specialize (Hm s). unfold try_catch.
  destruct (m s) as [[[a|e] s1] t1]; unfold final, trace, result in *; simpl in *.
  - exact Hm.
  - destruct Hm as (HR & HP & _). destruct (Hh e s1) as (HR' & HP' & HQ').
    unfold final, trace, result in *.
    destruct (h e s1) as [[o s2] t2]; simpl in *.
    repeat split.
    + eapply R_trans; eassumption.
    + apply Forall_app; split; assumption.
    + exact HQ'.
Qed.

End ProgramLogic.

(** ** The evictor and the event handlers only tidy up *)

Lemma respects_destroyGeometry arg :
  respects frame housekeeping only_TypeError (destroyGeometry arg).
Proof.
  intros s. split; [|split].
  - apply destroyGeometry_frame.
  - eapply Forall_impl; [|apply destroyGeometry_trace].
    intros [] H; simpl in *; tauto.
  - apply destroyGeometry_throws.
Qed.

Lemma respects_destroy_each keys :
  respects frame housekeeping only_TypeError (destroy_each keys).
Proof.
  induction keys as [|k keys IH]; simpl.
  - apply respects_ret. exact frame_refl.
  - apply respects_bind; [exact frame_trans | apply respects_get; exact frame_refl |].
    intros s0. apply respects_bind; [exact frame_trans | apply respects_destroyGeometry |].
    intros _. exact IH.
Qed.

Lemma evictor_scan_throws s keys acc e :
  evictor_scan s keys acc = Throw e -> e = TypeError.
Proof.
  revert acc. induction keys as [|k keys IH]; simpl; intros acc; [discriminate|].
  unfold evictor_visit.
  destruct (String.eqb k ""); [apply IH|].
  destruct (lookup s k) as [g|]; [|congruence].
  destruct (_ && _); apply IH.
Qed.

Lemma respects_evictor : respects frame housekeeping only_TypeError evictor.
Proof.
  unfold evictor.
  apply respects_bind; [exact frame_trans | apply respects_get; exact frame_refl |].
  intros s0.
  destruct (evictor_scan s0 _ _) as [[earliest [evictee|]]|e] eqn:Hscan.
  - apply respects_bind; [exact frame_trans | apply respects_emit; [exact frame_refl | exact I] |].
    intros _. apply respects_bind; [exact frame_trans | apply respects_destroyGeometry |].
    intros _. apply respects_ret. exact frame_refl.
  - apply respects_ret. exact frame_refl.
  - apply respects_throw; [exact frame_refl|]. eapply evictor_scan_throws. exact Hscan.
Qed.

Lemma respects_call_evictor n :
  respects frame housekeeping only_TypeError (call_evictor n).
Proof.
  induction n as [|n IH]; simpl.
  - apply respects_ret. exact frame_refl.
  - apply respects_bind; [exact frame_trans | apply respects_evictor |].
    intros _. exact IH.
Qed.

Lemma respects_weaken (R R' : backend -> backend -> Prop) P Q {A : Type} (m : M A) :
  (forall s s', R s s' -> R' s s') ->
  respects R P Q m -> respects R' P Q m.
Proof.
  intros HRR Hm s. destruct (Hm s) as (HR & HP & HQ). auto.
Qed.

Lemma settles_refl s : settles s s.
Proof. constructor; auto. Qed.

Lemma settles_trans s1 s2 s3 : settles s1 s2 -> settles s2 s3 -> settles s1 s3.
Proof.
  intros [] []. constructor; try congruence; try lia; auto.
  destruct settles_bound1 as [H|H]; [now left|]. rewrite H. assumption.
Qed.

Lemma frame_settles s s' : frame s s' -> settles s s'.
Proof. intros []. constructor; auto. Qed.

Lemma respects_onEvent ev :
  respects settles housekeeping only_TypeError (onEvent ev).
Proof.
  assert (Hset : forall f : backend -> backend,
             (forall s, settles s (f s)) ->
             respects settles housekeeping only_TypeError (modify f))
    by (intros f Hf; apply respects_modify; exact Hf).
  assert (Hgeo : forall s, settles s (set_geometries JsObj.empty s))
    by (intros s; constructor; simpl; auto; discriminate).
  assert (Hcan : forall c s, settles s (set_canvas c s))
    by (intros c s; constructor; simpl; auto).
  assert (Hbnd : forall s, settles s (set_currentBoundGeo None s))
    by (intros s; constructor; simpl; auto).
  assert (Htim : forall t s, settles s (set_time t s))
    by (intros t s; constructor; simpl; auto).
  destruct ev; simpl; auto;
    try (apply respects_bind; [exact settles_trans | auto | intros _; auto]).
  apply respects_bind; [exact settles_trans | apply respects_get; exact settles_refl |].
  intros s0.
  apply respects_bind; [exact settles_trans | |].
  { eapply respects_weaken; [exact frame_settles | apply respects_destroy_each]. }
  intros _.
  apply respects_bind; [exact settles_trans | auto |]. intros _.
  apply respects_bind; [exact settles_trans | auto |]. intros _. auto.
Qed.

Lemma respects_deliver evs :
  respects settles housekeeping only_TypeError (deliver evs).
Proof.
  induction evs as [|ev evs IH]; simpl.
  - apply respects_ret. exact settles_refl.
  - apply respects_bind; [exact settles_trans | apply respects_onEvent |].
    intros _. exact IH.
Qed.

(** ** Without a canvas *)

(** With no canvas active the three API functions throw at once. *)
Lemma findGeometry_no_canvas ty s :
  canvas s = None ->
  findGeometry ty s = (Throw NoCanvasActiveException, s, []).
Proof. intros H. unfold findGeometry. monad_unfold. now rewrite H. Qed.

Lemma createGeometry_no_canvas g ty data s :
  canvas s = None ->
  createGeometry g ty data s =
  (Throw NoCanvasActiveException, s,
   [LogDebug ("Creating geometry: '" ++ ty ++ "'")%string]).
Proof. intros H. unfold createGeometry. monad_unfold. now rewrite H. Qed.

Lemma drawGeometry_no_canvas reaction geoId s :
  canvas s = None ->
  drawGeometry reaction geoId s = (Throw NoCanvasActiveException, s, []).
Proof. intros H. unfold drawGeometry. monad_unfold. now rewrite H. Qed.

Lemma onEvent_keeps_no_canvas ev s :
  activates_canvas (Deliver ev) = false ->
  canvas s = None -> canvas (final (onEvent ev s)) = None.
Proof.
  intros Hev Hc. destruct ev; simpl in Hev; try discriminate; try reflexivity;
    try exact Hc.
  unfold onEvent. rewrite bind_run. unfold get. rewrite bind_run.
  pose proof (respects_destroy_each (JsObj.keys (geometries s)) s) as (Hf & _ & _).
  destruct (destroy_each _ s) as [[[[]|e] s1] t1]; unfold final in *; simpl in *.
  - reflexivity.
  - destruct Hf. congruence.
Qed.

Lemma do_call_keeps_no_canvas c s :
  activates_canvas c = false ->
  canvas s = None -> canvas (fst (do_call c s)) = None.
Proof.
  intros Hc Hs. destruct c as [ev| |ty|g ty data|reaction geoId|doc]; simpl.
  - now apply onEvent_keeps_no_canvas.
  - destruct (respects_evictor s) as ([] & _ & _). congruence.
  - now rewrite findGeometry_no_canvas.
  - now rewrite createGeometry_no_canvas.
  - now rewrite drawGeometry_no_canvas.
  - exact Hs.
Qed.

Lemma run_keeps_no_canvas cs s :
  forallb (fun c => negb (activates_canvas c)) cs = true ->
  canvas s = None -> canvas (fst (run cs s)) = None.
Proof.
  revert s. induction cs as [|c cs IH]; simpl; intros s Hcs Hs; [exact Hs|].
  apply andb_prop in Hcs as [Hc Hcs]. apply negb_true_iff in Hc.
  pose proof (do_call_keeps_no_canvas c s Hc Hs) as H1.
  destruct (do_call c s) as [s1 t1]. simpl in H1.
  specialize (IH s1 Hcs H1). destruct (run cs s1) as [s2 t2]. exact IH.
Qed.

(** ** Drawing *)

Lemma respects_mono (R R' : backend -> backend -> Prop) (P P' : effect -> Prop)
    (Q Q' : exn -> Prop) {A : Type} (m : M A) :
  (forall s s', R s s' -> R' s s') ->
  (forall e, P e -> P' e) ->
  (forall e, Q e -> Q' e) ->
  respects R P Q m -> respects R' P' Q' m.
Proof.
  intros HR HP HQ Hm s. destruct (Hm s) as (H1 & H2 & H3).
  repeat split; auto. eapply Forall_impl; eauto.
Qed.

Lemma triple_eta {A B C : Type} (r : A * B * C) :
  (fst (fst r), snd (fst r), snd r) = r.
Proof. now destruct r as [[a b] c]. Qed.

Lemma drawGeometry_active reaction geoId s c :
  canvas s = Some c ->
  drawGeometry reaction geoId s =
  (fire_SHADER_ACTIVATE reaction ;; draw_continue geoId) s.
Proof.
  intros Hc. unfold drawGeometry. rewrite bind_run. unfold get at 1.
  cbn [fst snd app]. rewrite Hc. apply triple_eta.
Qed.

Lemma fire_SHADER_ACTIVATE_run reaction s :
  fire_SHADER_ACTIVATE reaction s =
  (result (deliver reaction s), final (deliver reaction s),
   Fired_SHADER_ACTIVATE :: trace (deliver reaction s)).
Proof.
  unfold fire_SHADER_ACTIVATE. rewrite bind_run. simpl.
  destruct (deliver reaction s) as [[o s1] t1]. reflexivity.
Qed.

Lemma disable_attribs_trace slots s :
  disable_attribs slots s = (Return tt, s, map DisableVertexAttribArray slots).
Proof.
  induction slots as [|i slots IH]; simpl; [reflexivity|].
  rewrite bind_run. simpl. now rewrite IH.
Qed.

Lemma draw_inherited_run geoId s1 s :
  draw_inherited geoId s1 s = (Throw TypeError, s, inherited_trace geoId s1).
Proof.
  unfold draw_inherited, inherited_trace. rewrite bind_run.
  unfold emit at 1. cbn [fst snd result final trace].
  destruct (canvas s1); [|reflexivity].
  rewrite bind_run. unfold when.
  destruct (option_string_eqb geoId (currentBoundGeo s1)); cbn [negb];
    [reflexivity|].
  rewrite bind_run, disable_attribs_trace. reflexivity.
Qed.

Lemma draw_continue_unresolved geoId s :
  lookup s geoId = None ->
  draw_continue geoId s = (Throw TypeError, s, unresolved_trace geoId s).
Proof.
  intros Hl. unfold draw_continue, unresolved_trace. rewrite bind_run.
  unfold get at 1. cbn [fst snd result final trace]. rewrite Hl.
  destruct (inherits s geoId); [|reflexivity].
  now rewrite draw_inherited_run.
Qed.

Lemma unresolved_trace_quiet geoId s e :
  In e (unresolved_trace geoId s) ->
  match e with
  | AssignInherited_lastUsed _ _ | DisableVertexAttribArray _
  | Fired_GEOMETRY_EXPORTED_inherited _ => True
  | _ => False
  end.
Proof.
  unfold unresolved_trace, inherited_trace.
  destruct (inherits s geoId); [|intros []].
  intros [<-|H]; [exact I|].
  destruct (canvas s); [|destruct H].
  destruct (option_string_eqb geoId (currentBoundGeo s)); [destruct H|].
  apply in_app_or in H as [H|[<-|[]]]; [|exact I].
  apply in_map_iff in H as (i & <- & _). exact I.
Qed.

(** After [fireEvent], nothing in [drawGeometry] fires [SHADER_ACTIVATE], and
    nothing but a [TypeError] can be thrown. *)
Lemma respects_draw_continue geoId :
  respects anything (fun e => is_shader_activate e = false) only_TypeError
           (draw_continue geoId).
Proof.
  assert (Hr : forall s, anything s s) by exact (fun _ => I).
  assert (Ht : forall s1 s2 s3, anything s1 s2 -> anything s2 s3 -> anything s1 s3)
    by exact (fun _ _ _ _ _ => I).
  assert (Hm : forall f, respects anything (fun e => is_shader_activate e = false)
                                  only_TypeError (modify f))
    by (intros f; apply respects_modify; intros; exact I).
  assert (Hthrow : forall A, respects anything (fun e => is_shader_activate e = false)
                                      only_TypeError (@throw A TypeError))
    by (intros A; apply respects_throw; [exact Hr | reflexivity]).
  assert (Hemit : forall e, is_shader_activate e = false ->
                            respects anything (fun e => is_shader_activate e = false)
                                     only_TypeError (emit e))
    by (intros e He; apply respects_emit; [exact Hr | exact He]).
  unfold draw_continue.
  apply respects_bind; [exact Ht | apply respects_get; exact Hr |]. intros s1.
  destruct (lookup s1 geoId) as [found|].
  2:{ destruct (inherits s1 geoId) eqn:Hin; [|apply Hthrow].
      intros s. rewrite draw_inherited_run. unfold final, trace, result.
      cbn [fst snd]. split; [exact I|]. split.
      - apply Forall_forall. intros e He.
        assert (Hq : In e (unresolved_trace geoId s1))
          by (unfold unresolved_trace; now rewrite Hin).
        apply unresolved_trace_quiet in Hq. now destruct e.
      - intros e He. injection He as <-. reflexivity. }
  apply respects_bind; [exact Ht | apply Hm |]. intros _.
  destruct (canvas s1); [|apply Hthrow].
  apply respects_bind; [exact Ht | |].
  { apply respects_when; [exact Hr|].
    apply respects_bind; [exact Ht | |].
    - intros s. rewrite disable_attribs_trace. unfold final, trace, result; simpl.
      repeat split; [|discriminate].
      repeat constructor.
    - intros _. apply respects_bind; [exact Ht | now apply Hemit |]. intros _.
      apply respects_bind; [exact Ht | | intros _; apply Hm].
      destruct (Geo.indexBuf _); [now apply Hemit | apply Hthrow]. }
  intros _. apply respects_bind; [exact Ht | |].
  { destruct (Geo.indexBuf _); [now apply Hemit | apply Hthrow]. }
  intros _. apply respects_bind; [exact Ht | now apply Hemit |]. intros _.
  apply respects_when; [exact Hr|].
  apply respects_bind; [exact Ht | | intros _; apply Hm].
  eapply respects_mono; [| | |apply respects_destroyGeometry]; auto.
  - intros; exact I.
  - intros []; simpl; tauto.
Qed.

Lemma count_app p t1 t2 : count p (t1 ++ t2) = count p t1 + count p t2.
Proof. unfold count. now rewrite filter_app, length_app. Qed.

Lemma count_none p t :
  Forall (fun e => p e = false) t -> count p t = 0.
Proof.
  unfold count. induction 1 as [|e t He _ IH]; simpl; [reflexivity|].
  now rewrite He.
Qed.

Lemma deliver_no_shader_activate reaction s :
  count is_shader_activate (trace (deliver reaction s)) = 0.
Proof.
  apply count_none. destruct (respects_deliver reaction s) as (_ & H & _).
  eapply Forall_impl; [|exact H]. intros []; simpl; tauto.
Qed.

(** A draw on an identifier that resolves to no live record, in closed
    form: it ends with a [TypeError] in the state the event bus left, having
    fired [SHADER_ACTIVATE] and, if the handlers returned, done what
    [unresolved_trace] lists. *)
Lemma draw_unresolved_run reaction geoId s c :
  canvas s = Some c ->
  lookup s geoId = None ->
  drawGeometry reaction geoId s =
  (Throw TypeError, final (deliver reaction s),
   Fired_SHADER_ACTIVATE :: trace (deliver reaction s) ++
     match result (deliver reaction s) with
     | Return _ => unresolved_trace geoId (final (deliver reaction s))
     | Throw _ => []
     end).
Proof.
  intros Hc Hl. rewrite (drawGeometry_active _ _ _ _ Hc), bind_run,
    fire_SHADER_ACTIVATE_run.
  destruct (respects_deliver reaction s) as (Hs & _ & Hq).
  destruct (deliver reaction s) as [[[[]|e] s1] t1]; unfold result, final, trace in *;
    cbn [fst snd] in *.
  - assert (Hl1 : lookup s1 geoId = None).
    { destruct (lookup s1 geoId) as [g|] eqn:E; [|reflexivity].
      apply (settles_live _ _ Hs) in E. congruence. }
    rewrite (draw_continue_unresolved _ _ Hl1). reflexivity.
  - rewrite (Hq e eq_refl), app_nil_r. reflexivity.
Qed.

(** A draw on an identifier that resolves to no live record throws a
    [TypeError], after firing [SHADER_ACTIVATE]. *)
Lemma draw_unresolved reaction geoId s c :
  canvas s = Some c ->
  lookup s geoId = None ->
  result (drawGeometry reaction geoId s) = Throw TypeError.
Proof.
  intros Hc Hl. now rewrite (draw_unresolved_run _ _ _ _ Hc Hl).
Qed.

Lemma draw_trace reaction geoId s c :
  canvas s = Some c ->
  exists rest,
    trace (drawGeometry reaction geoId s) = Fired_SHADER_ACTIVATE :: rest /\
    count is_shader_activate rest = 0.
Proof.
  intros Hc. rewrite (drawGeometry_active _ _ _ _ Hc), bind_run,
    fire_SHADER_ACTIVATE_run.
  pose proof (deliver_no_shader_activate reaction s) as Hd.
  destruct (deliver reaction s) as [[[[]|e] s1] t1]; unfold trace in *; simpl in *.
  - eexists; split; [reflexivity|]. rewrite count_app, Hd. simpl.
    apply count_none. destruct (respects_draw_continue geoId s1) as (_ & H & _).
    exact H.
  - eexists; split; [reflexivity | exact Hd].
Qed.

Lemma option_string_eqb_true a b :
  option_string_eqb a b = true <-> b = Some a.
Proof.
  destruct b as [b|]; simpl; [|split; discriminate].
  rewrite String.eqb_eq. split; congruence.
Qed.

Lemma option_string_eqb_false a b :
  option_string_eqb a b = false <-> b <> Some a.
Proof.
  rewrite <- option_string_eqb_true. destruct (option_string_eqb a b); split;
    congruence.
Qed.

Lemma draw_continue_resolved geoId s found c ib :
  lookup s geoId = Some found ->
  canvas s = Some c ->
  Geo.indexBuf found = Some ib ->
  draw_continue geoId s =
  if Geo.fixed found
  then (Return tt, drawn_state geoId found s, drawn_trace geoId found ib s)
  else
    let r := (destroyGeometry (Some (Geo.with_lastUsed found (time s))) ;;
              modify (set_currentBoundGeo None)) (drawn_state geoId found s) in
    (result r, final r, drawn_trace geoId found ib s ++ trace r).
Proof.
  intros Hl Hc Hib.
  unfold draw_continue, drawn_state, drawn_trace, touched, result, final, trace.
  unfold bind, get, modify, emit, when, ret, throw.
  rewrite Hl. cbn -[destroyGeometry JsObj.set lookup option_string_eqb].
  rewrite Hc, Hib.
  destruct (option_string_eqb geoId (currentBoundGeo s)) eqn:Hb;
    destruct (Geo.fixed found) eqn:Hf;
    cbn -[destroyGeometry JsObj.set lookup option_string_eqb];
    try reflexivity.
  - destruct (destroyGeometry _ _) as [[[[]|e] s1] t1]; reflexivity.
  - destruct (destroyGeometry _ _) as [[[[]|e] s1] t1]; reflexivity.
Qed.

(** A draw that returns went through a live record with an index buffer. *)
Lemma draw_continue_returns geoId s s' t :
  draw_continue geoId s = (Return tt, s', t) ->
  exists found c ib,
    lookup s geoId = Some found /\ canvas s = Some c /\
    Geo.indexBuf found = Some ib.
Proof.
  intros H. destruct (lookup s geoId) as [found|] eqn:Hl.
  2:{ rewrite (draw_continue_unresolved _ _ Hl) in H. discriminate. }
  unfold draw_continue in H.
  unfold bind, get, modify, emit, when, ret, throw in H. rewrite Hl in H.
  cbn -[destroyGeometry JsObj.set lookup option_string_eqb] in H.
  destruct (canvas s) as [c|] eqn:Hc; [|discriminate].
  destruct (Geo.indexBuf found) as [ib|] eqn:Hib; [now exists found, c, ib|].
  exfalso.
  destruct (option_string_eqb geoId (currentBoundGeo s));
    cbn -[destroyGeometry JsObj.set lookup option_string_eqb] in H;
    discriminate.
Qed.

Lemma drawGeometry_returns reaction geoId s s' t :
  drawGeometry reaction geoId s = (Return tt, s', t) ->
  exists c s1 t1 t2,
    canvas s = Some c /\
    deliver reaction s = (Return tt, s1, t1) /\
    draw_continue geoId s1 = (Return tt, s', t2) /\
    t = Fired_SHADER_ACTIVATE :: t1 ++ t2.
Proof.
  intros H. destruct (canvas s) as [c|] eqn:Hc.
  - rewrite (drawGeometry_active _ _ _ _ Hc), bind_run, fire_SHADER_ACTIVATE_run in H.
    destruct (deliver reaction s) as [[[[]|e] s1] t1]; unfold result, final, trace in H;
      simpl in H; [|discriminate].
    destruct (draw_continue geoId s1) as [[o s2] t2] eqn:Hd. simpl in H.
    injection H as -> -> <-. now exists c, s1, t1, t2.
  - rewrite drawGeometry_no_canvas in H by assumption. discriminate.
Qed.

(** ** Dispatch: errors and notifications *)

(** C3, as the code has it: a draw made while a canvas is active on an
    identifier that resolves to no live record fails with the runtime's
    [TypeError]; the source defines no exception for an unknown geometry.
    It fails after [SHADER_ACTIVATE] has been fired and the events that came
    back have been handled, in the state they left: no record is touched,
    the bound marker is not moved, nothing is bound and nothing is drawn.
    When [geometries] holds nothing, or [null], under the identifier, the
    error is raised at once, when the missing record is dereferenced
    ([geo.lastUsed = time]): the draw has done nothing else. When the
    identifier is the name of a property every object inherits, the value
    found is dereferenced without harm, and the error comes at the first
    [geo.indexBuf]: after the eight attribute slots have been disabled and
    the export fired for that value, unless the identifier is the bound
    one. *)
Theorem draw_unknown_geometry_throws_TypeError
    (s : backend) (c : canvas_t) (reaction : list event) (geoId : string) :
  canvas s = Some c ->
  lookup s geoId = None ->
  result (drawGeometry reaction geoId s) = Throw TypeError /\
  kind_of TypeError = None /\
  final (drawGeometry reaction geoId s) = final (deliver reaction s) /\
  trace (drawGeometry reaction geoId s)
  = Fired_SHADER_ACTIVATE :: trace (deliver reaction s) ++
      match result (deliver reaction s) with
      | Return _ => unresolved_trace geoId (final (deliver reaction s))
      | Throw _ => []
      end /\
  (inherited geoId = false ->
   trace (drawGeometry reaction geoId s)
   = Fired_SHADER_ACTIVATE :: trace (deliver reaction s)) /\
  (inherits s geoId = true -> currentBoundGeo s <> Some geoId ->
   trace (drawGeometry [] geoId s)
   = Fired_SHADER_ACTIVATE :: AssignInherited_lastUsed geoId (time s)
       :: map DisableVertexAttribArray (seq 0 8)
       ++ [Fired_GEOMETRY_EXPORTED_inherited geoId]) /\
  count is_bind (trace (drawGeometry reaction geoId s)) = 0 /\
  count is_draw (trace (drawGeometry reaction geoId s)) = 0.
Proof.
  intros Hc Hl.
  assert (Hquiet : forall (p : effect -> bool),
             p Fired_SHADER_ACTIVATE = false ->
             (forall e, housekeeping e -> p e = false) ->
             (forall n t, p (AssignInherited_lastUsed n t) = false) ->
             (forall i, p (DisableVertexAttribArray i) = false) ->
             (forall n, p (Fired_GEOMETRY_EXPORTED_inherited n) = false) ->
             count p (trace (drawGeometry reaction geoId s)) = 0).
  { intros p Hp1 Hp2 Hp3 Hp4 Hp5. rewrite (draw_unresolved_run _ _ _ _ Hc Hl).
    apply count_none. unfold trace. cbn [snd]. constructor; [exact Hp1|].
    apply Forall_app. split.
    - destruct (respects_deliver reaction s) as (_ & H & _).
      eapply Forall_impl; [|exact H]. exact Hp2.
    - destruct (result (deliver reaction s)); [|constructor].
      apply Forall_forall. intros e He. apply unresolved_trace_quiet in He.
      destruct e; try contradiction; auto. }
  pose proof (draw_unresolved_run reaction geoId s c Hc Hl) as Hrun.
  split; [now rewrite Hrun|]. split; [reflexivity|].
  split; [now rewrite Hrun|]. split; [now rewrite Hrun|].
  split; [|split; [|split]].
  - intros Hin. rewrite Hrun. unfold trace at 1. cbn [snd]. f_equal.
    assert (E : forall s', unresolved_trace geoId s' = []).
    { intros s'. unfold unresolved_trace, inherits. rewrite Hin.
      now destruct (JsObj.get (geometries s') geoId). }
    destruct (result (deliver reaction s)); [rewrite E|]; apply app_nil_r.
  - intros Hin Hb. rewrite (draw_unresolved_run [] _ _ _ Hc Hl).
    cbn [deliver]. unfold ret, result, final, trace. cbn [fst snd app].
    unfold unresolved_trace, inherited_trace. rewrite Hin, Hc.
    apply option_string_eqb_false in Hb. now rewrite Hb.
  - apply Hquiet; try reflexivity. now intros [].
  - apply Hquiet; try reflexivity. now intros [].
Qed.

Lemma draw_unknown_geometry_throws_TypeError_witness :
  result (drawGeometry [SHADER_ACTIVATED] "toString" Example.with_a)
  = Throw TypeError /\
  kind_of TypeError = None /\
  final (drawGeometry [SHADER_ACTIVATED] "toString" Example.with_a)
  = final (deliver [SHADER_ACTIVATED] Example.with_a) /\
  trace (drawGeometry [SHADER_ACTIVATED] "toString" Example.with_a)
  = Fired_SHADER_ACTIVATE :: trace (deliver [SHADER_ACTIVATED] Example.with_a) ++
      match result (deliver [SHADER_ACTIVATED] Example.with_a) with
      | Return _ =>
          unresolved_trace "toString"
                           (final (deliver [SHADER_ACTIVATED] Example.with_a))
      | Throw _ => []
      end /\
  (inherited "toString" = false ->
   trace (drawGeometry [SHADER_ACTIVATED] "toString" Example.with_a)
   = Fired_SHADER_ACTIVATE :: trace (deliver [SHADER_ACTIVATED] Example.with_a)) /\
  (inherits Example.with_a "toString" = true ->
   currentBoundGeo Example.with_a <> Some "toString" ->
   trace (drawGeometry [] "toString" Example.with_a)
   = Fired_SHADER_ACTIVATE
       :: AssignInherited_lastUsed "toString" (time Example.with_a)
       :: map DisableVertexAttribArray (seq 0 8)
       ++ [Fired_GEOMETRY_EXPORTED_inherited "toString"]) /\
  count is_bind
        (trace (drawGeometry [SHADER_ACTIVATED] "toString" Example.with_a)) = 0 /\
  count is_draw
        (trace (drawGeometry [SHADER_ACTIVATED] "toString" Example.with_a)) = 0.
Proof.
  apply (draw_unknown_geometry_throws_TypeError Example.with_a Example.surface);
    reflexivity.
Defined.

(** C3, as the claim states it, fails: on a started backend that holds no
    geometry, drawing an unknown identifier throws an exception whose kind is
    not UnknownGeometry. *)
Lemma draw_unknown_geometry_is_not_UnknownGeometry :
  exists e,
    result (drawGeometry [] "c:nowhere" Example.started) = Throw e /\
    kind_of e <> Some UnknownGeometry.
Proof. exists TypeError. split; [reflexivity | discriminate]. Qed.

(** C10: a draw made while a canvas is active fires [SHADER_ACTIVATE] exactly
    once and before anything else it does, whatever the identifier; when the
    identifier resolves to no live record the draw still fires it and then
    fails. *)
Theorem draw_fires_shader_activate_once_first
    (s : backend) (c : canvas_t) (reaction : list event) (geoId : string) :
  canvas s = Some c ->
  (exists rest,
      trace (drawGeometry reaction geoId s) = Fired_SHADER_ACTIVATE :: rest) /\
  count is_shader_activate (trace (drawGeometry reaction geoId s)) = 1 /\
  (lookup s geoId = None ->
   exists e, result (drawGeometry reaction geoId s) = Throw e).
Proof.
  intros Hc. destruct (draw_trace reaction geoId s c Hc) as (rest & Ht & Hn).
  split; [now exists rest|]. split.
  - rewrite Ht. change (Fired_SHADER_ACTIVATE :: rest)
      with ([Fired_SHADER_ACTIVATE] ++ rest).
    rewrite count_app, Hn. reflexivity.
  - intros Hl. exists TypeError. eapply draw_unresolved; eassumption.
Qed.

Lemma draw_fires_shader_activate_once_first_witness :
  (exists rest,
      trace (drawGeometry [SHADER_ACTIVATED] "c:nowhere" Example.with_a)
      = Fired_SHADER_ACTIVATE :: rest) /\
  count is_shader_activate
        (trace (drawGeometry [SHADER_ACTIVATED] "c:nowhere" Example.with_a)) = 1 /\
  (lookup Example.with_a "c:nowhere" = None ->
   exists e,
     result (drawGeometry [SHADER_ACTIVATED] "c:nowhere" Example.with_a) = Throw e).
Proof.
  apply (draw_fires_shader_activate_once_first Example.with_a Example.surface).
  reflexivity.
Defined.

(** C9: the [SCENE_ACTIVATED] handler clears the active canvas as well as the
    bound marker, and until a [CANVAS_ACTIVATED] event arrives, whatever
    else is called in between, [findGeometry], [createGeometry] and
    [drawGeometry] all throw the no-canvas exception, whose kind is
    NoActiveSurface. *)
Theorem scene_activated_deactivates_canvas (s : backend) (between : list call) :
  forallb (fun c => negb (activates_canvas c)) between = true ->
  let s0 := final (onEvent SCENE_ACTIVATED s) in
  let s' := fst (run between s0) in
  result (onEvent SCENE_ACTIVATED s) = Return tt /\
  canvas s0 = None /\ currentBoundGeo s0 = None /\
  (forall ty, result (findGeometry ty s') = Throw NoCanvasActiveException) /\
  (forall g ty data,
      result (createGeometry g ty data s') = Throw NoCanvasActiveException) /\
  (forall reaction geoId,
      result (drawGeometry reaction geoId s') = Throw NoCanvasActiveException) /\
  kind_of NoCanvasActiveException = Some NoActiveSurface.
Proof.
  intros Hb s0 s'.
  assert (Hc : canvas s' = None) by (apply run_keeps_no_canvas; [exact Hb | reflexivity]).
  repeat split; try reflexivity.
  - intros ty. now rewrite findGeometry_no_canvas.
  - intros g ty data. now rewrite createGeometry_no_canvas.
  - intros reaction geoId. now rewrite drawGeometry_no_canvas.
Qed.

Lemma scene_activated_deactivates_canvas_witness :
  let s0 := final (onEvent SCENE_ACTIVATED Example.with_a) in
  let s' := fst (run [Deliver SHADER_ACTIVATED; Evict; Deliver (TIME_UPDATED 7);
                      Draw [CANVAS_ACTIVATED Example.surface] "c:a";
                      Deliver RESET] s0) in
  result (onEvent SCENE_ACTIVATED Example.with_a) = Return tt /\
  canvas s0 = None /\ currentBoundGeo s0 = None /\
  (forall ty, result (findGeometry ty s') = Throw NoCanvasActiveException) /\
  (forall g ty data,
      result (createGeometry g ty data s') = Throw NoCanvasActiveException) /\
  (forall reaction geoId,
      result (drawGeometry reaction geoId s') = Throw NoCanvasActiveException) /\
  kind_of NoCanvasActiveException = Some NoActiveSurface.
Proof.
  apply (scene_activated_deactivates_canvas Example.with_a). reflexivity.
Defined.

(** ** The fast path *)

Lemma get_In {V : Type} (o : JsObj.t V) k v :
  JsObj.get o k = Some v -> In (k, v) o.
Proof.
  induction o as [|[k0 v0] o IH]; simpl; [discriminate|].
  destruct (String.eqb_spec k0 k) as [->|Hne].
  - intros E. injection E as ->. now left.
  - intros E. right. now apply IH.
Qed.

Lemma lookup_In s k g : lookup s k = Some g -> In (k, Some g) (geometries s).
Proof.
  unfold lookup. destruct (JsObj.get (geometries s) k) as [v|] eqn:E; [|discriminate].
  intros ->. now apply get_In.
Qed.

Lemma all_fixedb_sound s : all_fixedb s = true -> all_fixed s.
Proof.
  unfold all_fixedb. rewrite forallb_forall. intros H k g Hl.
  exact (H _ (lookup_In _ _ _ Hl)).
Qed.

(** C6, as the code has it: once a draw of an identifier has returned, a
    second draw of the same identifier with nothing in between returns too and
    takes the fast path: it disables no attribute slot, exports nothing, binds
    nothing, and issues the draw call. The two draws together export exactly
    once if the identifier was not already the bound one before the first
    draw; if it was, and the first draw's [SHADER_ACTIVATE] brought no event
    back, they export nothing. *)
Theorem second_draw_takes_fast_path
    (s : backend) (reaction : list event) (geoId : string)
    (s1 : backend) (t1 : list effect) :
  all_fixed s ->
  drawGeometry reaction geoId s = (Return tt, s1, t1) ->
  exists s2 t2,
    drawGeometry [] geoId s1 = (Return tt, s2, t2) /\
    count is_disable t2 = 0 /\
    count is_export t2 = 0 /\
    count is_bind t2 = 0 /\
    count is_draw t2 = 1 /\
    (currentBoundGeo s <> Some geoId -> count is_export (t1 ++ t2) = 1) /\
    (currentBoundGeo s = Some geoId -> reaction = [] ->
     count is_export (t1 ++ t2) = 0).
Proof.
  intros Hfix H1.
  apply drawGeometry_returns in H1 as (c & sa & ta & tb & Hc & Hd & Hcont & ->).
  destruct (respects_deliver reaction s) as (Hset & Htr & _).
  rewrite Hd in Hset, Htr. unfold final, trace in Hset, Htr. simpl in Hset, Htr.
  destruct (draw_continue_returns _ _ _ _ Hcont) as (found & ca & ib & Hl & Hca & Hib).
  assert (Hf : Geo.fixed found = true).
  { apply (Hfix geoId). exact (settles_live _ _ Hset _ _ Hl). }
  rewrite (draw_continue_resolved _ _ _ _ _ Hl Hca Hib), Hf in Hcont.
  cbv iota in Hcont.
  assert (Es : s1 = drawn_state geoId found sa) by congruence.
  assert (Et : tb = drawn_trace geoId found ib sa) by congruence.
  subst s1 tb. clear Hcont.
  set (geo := Geo.with_lastUsed found (time sa)).
  assert (Hl1 : lookup (drawn_state geoId found sa) geoId = Some geo).
  { unfold drawn_state, lookup, touched.
    destruct (option_string_eqb _ _); simpl; now rewrite get_set_same. }
  assert (Hc1 : canvas (drawn_state geoId found sa) = Some ca).
  { unfold drawn_state, touched. destruct (option_string_eqb _ _); exact Hca. }
  assert (Hb1 : currentBoundGeo (drawn_state geoId found sa) = Some geoId).
  { unfold drawn_state, touched.
    destruct (option_string_eqb _ _) eqn:E; simpl; [|reflexivity].
    now apply option_string_eqb_true. }
  assert (Hb1' : option_string_eqb geoId (currentBoundGeo (drawn_state geoId found sa)) = true)
    by now apply option_string_eqb_true.
  eexists. eexists. split.
  { rewrite (drawGeometry_active _ _ _ _ Hc1), bind_run, fire_SHADER_ACTIVATE_run.
    simpl deliver. unfold ret, result, final, trace. cbn [fst snd].
    rewrite (draw_continue_resolved _ _ geo ca ib Hl1 Hc1 Hib). simpl Geo.fixed.
    rewrite Hf. cbn [fst snd]. reflexivity. }
  unfold drawn_trace at 1 2 3 4. rewrite Hb1'.
  assert (Hta : count is_export ta = 0).
  { apply count_none. eapply Forall_impl; [|exact Htr]. intros []; simpl; tauto. }
  change (Fired_SHADER_ACTIVATE :: ta ++ drawn_trace geoId found ib sa)
    with ([Fired_SHADER_ACTIVATE] ++ ta ++ drawn_trace geoId found ib sa).
  repeat split; try reflexivity.
  - intros Hnb.
    assert (Hna : option_string_eqb geoId (currentBoundGeo sa) = false).
    { apply option_string_eqb_false. destruct (settles_bound _ _ Hset) as [E|E];
        rewrite E; [discriminate | exact Hnb]. }
    rewrite !count_app, Hta. unfold drawn_trace. rewrite Hna, Hb1'. reflexivity.
  - intros Hbound ->. simpl in Hd. unfold ret in Hd.
    assert (sa = s) by congruence. subst sa.
    apply option_string_eqb_true in Hbound.
    rewrite !count_app, Hta. unfold drawn_trace. rewrite Hbound, Hb1'. reflexivity.
Qed.

Lemma second_draw_takes_fast_path_witness :
  exists s2 t2,
    drawGeometry [] "c:a" (final (drawGeometry [SHADER_ACTIVATED] "c:a" Example.with_a))
    = (Return tt, s2, t2) /\
    count is_disable t2 = 0 /\
    count is_export t2 = 0 /\
    count is_bind t2 = 0 /\
    count is_draw t2 = 1 /\
    (currentBoundGeo Example.with_a <> Some "c:a" ->
     count is_export
           (trace (drawGeometry [SHADER_ACTIVATED] "c:a" Example.with_a) ++ t2) = 1) /\
    (currentBoundGeo Example.with_a = Some "c:a" -> [SHADER_ACTIVATED] = [] ->
     count is_export
           (trace (drawGeometry [SHADER_ACTIVATED] "c:a" Example.with_a) ++ t2) = 0).
Proof.
  apply (second_draw_takes_fast_path Example.with_a [SHADER_ACTIVATED] "c:a").
  - apply all_fixedb_sound. reflexivity.
  - reflexivity.
Defined.

(** C6, as the claim states it, fails: when [a] has already been drawn, so
    that it is the bound geometry, two further consecutive draws of [a] with
    nothing in between export nothing, not once. *)
Lemma consecutive_draws_of_bound_geometry_export_nothing :
  let s := final (drawGeometry [] "c:a" Example.with_a) in
  let first := drawGeometry [] "c:a" s in
  let second := drawGeometry [] "c:a" (final first) in
  (exists g, lookup s "c:a" = Some g) /\
  result first = Return tt /\
  result second = Return tt /\
  count is_export (trace first ++ trace second) = 0.
Proof.
  vm_compute. repeat split; try reflexivity. eexists. reflexivity.
Qed.

(** ** Lifecycle events and the bound marker *)

Lemma lifecycle_event_returns ev s :
  is_lifecycle ev = true -> ev <> RESET -> result (onEvent ev s) = Return tt.
Proof. destruct ev; simpl; intros; try reflexivity; congruence. Qed.

(** A lifecycle handler that runs to its end leaves the marker unset. *)
Lemma lifecycle_event_unsets_marker ev s :
  is_lifecycle ev = true ->
  result (onEvent ev s) = Return tt ->
  currentBoundGeo (final (onEvent ev s)) = None.
Proof.
  destruct ev; simpl; intros Hl Hr; try reflexivity; try discriminate.
  unfold onEvent, result, final in *. unfold bind, get, modify in *.
  destruct (destroy_each _ s) as [[[[]|e] s1] t1]; simpl in *;
    [reflexivity | discriminate].
Qed.

(** A draw that starts with the marker unset and returns has disabled the
    eight attribute slots, exported once and bound once. *)
Lemma draw_unbound_exports s reaction geoId s' t :
  currentBoundGeo s = None ->
  drawGeometry reaction geoId s = (Return tt, s', t) ->
  count is_disable t = 8 /\ count is_export t = 1 /\ count is_bind t = 1.
Proof.
  intros Hb H.
  apply drawGeometry_returns in H as (c & sa & ta & tb & Hc & Hd & Hcont & ->).
  destruct (respects_deliver reaction s) as (Hset & Htr & _).
  rewrite Hd in Hset, Htr. unfold final, trace in Hset, Htr. simpl in Hset, Htr.
  destruct (draw_continue_returns _ _ _ _ Hcont) as (found & ca & ib & Hl & Hca & Hib).
  assert (Hna : option_string_eqb geoId (currentBoundGeo sa) = false).
  { apply option_string_eqb_false. destruct (settles_bound _ _ Hset) as [E|E];
      rewrite E; [|rewrite Hb]; discriminate. }
  assert (Hta : forall p, (forall e, housekeeping e -> p e = false) -> count p ta = 0).
  { intros p Hp. apply count_none. eapply Forall_impl; [|exact Htr]. exact Hp. }
  assert (Htb : exists rest, tb = drawn_trace geoId found ib sa ++ rest /\
                             Forall housekeeping rest).
  { rewrite (draw_continue_resolved _ _ _ _ _ Hl Hca Hib) in Hcont.
    destruct (Geo.fixed found); cbv iota zeta in Hcont.
    - exists []. rewrite app_nil_r. split; [congruence | constructor].
    - match type of Hcont with
      | (_, _, _ ++ trace (?m ?x)) = _ =>
          assert (Hm : respects frame housekeeping only_TypeError m);
          [|exists (trace (m x)); split;
            [exact (eq_sym (f_equal snd Hcont)) | apply Hm]]
      end.
      apply respects_bind; [exact frame_trans | apply respects_destroyGeometry |].
      intros _. apply respects_modify. intros s0. constructor; simpl; auto. }
  destruct Htb as (rest & -> & Hrest).
  assert (Hr : forall p, (forall e, housekeeping e -> p e = false) -> count p rest = 0).
  { intros p Hp. apply count_none. eapply Forall_impl; [|exact Hrest]. exact Hp. }
  change (Fired_SHADER_ACTIVATE :: ta ++ drawn_trace geoId found ib sa ++ rest)
    with ([Fired_SHADER_ACTIVATE] ++ ta ++ drawn_trace geoId found ib sa ++ rest).
  unfold drawn_trace. rewrite Hna. rewrite !count_app.
  rewrite !Hta, !Hr by (intros []; simpl; tauto). split; [|split]; reflexivity.
Qed.

(** After any of the six lifecycle events whose handler runs to its end, the
    next draw that returns has disabled the attribute slots, exported and
    bound: it has not taken the fast path. *)
Lemma completed_lifecycle_event_forces_export ev s reaction geoId s' t :
  is_lifecycle ev = true ->
  result (onEvent ev s) = Return tt ->
  drawGeometry reaction geoId (final (onEvent ev s)) = (Return tt, s', t) ->
  count is_disable t = 8 /\ count is_export t = 1 /\ count is_bind t = 1.
Proof.
  intros Hl Hr. apply draw_unbound_exports.
  now apply lifecycle_event_unsets_marker.
Qed.

(** C7, where the code departs from the claim: a [RESET] delivered while
    [geometries] still holds the [null] left by an eviction throws in its loop
    before the handler reaches the assignment that clears the marker. Here
    [a] and [b] are created, [b] is drawn at time 5 and [a] is evicted; after
    [RESET] the marker still names [b] and the next draw of [b] returns
    without exporting. *)
Theorem reset_after_eviction_keeps_bound_marker :
  let s := fst (run [Deliver (TIME_UPDATED 5); Draw [] "c:b"; Evict]
                    Example.with_a_b) in
  let s' := final (onEvent RESET s) in
  JsObj.get (geometries s) "c:a" = Some None /\
  currentBoundGeo s = Some "c:b" /\
  result (onEvent RESET s) = Throw TypeError /\
  currentBoundGeo s' = Some "c:b" /\
  result (drawGeometry [] "c:b" s') = Return tt /\
  count is_export (trace (drawGeometry [] "c:b" s')) = 0.
Proof. vm_compute. repeat split; reflexivity. Qed.

(** ** Eviction and the bound marker *)

(** C1, where the code departs from the claim: the evictor's test reads only
    [lastUsed] and the canvas element, never [currentBoundGeo]. Here [a] is
    drawn, so it is the bound geometry, the clock moves on to 10, and the
    evictor destroys [a]. *)
Theorem evictor_destroys_bound_geometry :
  let s := fst (run [Draw [] "c:a"; Deliver (TIME_UPDATED 10)] Example.with_a) in
  currentBoundGeo s = Some "c:a" /\
  (exists g, lookup s "c:a" = Some g) /\
  result (evictor s) = Return true /\
  lookup (final (evictor s)) "c:a" = None /\
  count is_release (trace (evictor s)) = 3.
Proof.
  vm_compute. repeat split; try reflexivity. eexists. reflexivity.
Qed.

(** ** Destroying twice *)

Lemma unbind_bound k s :
  option_string_eqb k (currentBoundGeo (unbind k s)) = false.
Proof.
  unfold unbind. destruct (option_string_eqb k (currentBoundGeo s)) eqn:E;
    [reflexivity | exact E].
Qed.

Lemma unbind_idle k s :
  option_string_eqb k (currentBoundGeo s) = false -> unbind k s = s.
Proof. unfold unbind. now intros ->. Qed.

Lemma tombstone_twice k s : tombstone k (tombstone k s) = tombstone k s.
Proof. unfold tombstone. simpl. now rewrite set_set_same. Qed.

Lemma destroyGeometry_returns g s s1 t1 :
  destroyGeometry (Some g) s = (Return tt, s1, t1) ->
  s1 = tombstone (Geo.geoId g) (unbind (Geo.geoId g) s) /\
  (getElementById s (canvasId (Geo.canvas g)) = false -> t1 = [destroy_log g]) /\
  (getElementById s (canvasId (Geo.canvas g)) = true ->
   destroyable g /\ t1 = destroy_log g :: releases g).
Proof.
  intros H. destruct (getElementById s (canvasId (Geo.canvas g))) eqn:Hdoc.
  - assert (Hd : destroyable g).
    { unfold destroyable. intros Hn Hi.
      unfold destroyGeometry in H. monad_unfold.
      destruct (option_string_eqb (Geo.geoId g) (currentBoundGeo s)); simpl in H;
        rewrite Hdoc in H;
        destruct (Geo.vertexBuf g), (Geo.normalBuf g), (Geo.indexBuf g);
        simpl in H; congruence. }
    rewrite destroyGeometry_present in H by assumption.
    split; [congruence|]. split; [discriminate|]. intros _. split; [assumption | congruence].
  - rewrite destroyGeometry_gone in H by assumption.
    split; [congruence|]. split; [intros _; congruence | discriminate].
Qed.

(** C8, where the code departs from the claim: [destroyGeometry] leaves
    [null] under the identifier instead of removing it, and is handed
    whatever [geometries] holds under an identifier without a check. Here
    the evictor destroys [a]; destroying under the same identifier again,
    which is what the [RESET] handler's loop then does, throws a
    [TypeError] instead of doing nothing, and the handler ends there,
    leaving [b] alive. *)
Theorem second_destroy_of_identifier_throws :
  let s := final (evictor Scenario.two_records) in
  result (evictor Scenario.two_records) = Return true /\
  (exists g, lookup Scenario.two_records "c:a" = Some g) /\
  JsObj.get (geometries s) "c:a" = Some None /\
  destroyGeometry (lookup s "c:a") s = (Throw TypeError, s, []) /\
  result (onEvent RESET s) = Throw TypeError /\
  (exists g, lookup (final (onEvent RESET s)) "c:b" = Some g).
Proof.
  vm_compute. repeat split; try reflexivity; eexists; reflexivity.
Qed.

(** ** The evictor's choice *)

Lemma distinct_NoDup ks : distinct ks = true -> NoDup ks.
Proof.
  induction ks as [|k ks IH]; simpl; [constructor|].
  intros H. apply andb_prop in H as [Hk Hd]. constructor; [|auto].
  intros Hin. apply negb_true_iff in Hk.
  assert (existsb (String.eqb k) ks = true)
    by (apply existsb_exists; exists k; split; [exact Hin | apply String.eqb_refl]).
  congruence.
Qed.

Lemma NoDup_distinct ks : NoDup ks -> distinct ks = true.
Proof.
  induction 1 as [|k ks Hk _ IH]; simpl; [reflexivity|].
  rewrite IH, andb_true_r. apply negb_true_iff.
  destruct (existsb (String.eqb k) ks) eqn:E; [|reflexivity].
  apply existsb_exists in E as (k' & Hin & Heq). apply String.eqb_eq in Heq.
  subst k'. contradiction.
Qed.

Lemma In_get {V : Type} (o : JsObj.t V) k v :
  NoDup (JsObj.keys o) -> In (k, v) o -> JsObj.get o k = Some v.
Proof.
  induction o as [|[k0 v0] o IH]; simpl; [tauto|].
  intros Hnd [E|Hin].
  - injection E as -> ->. now rewrite String.eqb_refl.
  - inversion Hnd as [|? ? Hk Hnd']; subst.
    destruct (String.eqb_spec k0 k) as [->|Hne]; [|auto].
    exfalso. apply Hk. unfold JsObj.keys. apply in_map_iff.
    now exists (k, v).
Qed.

Lemma set_middle {V : Type} (before after : JsObj.t V) k v v' :
  ~ In k (JsObj.keys before) ->
  JsObj.set (before ++ (k, v) :: after) k v' = before ++ (k, v') :: after.
Proof.
  induction before as [|[k0 v0] before IH]; simpl; intros Hn.
  - now rewrite String.eqb_refl.
  - destruct (String.eqb_spec k0 k) as [->|Hne]; [tauto|].
    rewrite IH; tauto.
Qed.

Lemma evictor_scan_pick s l e ev :
  (forall k v, In (k, v) l ->
               k <> "" /\ exists g, v = Some g /\ lookup s k = Some g) ->
  evictor_scan s (JsObj.keys l) (e, option_map snd ev) =
  Return (fst (pick s (records_of l) (e, ev)),
          option_map snd (snd (pick s (records_of l) (e, ev)))).
Proof.
  revert e ev. induction l as [|[k v] l IH]; intros e ev Hl; simpl; [reflexivity|].
  destruct (Hl k v (or_introl eq_refl)) as (Hk & g & -> & Hg).
  unfold evictor_visit. apply String.eqb_neq in Hk. rewrite Hk, Hg. simpl.
  unfold on_page.
  destruct ((Geo.lastUsed g <? e)%Z && getElementById s (canvasId (Geo.canvas g))).
  - apply (IH (Geo.lastUsed g) (Some (k, g))). intros; apply Hl; now right.
  - apply IH. intros; apply Hl; now right.
Qed.

Lemma pick_spec s rs e0 ev0 :
  (pick s rs (e0, ev0) = (e0, ev0) /\
   forall x, In x rs -> on_page s (snd x) = true -> (e0 <= Geo.lastUsed (snd x))%Z)
  \/
  (exists kg,
      pick s rs (e0, ev0) = (Geo.lastUsed (snd kg), Some kg) /\
      (Geo.lastUsed (snd kg) < e0)%Z /\
      first_oldest s rs kg).
Proof.
  revert e0 ev0. induction rs as [|x rs IH]; intros e0 ev0; simpl.
  - left. split; [reflexivity | tauto].
  - destruct (Geo.lastUsed (snd x) <? e0)%Z eqn:Hlt; simpl.
    + apply Z.ltb_lt in Hlt. destruct (on_page s (snd x)) eqn:Hpage.
      * right. destruct (IH (Geo.lastUsed (snd x)) (Some x)) as [[Hp Hall]|(kg & Hp & Hlt' & Hfo)].
        -- exists x. rewrite Hp. split; [reflexivity|]. split; [exact Hlt|].
           exists [], rs. simpl. repeat split; [exact Hpage | tauto | exact Hall].
        -- exists kg. rewrite Hp. split; [reflexivity|]. split; [lia|].
           destruct Hfo as (before & after & -> & Hkg & Hb & Ha).
           exists (x :: before), after. repeat split; try assumption.
           intros y [<-|Hy] Hy'; [exact Hlt' | now apply Hb].
      * destruct (IH e0 ev0) as [[Hp Hall]|(kg & Hp & Hlt' & Hfo)].
        -- left. split; [exact Hp|]. intros y [<-|Hy] Hy'; [congruence | now apply Hall].
        -- right. exists kg. split; [exact Hp|]. split; [exact Hlt'|].
           destruct Hfo as (before & after & -> & Hkg & Hb & Ha).
           exists (x :: before), after. repeat split; try assumption.
           intros y [<-|Hy] Hy'; [congruence | now apply Hb].
    + apply Z.ltb_ge in Hlt.
      destruct (IH e0 ev0) as [[Hp Hall]|(kg & Hp & Hlt' & Hfo)].
      * left. split; [exact Hp|]. intros y [<-|Hy] Hy'; [exact Hlt | now apply Hall].
      * right. exists kg. split; [exact Hp|]. split; [exact Hlt'|].
        destruct Hfo as (before & after & -> & Hkg & Hb & Ha).
        exists (x :: before), after. repeat split; try assumption.
        intros y [<-|Hy] Hy'; [lia | now apply Hb].
Qed.

Lemma no_tombstone_box l :
  forallb (fun kv : string * option Geo.t => is_some (snd kv)) l = true ->
  l = map box (records_of l).
Proof.
  induction l as [|[k [g|]] l IH]; simpl; intros H; try discriminate; [reflexivity|].
  unfold box at 1. simpl. now rewrite <- IH.
Qed.

Lemma records_of_box rs : records_of (map box rs) = rs.
Proof.
  induction rs as [|[k g] rs IH]; simpl; [reflexivity | now rewrite IH].
Qed.

Lemma records_of_app l1 l2 : records_of (l1 ++ l2) = records_of l1 ++ records_of l2.
Proof. unfold records_of. apply flat_map_app. Qed.

Lemma well_formed_facts s :
  well_formed s = true ->
  NoDup (JsObj.keys (geometries s)) /\
  forall k v, In (k, v) (geometries s) ->
    k <> "" /\
    forall g, v = Some g ->
      Geo.geoId g = k /\ Geo.fixed g = true /\
      (exists b, Geo.vertexBuf g = Some b) /\
      (exists b, Geo.normalBuf g = Some b) /\
      (exists b, Geo.indexBuf g = Some b).
Proof.
  unfold well_formed. intros H. apply andb_prop in H as [Hd Hr].
  split; [now apply distinct_NoDup|].
  intros k v Hin. rewrite forallb_forall in Hr. specialize (Hr _ Hin).
  unfold record_ok in Hr. simpl in Hr. apply andb_prop in Hr as [Hk Hv].
  split; [now apply String.eqb_neq, negb_true_iff|].
  intros g ->. repeat (apply andb_prop in Hv as [Hv ?]).
  apply String.eqb_eq in Hv.
  destruct (Geo.vertexBuf g), (Geo.normalBuf g), (Geo.indexBuf g);
    try discriminate. repeat split; eauto.
Qed.

Lemma well_formed_destroyable s k g :
  well_formed s = true -> In (k, Some g) (geometries s) -> destroyable g.
Proof.
  intros Hwf Hin. destruct (well_formed_facts s Hwf) as (_ & H).
  destruct (H _ _ Hin) as (_ & Hg).
  destruct (Hg g eq_refl) as (_ & _ & _ & _ & (b & Hb)).
  unfold destroyable. rewrite Hb. discriminate.
Qed.

(** The evictor in closed form, on a well-formed cache without [null]s. *)
Lemma evictor_run s :
  well_formed s = true -> no_tombstone s = true ->
  evictor s =
  match snd (pick s (live_records s) (time s, None)) with
  | Some kg =>
      (Return true, tombstone (fst kg) (unbind (fst kg) s),
       evict_log (snd kg) :: destroy_log (snd kg) :: releases (snd kg))
  | None => (Return false, s, [])
  end.
Proof.
  intros Hwf Hnt. destruct (well_formed_facts s Hwf) as (Hnd & Hrec).
  assert (Hscan : evictor_scan s (JsObj.keys (geometries s)) (time s, None) =
                  Return (fst (pick s (live_records s) (time s, None)),
                          option_map snd (snd (pick s (live_records s) (time s, None))))).
  { apply (evictor_scan_pick s (geometries s) (time s) None).
    intros k v Hin. destruct (Hrec k v Hin) as (Hk & _). split; [exact Hk|].
    unfold no_tombstone in Hnt. rewrite forallb_forall in Hnt.
    specialize (Hnt _ Hin). simpl in Hnt.
    destruct v as [g|]; [|discriminate]. exists g. split; [reflexivity|].
    unfold lookup. now rewrite (In_get _ _ _ Hnd Hin). }
  unfold evictor. unfold bind at 1. unfold get at 1. cbv iota beta. rewrite Hscan.
  destruct (pick_spec s (live_records s) (time s) None)
    as [[Hp _]|(kg & Hp & _ & (before & after & Hsplit & Hpage & _))];
    rewrite Hp; cbn [fst snd option_map].
  - reflexivity.
  - assert (Hin : In (fst kg, Some (snd kg)) (geometries s)).
    { rewrite (no_tombstone_box _ Hnt). fold (live_records s). rewrite Hsplit.
      apply in_map_iff. exists kg. split; [reflexivity|].
      apply in_or_app. right. now left. }
    destruct (Hrec _ _ Hin) as (_ & Hg).
    destruct (Hg _ eq_refl) as (Hid & _).
    unfold bind, emit, ret.
    rewrite destroyGeometry_present;
      [| exact Hpage | exact (well_formed_destroyable _ _ _ Hwf Hin)].
    rewrite Hid. cbn [app]. rewrite app_nil_r. reflexivity.
Qed.

Lemma geometries_unbind k s : geometries (unbind k s) = geometries s.
Proof. unfold unbind. now destruct (option_string_eqb _ _). Qed.

Lemma live_records_after_eviction s before kg after :
  well_formed s = true -> no_tombstone s = true ->
  live_records s = before ++ kg :: after ->
  live_records (tombstone (fst kg) (unbind (fst kg) s)) = before ++ after.
Proof.
  intros Hwf Hnt Hsplit. destruct (well_formed_facts s Hwf) as (Hnd & _).
  unfold live_records, tombstone. simpl geometries. rewrite geometries_unbind.
  assert (Hg : geometries s = map box before ++ box kg :: map box after).
  { rewrite (no_tombstone_box _ Hnt). fold (live_records s).
    now rewrite Hsplit, map_app. }
  rewrite Hg in *. unfold box at 2. rewrite set_middle.
  - rewrite records_of_app. simpl. now rewrite !records_of_box.
  - unfold JsObj.keys in Hnd. rewrite map_app in Hnd. simpl in Hnd.
    apply NoDup_remove_2 in Hnd. intros Hin. apply Hnd.
    apply in_or_app. now left.
Qed.

(** C5, as the code has it: on a well-formed cache that holds no [null], one
    invocation of the evictor looks at the records whose canvas is still in the
    page. If none of them was last used strictly before the current clock
    value, it changes nothing and returns false, and that is the only way it
    returns false. Otherwise it destroys exactly the first-encountered of those
    with the least [lastUsed], releasing its buffers, and returns true. *)
Theorem evictor_destroys_first_oldest (s : backend) :
  well_formed s = true ->
  no_tombstone s = true ->
  ((forall kg, In kg (live_records s) -> evictable s (snd kg) = false) ->
   evictor s = (Return false, s, [])) /\
  ((exists kg, In kg (live_records s) /\ evictable s (snd kg) = true) ->
   exists victim before after,
     live_records s = before ++ victim :: after /\
     evictable s (snd victim) = true /\
     (forall x, In x before -> on_page s (snd x) = true ->
                (Geo.lastUsed (snd victim) < Geo.lastUsed (snd x))%Z) /\
     (forall x, In x after -> on_page s (snd x) = true ->
                (Geo.lastUsed (snd victim) <= Geo.lastUsed (snd x))%Z) /\
     result (evictor s) = Return true /\
     live_records (final (evictor s)) = before ++ after /\
     trace (evictor s) =
       evict_log (snd victim) :: destroy_log (snd victim) :: releases (snd victim)) /\
  (result (evictor s) = Return false <->
   forall kg, In kg (live_records s) -> evictable s (snd kg) = false).
Proof.
  intros Hwf Hnt. rewrite (evictor_run s Hwf Hnt).
  destruct (pick_spec s (live_records s) (time s) None)
    as [[Hp Hall]|(kg & Hp & Hlt & Hfo)]; rewrite Hp; cbn [snd].
  - assert (Hnone : forall kg, In kg (live_records s) -> evictable s (snd kg) = false).
    { intros kg Hin. unfold evictable. destruct (on_page s (snd kg)) eqn:Hpage.
      - rewrite andb_true_r. apply Z.ltb_ge. now apply Hall.
      - apply andb_false_r. }
    split; [reflexivity|]. split.
    + intros (kg & Hin & He). rewrite (Hnone kg Hin) in He. discriminate.
    + split; [intros _; exact Hnone | reflexivity].
  - assert (Hev : evictable s (snd kg) = true).
    { unfold evictable. destruct Hfo as (_ & _ & _ & Hpage & _).
      rewrite Hpage, andb_true_r. now apply Z.ltb_lt. }
    assert (Hin : In kg (live_records s)).
    { destruct Hfo as (before & after & -> & _). apply in_or_app. right. now left. }
    split; [|split].
    + intros Hnone. rewrite (Hnone kg Hin) in Hev. discriminate.
    + intros _. destruct Hfo as (before & after & Hsplit & Hpage & Hb & Ha).
      exists kg, before, after. unfold result, final, trace. cbn [fst snd].
      repeat split; try assumption.
      now apply live_records_after_eviction.
    + unfold result. cbn [fst]. split; [discriminate|].
      intros Hnone. rewrite (Hnone kg Hin) in Hev. discriminate.
Qed.

(** The scenario of the specification: of two records last used at 10 and 20,
    with the clock past both, the evictor removes the one last used at 10 and
    returns true; on an empty cache it returns false. *)
Lemma evictor_scenario :
  map (fun kg => (fst kg, Geo.lastUsed (snd kg))) (live_records Scenario.two_records)
  = [("c:a", 10%Z); ("c:b", 20%Z)] /\
  result (evictor Scenario.two_records) = Return true /\
  map (fun kg => (fst kg, Geo.lastUsed (snd kg)))
      (live_records (final (evictor Scenario.two_records)))
  = [("c:b", 20%Z)] /\
  result (evictor (install 30 ["c"])) = Return false.
Proof. vm_compute. repeat split; reflexivity. Qed.

Lemma evictor_destroys_first_oldest_witness :
  let s := Scenario.two_records in
  ((forall kg, In kg (live_records s) -> evictable s (snd kg) = false) ->
   evictor s = (Return false, s, [])) /\
  ((exists kg, In kg (live_records s) /\ evictable s (snd kg) = true) ->
   exists victim before after,
     live_records s = before ++ victim :: after /\
     evictable s (snd victim) = true /\
     (forall x, In x before -> on_page s (snd x) = true ->
                (Geo.lastUsed (snd victim) < Geo.lastUsed (snd x))%Z) /\
     (forall x, In x after -> on_page s (snd x) = true ->
                (Geo.lastUsed (snd victim) <= Geo.lastUsed (snd x))%Z) /\
     result (evictor s) = Return true /\
     live_records (final (evictor s)) = before ++ after /\
     trace (evictor s) =
       evict_log (snd victim) :: destroy_log (snd victim) :: releases (snd victim)) /\
  (result (evictor s) = Return false <->
   forall kg, In kg (live_records s) -> evictable s (snd kg) = false).
Proof.
  apply (evictor_destroys_first_oldest Scenario.two_records); reflexivity.
Defined.

(** C5, as the claim states it, fails: a cache whose only record is on a
    canvas still in the page, but was last used at the current clock value, is
    neither empty nor without a valid surface, and the evictor returns false
    and destroys nothing. *)
Lemma evictor_spares_record_used_now :
  exists g,
    live_records Example.with_a = [("c:a", g)] /\
    on_page Example.with_a g = true /\
    Geo.lastUsed g = time Example.with_a /\
    evictor Example.with_a = (Return false, Example.with_a, []).
Proof. eexists. vm_compute. repeat split; reflexivity. Qed.

(** ** Creation *)

Lemma bind_inv {A B : Type} (m : M A) (k : A -> M B) s o s' T :
  bind m k s = (o, s', T) ->
  (exists a s1 t1 t2,
      m s = (Return a, s1, t1) /\ k a s1 = (o, s', t2) /\ T = t1 ++ t2) \/
  (exists e, m s = (Throw e, s', T) /\ o = Throw e).
Proof.
  unfold bind. destruct (m s) as [[[a|e] s1] t1].
  - destruct (k a s1) as [[o' s2] t2] eqn:E. intros H.
    left. exists a, s1, t1, t2. repeat split; congruence.
  - intros H. right. exists e. split; congruence.
Qed.

Lemma try_catch_inv {A : Type} (m : M A) (h : exn -> M A) s o s' T :
  try_catch m h s = (o, s', T) ->
  (exists a, m s = (Return a, s', T) /\ o = Return a) \/
  (exists e s1 t1 t2,
      m s = (Throw e, s1, t1) /\ h e s1 = (o, s', t2) /\ T = t1 ++ t2).
Proof.
  unfold try_catch. destruct (m s) as [[[a|e] s1] t1].
  - intros H. left. exists a. split; congruence.
  - destruct (h e s1) as [[o' s2] t2] eqn:E. intros H.
    right. exists e, s1, t1, t2. repeat split; congruence.
Qed.

Lemma release_and_rethrow_run {A : Type} v n tx i e s :
  @release_and_rethrow A v n tx i e s =
  (Throw e, s, released v ++ released n ++ released tx ++ released i).
Proof. destruct v, n, tx, i; reflexivity. Qed.

Lemma created_app t1 t2 : created (t1 ++ t2) = created t1 ++ created t2.
Proof. unfold created. apply flat_map_app. Qed.

Lemma created_housekeeping t : Forall housekeeping t -> created t = [].
Proof.
  induction 1 as [|e t He _ IH]; [reflexivity|].
  destruct e; simpl in *; tauto.
Qed.

Lemma In_created b t : In (BufferCreated b) t <-> In b (created t).
Proof.
  unfold created. rewrite in_flat_map. split.
  - intros H. exists (BufferCreated b). split; [exact H | now left].
  - intros (e & He & Hb). destruct e; simpl in Hb; try tauto.
    destruct Hb as [<-|[]]. exact He.
Qed.

Lemma only_handles_refl s : only_handles s s.
Proof. unfold only_handles. now destruct s. Qed.

Lemma only_handles_trans s1 s2 s3 :
  only_handles s1 s2 -> only_handles s2 s3 -> only_handles s1 s3.
Proof. unfold only_handles. intros H12 H23. rewrite H23, H12 at 1. reflexivity. Qed.

Lemma frame_set_nextHandle n s : nextHandle s <= n -> frame s (set_nextHandle n s).
Proof. intros H. constructor; simpl; auto. Qed.

Lemma call_evictor_inv n s :
  frame s (final (call_evictor n s)) /\
  Forall housekeeping (trace (call_evictor n s)) /\
  (n = 0 -> call_evictor n s = (Return tt, s, [])).
Proof.
  destruct (respects_call_evictor n s) as (H1 & H2 & _).
  split; [exact H1|]. split; [exact H2|]. intros ->. reflexivity.
Qed.

Lemma buffer_of_inv g d tg xs size s o s1 t1 :
  buffer_of g d tg xs size s = (o, s1, t1) ->
  frame s s1 /\
  (evictions (g d) = 0 -> only_handles s s1) /\
  ((exists b t0, o = Return b /\ t1 = t0 ++ [BufferCreated b] /\ Forall housekeeping t0) \/
   (exists e, o = Throw e /\ Forall housekeeping t1)).
Proof.
  unfold buffer_of. destruct xs as [l|].
  2:{ unfold throw. intros H. injection H as <- <- <-.
      split; [apply frame_refl|]. split; [intros _; apply only_handles_refl|].
      right. eexists. split; [reflexivity | constructor]. }
  unfold createArrayBuffer, allocate. intros H.
  destruct (call_evictor_inv (evictions (g d)) s) as (Hf & Ht & H0).
  apply bind_inv in H as [([] & s0 & t0 & t2 & Hm & Hk & ->)|(e & Hm & ->)].
  - rewrite Hm in Hf, Ht. unfold final, trace in Hf, Ht. simpl in Hf, Ht.
    assert (Hs0 : evictions (g d) = 0 -> s0 = s /\ t0 = [])
      by (intros E; rewrite (H0 E) in Hm; split; congruence).
    destruct (granted (g d)).
    + unfold new_ArrayBuffer, bind, get, modify, emit, ret in Hk. simpl in Hk.
      injection Hk as <- <- <-. split; [|split].
      * eapply frame_trans; [exact Hf|]. apply frame_set_nextHandle. lia.
      * intros E. destruct (Hs0 E) as (-> & _). reflexivity.
      * left. eexists. exists t0. repeat split; assumption.
    + unfold throw in Hk. injection Hk as <- <- <-. split; [exact Hf|]. split.
      * intros E. destruct (Hs0 E) as (-> & _). apply only_handles_refl.
      * right. eexists. split; [reflexivity|]. now rewrite app_nil_r.
  - rewrite Hm in Hf, Ht. unfold final, trace in Hf, Ht. simpl in Hf, Ht.
    split; [exact Hf|]. split.
    + intros E. rewrite (H0 E) in Hm. discriminate.
    + right. exists e. split; [reflexivity | exact Ht].
Qed.

(** A guarded statement of the [try] block that allocates a buffer: it either
    returns the new buffer, or throws after releasing the buffers assigned so
    far. *)
Lemma guarded_buffer_of_inv g d tg xs size v n tx i s o s1 t1 :
  try_catch (buffer_of g d tg xs size) (release_and_rethrow v n tx i) s = (o, s1, t1) ->
  frame s s1 /\
  (evictions (g d) = 0 -> only_handles s s1) /\
  ((exists b t0, o = Return b /\ t1 = t0 ++ [BufferCreated b] /\ created t0 = []) \/
   (exists e t0, o = Throw e /\ created t0 = [] /\
                 t1 = t0 ++ released v ++ released n ++ released tx ++ released i)).
Proof.
  intros H. apply try_catch_inv in H as [(b & Hm & ->)|(e & s0 & t0 & t2 & Hm & Hh & ->)].
  - apply buffer_of_inv in Hm as (Hf & Ho & [(b' & t0 & E & -> & Ht)|(e & E & _)]);
      [|discriminate].
    injection E as <-.
    split; [exact Hf|]. split; [exact Ho|]. left. exists b, t0.
    repeat split. now apply created_housekeeping.
  - rewrite release_and_rethrow_run in Hh. injection Hh as <- <- <-.
    apply buffer_of_inv in Hm as (Hf & Ho & [(b' & t0' & E & _)|(e' & E & Ht)]);
      [discriminate|].
    split; [exact Hf|]. split; [exact Ho|]. right. exists e, t0.
    repeat split. now apply created_housekeeping.
Qed.

Lemma guarded_uv_inv g uvd v n tx i s o s1 t1 :
  try_catch
    (match uvd with
     | Some uv =>
         b <- buffer_of g "geometry texture buffer" ARRAY_BUFFER (Some uv) 2 ;;
         ret (Some b)
     | None => ret None
     end)
    (release_and_rethrow v n tx i) s = (o, s1, t1) ->
  frame s s1 /\
  (evictions (g "geometry texture buffer") = 0 -> only_handles s s1) /\
  ((exists ob t0, o = Return ob /\ t1 = t0 ++ made ob /\ created t0 = []) \/
   (exists e t0, o = Throw e /\ created t0 = [] /\
                 t1 = t0 ++ released v ++ released n ++ released tx ++ released i)).
Proof.
  intros H. destruct uvd as [uv|].
  - apply try_catch_inv in H as [(ob & Hm & ->)|(e & s0 & t0 & t2 & Hm & Hh & ->)].
    + apply bind_inv in Hm as [(b & s0 & t0 & t2 & Hm & Hk & ->)|(e & _ & E)];
        [|discriminate].
      unfold ret in Hk. injection Hk as <- <- <-.
      apply buffer_of_inv in Hm as (Hf & Ho & [(b' & t0' & E & -> & Ht)|(e & E & _)]);
        [|discriminate].
      injection E as <-.
      split; [exact Hf|]. split; [exact Ho|]. left. exists (Some b), t0'.
      rewrite app_nil_r. repeat split. now apply created_housekeeping.
    + rewrite release_and_rethrow_run in Hh. injection Hh as <- <- <-.
      apply bind_inv in Hm as [(b & s1 & t1' & t2 & _ & Hk & _)|(e' & Hm & _)];
        [discriminate|].
      apply buffer_of_inv in Hm as (Hf & Ho & [(b' & t0' & E & _)|(e'' & E & Ht)]);
        [discriminate|].
      split; [exact Hf|]. split; [exact Ho|]. right. exists e, t0.
      repeat split. now apply created_housekeeping.
  - unfold try_catch, ret in H. injection H as <- <- <-.
    split; [apply frame_refl|]. split; [intros _; apply only_handles_refl|].
    left. exists None, []. repeat split.
Qed.

Lemma guarded_primitive_inv p v n tx i s o s1 t1 :
  try_catch
    (match p with
     | Some p' => getPrimitiveType p'
     | None => throw InvalidGeometryConfigException
     end)
    (release_and_rethrow v n tx i) s = (o, s1, t1) ->
  s1 = s /\
  ((exists prim, o = Return prim /\ t1 = []) \/
   (o = Throw InvalidGeometryConfigException /\
    t1 = released v ++ released n ++ released tx ++ released i)).
Proof.
  assert (Hp : forall q, (exists prim, getPrimitiveType q s = (Return prim, s, [])) \/
                         getPrimitiveType q s = (Throw InvalidGeometryConfigException, s, [])).
  { intros q. unfold getPrimitiveType.
    repeat match goal with
           | |- context [if ?b then _ else _] => destruct b; [left; eexists; reflexivity|]
           end.
    right. reflexivity. }
  intros H.
  assert (Hm : (exists prim, match p with
                             | Some p' => getPrimitiveType p'
                             | None => throw InvalidGeometryConfigException
                             end s = (Return prim, s, [])) \/
               match p with
               | Some p' => getPrimitiveType p'
               | None => throw InvalidGeometryConfigException
               end s = (Throw InvalidGeometryConfigException, s, []))
    by (destruct p as [q|]; [apply Hp | right; reflexivity]).
  unfold try_catch in H. destruct Hm as [(prim & Hm)|Hm]; rewrite Hm in H.
  - injection H as <- <- <-. split; [reflexivity|]. left. now exists prim.
  - rewrite release_and_rethrow_run in H. injection H as <- <- <-.
    split; [reflexivity|]. right. split; reflexivity.
Qed.

Lemma created_cons e t :
  created (e :: t) =
  match e with BufferCreated b => [b] | _ => [] end ++ created t.
Proof. reflexivity. Qed.

Lemma created_nil : created [] = [].
Proof. reflexivity. Qed.

Ltac shape_done body bs :=
  exists body, bs; split;
  [ repeat first [ rewrite <- app_assoc
                 | progress cbn [app made released map] ];
    reflexivity
  | repeat first
      [ rewrite created_app
      | rewrite created_cons
      | rewrite created_nil
      | match goal with
        | H : created _ = [] |- _ => rewrite H
        end ];
    cbn [app]; reflexivity ].

(** A [createGeometry] that throws: its trace is a body followed by the
    release of exactly the buffers the body created, and the state has been
    touched only by the evictor and the device's buffer counter. *)
Lemma createGeometry_throws_shape g ty data s e s' T :
  createGeometry g ty data s = (Throw e, s', T) ->
  frame s s' /\
  ((forall d, evictions (g d) = 0) -> only_handles s s') /\
  exists body bs, T = body ++ map BufferDestroyed bs /\ created body = bs.
Proof.
  unfold createGeometry. intros H.
  apply bind_inv in H as [([] & s0 & t0 & t2 & Hm & H & ->)|(e0 & Hm & _)];
    [|discriminate].
  unfold emit in Hm. injection Hm as <- <-.
  apply bind_inv in H as [(sg & s0 & t0 & t2' & Hm & H & ->)|(e0 & Hm & _)];
    [|discriminate].
  unfold get in Hm. injection Hm as <- <- <-.
  destruct (canvas s) as [c|].
  2:{ unfold throw in H. injection H as _ <- <-.
      split; [apply frame_refl|]. split; [intros _; apply only_handles_refl|].
      eexists [_], []. split; reflexivity. }
  destruct (negb (truthy_string (Data.primitive data))).
  { unfold throw in H. injection H as _ <- <-.
    split; [apply frame_refl|]. split; [intros _; apply only_handles_refl|].
    eexists [_], []. split; reflexivity. }
  (* vertex buffer *)
  apply bind_inv in H as [(vb & s1 & t1 & T1 & Hm & H & ->)|(e1 & Hm & _)].
  2:{ apply guarded_buffer_of_inv in Hm
        as (Hf & Ho & [(? & ? & E & _)|(e' & t0 & E & Hc & ->)]); [discriminate|].
      split; [exact Hf|]. split; [intros Hg; apply Ho, Hg|].
      eexists (_ :: t0), []. split; [reflexivity|]. simpl. exact Hc. }
  apply guarded_buffer_of_inv in Hm
    as (Hf1 & Ho1 & [(? & t1' & E & -> & Hc1)|(? & ? & E & _)]); [|discriminate].
  injection E as <-.
  (* normal buffer *)
  apply bind_inv in H as [(nb & s2 & t2 & T2 & Hm & H & ->)|(e2 & Hm & _)].
  2:{ apply guarded_buffer_of_inv in Hm
        as (Hf & Ho & [(? & ? & E & _)|(e' & t0 & E & Hc & ->)]); [discriminate|].
      split; [eapply frame_trans; eassumption|].
      split; [intros Hg; eapply only_handles_trans; [apply Ho1 | apply Ho]; apply Hg|].
      shape_done (LogDebug ("Creating geometry: '" ++ ty ++ "'")%string
                    :: t1' ++ [BufferCreated vb] ++ t0) [vb]. }
  apply guarded_buffer_of_inv in Hm
    as (Hf2 & Ho2 & [(? & t2' & E & -> & Hc2)|(? & ? & E & _)]); [|discriminate].
  injection E as <-.
  (* texture coordinate buffer *)
  apply bind_inv in H as [(tb & s3 & t3 & T3 & Hm & H & ->)|(e3 & Hm & _)].
  2:{ apply guarded_uv_inv in Hm
        as (Hf & Ho & [(? & ? & E & _)|(e' & t0 & E & Hc & ->)]); [discriminate|].
      split; [eapply frame_trans; [eapply frame_trans|]; eassumption|].
      split; [intros Hg; eapply only_handles_trans;
              [eapply only_handles_trans; [apply Ho1 | apply Ho2] | apply Ho];
              apply Hg|].
      shape_done (LogDebug ("Creating geometry: '" ++ ty ++ "'")%string
                    :: t1' ++ [BufferCreated vb] ++ t2' ++ [BufferCreated nb] ++ t0)
                 [vb; nb]. }
  apply guarded_uv_inv in Hm
    as (Hf3 & Ho3 & [(? & t3' & E & -> & Hc3)|(? & ? & E & _)]); [|discriminate].
  injection E as <-.
  assert (Hf123 : frame s s3)
    by (eapply frame_trans; [eapply frame_trans|]; eassumption).
  assert (Ho123 : (forall d, evictions (g d) = 0) -> only_handles s s3).
  { intros Hg. eapply only_handles_trans;
      [eapply only_handles_trans; [apply Ho1 | apply Ho2] | apply Ho3]; apply Hg. }
  (* index buffer *)
  apply bind_inv in H as [(ib & s4 & t4 & T4 & Hm & H & ->)|(e4 & Hm & _)].
  2:{ apply guarded_buffer_of_inv in Hm
        as (Hf & Ho & [(? & ? & E & _)|(e' & t0 & E & Hc & ->)]); [discriminate|].
      split; [eapply frame_trans; eassumption|].
      split; [intros Hg; eapply only_handles_trans; [apply Ho123 | apply Ho]; apply Hg|].
      destruct tb as [tb|].
      - shape_done (LogDebug ("Creating geometry: '" ++ ty ++ "'")%string
                      :: t1' ++ [BufferCreated vb] ++ t2' ++ [BufferCreated nb]
                         ++ t3' ++ [BufferCreated tb] ++ t0)
                   [vb; nb; tb].
      - shape_done (LogDebug ("Creating geometry: '" ++ ty ++ "'")%string
                      :: t1' ++ [BufferCreated vb] ++ t2' ++ [BufferCreated nb]
                         ++ t3' ++ t0)
                   [vb; nb]. }
  apply guarded_buffer_of_inv in Hm
    as (Hf4 & Ho4 & [(? & t4' & E & -> & Hc4)|(? & ? & E & _)]); [|discriminate].
  injection E as <-.
  (* primitive type *)
  apply bind_inv in H as [(prim & s5 & t5 & T5 & Hm & H & ->)|(e5 & Hm & _)].
  2:{ apply guarded_primitive_inv in Hm as (-> & [(? & E & _)|(_ & ->)]);
        [discriminate|].
      split; [eapply frame_trans; eassumption|].
      split; [intros Hg; eapply only_handles_trans; [apply Ho123 | apply Ho4]; apply Hg|].
      destruct tb as [tb|].
      - shape_done (LogDebug ("Creating geometry: '" ++ ty ++ "'")%string
                      :: t1' ++ [BufferCreated vb] ++ t2' ++ [BufferCreated nb]
                         ++ t3' ++ [BufferCreated tb] ++ t4' ++ [BufferCreated ib])
                   [vb; nb; tb; ib].
      - shape_done (LogDebug ("Creating geometry: '" ++ ty ++ "'")%string
                      :: t1' ++ [BufferCreated vb] ++ t2' ++ [BufferCreated nb]
                         ++ t3' ++ t4' ++ [BufferCreated ib])
                   [vb; nb; ib]. }
  (* the record is stored: no exception can come from here *)
  exfalso. unfold bind, get, modify, ret in H. simpl in H. discriminate.
Qed.

Lemma shape_released body bs :
  created body = bs -> every_creation_released (body ++ map BufferDestroyed bs).
Proof.
  intros Hc b Hin. apply in_app_or in Hin as [Hin|Hin].
  - pose proof Hin as Hb. apply In_created in Hb. rewrite Hc in Hb.
    apply in_split in Hin as (l1 & l2 & ->).
    exists l1, (l2 ++ map BufferDestroyed bs). split.
    + now rewrite <- app_assoc.
    + apply in_or_app. right. now apply in_map.
  - apply in_map_iff in Hin as (x & Hx & _). discriminate.
Qed.

(** C4, as the code has it: when [createGeometry] throws, whatever the reason,
    every buffer created during the call has been released before the
    exception leaves, and no record has been stored: a record that is live
    afterwards was live, and the same, before. The evictor calls the memory
    module makes during the call may have destroyed records; when it makes
    none, [geometries] and the bound marker are exactly what they were. *)
Theorem failed_create_releases_its_buffers
    (g : gate) (ty : string) (data : Data.t)
    (s : backend) (e : exn) (s' : backend) (t : list effect) :
  createGeometry g ty data s = (Throw e, s', t) ->
  every_creation_released t /\
  (forall k r, lookup s' k = Some r -> lookup s k = Some r) /\
  ((forall d, evictions (g d) = 0) ->
   geometries s' = geometries s /\ currentBoundGeo s' = currentBoundGeo s).
Proof.
  intros H. apply createGeometry_throws_shape in H
    as (Hf & Ho & body & bs & -> & Hc).
  split; [now apply shape_released|]. split; [exact (frame_live _ _ Hf)|].
  intros Hg. specialize (Ho Hg). unfold only_handles in Ho. rewrite Ho.
  split; reflexivity.
Qed.

Lemma failed_create_releases_its_buffers_witness :
  let r := createGeometry plentiful "h" Example.hexagon Example.with_a in
  result r = Throw InvalidGeometryConfigException /\
  every_creation_released (trace r) /\
  (forall k rec, lookup (final r) k = Some rec -> lookup Example.with_a k = Some rec) /\
  ((forall d, evictions (plentiful d) = 0) ->
   geometries (final r) = geometries Example.with_a /\
   currentBoundGeo (final r) = currentBoundGeo Example.with_a).
Proof.
  split; [reflexivity|].
  apply (failed_create_releases_its_buffers plentiful "h" Example.hexagon
           Example.with_a InvalidGeometryConfigException).
  reflexivity.
Defined.

(** The scenario of the specification: creating a "hexagon" fails with the
    exception for an invalid primitive, after allocating and releasing three
    buffers, and the number of live records is unchanged. *)
Lemma create_hexagon_scenario :
  let r := createGeometry plentiful "h" Example.hexagon Example.with_a in
  result r = Throw InvalidGeometryConfigException /\
  kind_of InvalidGeometryConfigException = Some InvalidPrimitiveKind /\
  List.length (created (trace r)) = 3 /\
  count is_release (trace r) = 3 /\
  List.length (live_records (final r)) = List.length (live_records Example.with_a).
Proof. vm_compute. repeat split; reflexivity. Qed.

(** C4, as the claim states it, fails: with records [a] and [b] live, a
    [createGeometry] whose first allocation makes the memory module call the
    evictor and whose second allocation is refused throws the out-of-memory
    exception, and the live records are no longer what they were: [a] is
    gone. *)
Lemma failed_create_after_eviction_changes_cache :
  let r := createGeometry pressured "x" Example.triangle Scenario.two_records in
  result r = Throw OutOfMemoryException /\
  kind_of OutOfMemoryException = Some AllocationFailure /\
  map fst (live_records Scenario.two_records) = ["c:a"; "c:b"] /\
  map fst (live_records (final r)) = ["c:b"].
Proof. vm_compute. repeat split; reflexivity. Qed.

(** ** Creating twice *)

Lemma getPrimitiveType_supported p :
  supported p = true ->
  exists prim, forall s, getPrimitiveType p s = (Return prim, s, []).
Proof.
  unfold supported, getPrimitiveType. cbn [existsb].
  repeat match goal with
         | |- context [String.eqb p ?lit] =>
             destruct (String.eqb p lit); [intros _; eexists; reflexivity|]
         end.
  discriminate.
Qed.

Lemma supported_truthy p : supported p = true -> truthy_string (Some p) = true.
Proof.
  unfold truthy_string. destruct (String.eqb_spec p "") as [->|]; [|reflexivity].
  discriminate.
Qed.

(** [createGeometry] in closed form, for valid data and no memory pressure. *)
Lemma createGeometry_relaxed g ty data s c :
  canvas s = Some c ->
  relaxed g ->
  valid_data data = true ->
  exists geo n t,
    createGeometry g ty data s =
    (Return (make_geoId c ty),
     set_geometries (JsObj.set (geometries s) (make_geoId c ty) (Some geo))
                    (set_nextHandle n s),
     t) /\
    Geo.geoId geo = make_geoId c ty /\
    Geo.lastUsed geo = time s /\
    Geo.fixed geo = true /\
    created t = buffers_of geo /\
    count is_release t = 0 /\
    Forall (fun b => nextHandle s <= handle b < n) (buffers_of geo).
Proof.
  intros Hc Hg Hv. unfold valid_data in Hv.
  destruct data as [prim pos nor uv ind]. simpl in Hv.
  destruct prim as [p|]; [|discriminate].
  destruct pos as [pos|]; [|now rewrite andb_false_r in Hv].
  destruct nor as [nor|]; [|now rewrite andb_false_r in Hv].
  destruct ind as [ind|]; [|now rewrite andb_false_r in Hv].
  rewrite !andb_true_r in Hv.
  destruct (getPrimitiveType_supported p Hv) as (pr & Hpr).
  pose proof (supported_truthy p Hv) as Htr.
  unfold createGeometry, buffer_of, createArrayBuffer, allocate, new_ArrayBuffer.
  unfold bind, get, emit, modify, ret, try_catch.
  cbn [Data.primitive Data.positions Data.normals Data.uv Data.indices].
  rewrite Hc, Htr. cbn [negb]. rewrite !Hg. cbn [evictions granted call_evictor].
  unfold ret. cbn -[make_geoId JsObj.set getPrimitiveType String.append].
  destruct uv as [uv|];
    cbn -[make_geoId JsObj.set getPrimitiveType String.append];
    rewrite ?Hg; cbn -[make_geoId JsObj.set getPrimitiveType String.append];
    rewrite Hpr; cbn -[make_geoId JsObj.set getPrimitiveType String.append].
  - eexists. exists (S (S (S (S (nextHandle s))))). eexists.
    split; [reflexivity|]. cbn. repeat split; try reflexivity.
    repeat constructor; simpl; lia.
  - eexists. exists (S (S (S (nextHandle s)))). eexists.
    split; [reflexivity|]. cbn. repeat split; try reflexivity.
    repeat constructor; simpl; lia.
Qed.

Lemma records_of_keys o kg :
  In kg (records_of o) -> In (fst kg) (JsObj.keys o).
Proof.
  unfold records_of, JsObj.keys. rewrite in_flat_map.
  intros ([k [g|]] & Hin & Hkg); simpl in Hkg; [|tauto].
  destruct Hkg as [<-|[]]. simpl. apply in_map_iff. now exists (k, Some g).
Qed.

Lemma filter_none {A : Type} (f : A -> bool) (l : list A) :
  (forall x, In x l -> f x = false) -> filter f l = [].
Proof.
  induction l as [|a l IH]; simpl; intros H; [reflexivity|].
  rewrite (H a (or_introl eq_refl)). apply IH. intros x Hx. apply H. now right.
Qed.

(** Under distinct property names, a name that holds a record names exactly
    one live record. *)
Lemma filter_key_unique o k g :
  NoDup (JsObj.keys o) ->
  JsObj.get o k = Some (Some g) ->
  filter (fun kg => String.eqb (fst kg) k) (records_of o) = [(k, g)].
Proof.
  induction o as [|[k0 v0] o IH]; simpl; [discriminate|].
  intros Hnd Hget. inversion Hnd as [|? ? Hk0 Hnd']; subst.
  destruct (String.eqb_spec k0 k) as [->|Hne].
  - injection Hget as ->. simpl. rewrite String.eqb_refl. f_equal.
    apply filter_none. intros kg Hin. apply String.eqb_neq. intros Heq.
    apply records_of_keys in Hin. now rewrite Heq in Hin.
  - destruct v0 as [g0|]; simpl.
    + apply String.eqb_neq in Hne. rewrite Hne. now apply IH.
    + now apply IH.
Qed.

(** C2, as the code has it: with valid data and no memory pressure, calling
    [createGeometry] a second time for the same type on the same canvas
    returns the same identifier and stores the new record in place of the
    first, so exactly one live record exists for the pair, holding the
    buffers the second call created. Neither call releases any buffer: the
    first record's buffers, none of which the new record shares, stay
    allocated. *)
Theorem second_create_replaces_record
    (g1 g2 : gate) (ty : string) (d1 d2 : Data.t) (s : backend) (c : canvas_t) :
  canvas s = Some c ->
  well_formed s = true ->
  relaxed g1 -> relaxed g2 ->
  valid_data d1 = true -> valid_data d2 = true ->
  exists id first second s1 s2 t1 t2,
    createGeometry g1 ty d1 s = (Return id, s1, t1) /\
    createGeometry g2 ty d2 s1 = (Return id, s2, t2) /\
    lookup s1 id = Some first /\
    lookup s2 id = Some second /\
    filter (fun kg => String.eqb (fst kg) id) (live_records s2) = [(id, second)] /\
    created t1 = buffers_of first /\
    created t2 = buffers_of second /\
    (forall b, In b (buffers_of first) -> ~ In b (buffers_of second)) /\
    count is_release (t1 ++ t2) = 0.
Proof.
  intros Hc Hwf Hg1 Hg2 Hv1 Hv2.
  destruct (well_formed_facts s Hwf) as (Hnd & _).
  destruct (createGeometry_relaxed g1 ty d1 s c Hc Hg1 Hv1)
    as (first & n1 & t1 & H1 & _ & _ & _ & Hb1 & Hr1 & Hh1).
  set (id := make_geoId c ty) in *.
  set (s1 := set_geometries (JsObj.set (geometries s) id (Some first))
                            (set_nextHandle n1 s)) in *.
  destruct (createGeometry_relaxed g2 ty d2 s1 c Hc Hg2 Hv2)
    as (second & n2 & t2 & H2 & _ & _ & _ & Hb2 & Hr2 & Hh2).
  fold id in H2.
  exists id, first, second, s1. eexists. exists t1, t2.
  split; [exact H1|]. split; [exact H2|].
  repeat split.
  - unfold lookup, s1. simpl. now rewrite get_set_same.
  - unfold lookup. cbn [geometries set_geometries]. now rewrite get_set_same.
  - unfold live_records. cbn [geometries set_geometries].
    apply filter_key_unique; [|apply get_set_same].
    apply keys_set_NoDup. unfold s1. simpl. now apply keys_set_NoDup.
  - exact Hb1.
  - exact Hb2.
  - intros b Hin1 Hin2. rewrite Forall_forall in Hh1, Hh2.
    specialize (Hh1 b Hin1). specialize (Hh2 b Hin2). unfold s1 in Hh2.
    simpl in Hh2. lia.
  - rewrite count_app, Hr1, Hr2. reflexivity.
Qed.

Lemma second_create_replaces_record_witness :
  exists id first second s1 s2 t1 t2,
    createGeometry plentiful "a" Example.triangle Example.started = (Return id, s1, t1) /\
    createGeometry plentiful "a" Example.triangle s1 = (Return id, s2, t2) /\
    lookup s1 id = Some first /\
    lookup s2 id = Some second /\
    filter (fun kg => String.eqb (fst kg) id) (live_records s2) = [(id, second)] /\
    created t1 = buffers_of first /\
    created t2 = buffers_of second /\
    (forall b, In b (buffers_of first) -> ~ In b (buffers_of second)) /\
    count is_release (t1 ++ t2) = 0.
Proof.
  destruct (second_create_replaces_record plentiful plentiful "a"
              Example.triangle Example.triangle Example.started Example.surface)
    as (id & first & second & s1 & s2 & t1 & t2 & H);
    try reflexivity; try (intros d; reflexivity).
  exists id, first, second, s1, s2, t1, t2. exact H.
Defined.

(** C2, as the claim states it, fails: after two calls for the same type the
    three buffers the first call created have not been released: the two
    calls release nothing at all. *)
Lemma second_create_leaks_first_buffers :
  let first := createGeometry plentiful "a" Example.triangle Example.started in
  let second := createGeometry plentiful "a" Example.triangle (final first) in
  result first = Return "c:a" /\
  result second = Return "c:a" /\
  map handle (created (trace first)) = [0; 1; 2] /\
  map handle (created (trace second)) = [3; 4; 5] /\
  count is_release (trace first ++ trace second) = 0.
Proof. vm_compute. repeat split; reflexivity. Qed.

(** ** Well-formedness is an invariant

    Every function of the backend takes a well-formed cache to a well-formed
    cache, whatever it returns or throws; so every state reached from
    [install] by any sequence of calls is well-formed. *)

Lemma forallb_set {V : Type} (f : string * V -> bool) (o : JsObj.t V) k v :
  forallb f o = true -> f (k, v) = true -> forallb f (JsObj.set o k v) = true.
Proof.
  intros Ho Hv. induction o as [|[k0 v0] o IH]; simpl in *.
  - now rewrite Hv.
  - apply andb_prop in Ho as [H0 Ho].
    destruct (String.eqb_spec k0 k) as [->|Hne]; simpl.
    + now rewrite Hv, Ho.
    + now rewrite H0, IH.
Qed.

Lemma well_formed_set s k v :
  well_formed s = true ->
  record_ok (k, v) = true ->
  well_formed (set_geometries (JsObj.set (geometries s) k v) s) = true.
Proof.
  unfold well_formed. simpl. intros H Hv. apply andb_prop in H as [Hd Hr].
  apply andb_true_intro. split.
  - apply NoDup_distinct, keys_set_NoDup, distinct_NoDup, Hd.
  - now apply forallb_set.
Qed.

Lemma well_formed_same_geometries s s' :
  geometries s' = geometries s -> well_formed s = true -> well_formed s' = true.
Proof. unfold well_formed. now intros ->. Qed.

Lemma record_ok_lookup s k g :
  well_formed s = true -> lookup s k = Some g -> record_ok (k, Some g) = true.
Proof.
  unfold well_formed. intros H Hl. apply andb_prop in H as [_ Hr].
  rewrite forallb_forall in Hr. exact (Hr _ (lookup_In _ _ _ Hl)).
Qed.

Lemma record_ok_facts k g :
  record_ok (k, Some g) = true ->
  k <> "" /\ Geo.geoId g = k /\ Geo.fixed g = true /\
  exists ib, Geo.indexBuf g = Some ib.
Proof.
  unfold record_ok. simpl. intros H.
  apply andb_prop in H as [Hk H].
  apply andb_prop in H as [H Hi].
  apply andb_prop in H as [H _].
  apply andb_prop in H as [H _].
  apply andb_prop in H as [Hid Hf].
  apply negb_true_iff, String.eqb_neq in Hk. apply String.eqb_eq in Hid.
  destruct (Geo.indexBuf g) as [ib|]; [|discriminate].
  repeat split; try assumption. now exists ib.
Qed.

Lemma well_formed_unbind k s : well_formed s = true -> well_formed (unbind k s) = true.
Proof. apply well_formed_same_geometries, geometries_unbind. Qed.

Lemma well_formed_tombstone s k g :
  well_formed s = true ->
  lookup s k = Some g ->
  well_formed (tombstone (Geo.geoId g) (unbind (Geo.geoId g) s)) = true.
Proof.
  intros Hwf Hl. pose proof (record_ok_lookup _ _ _ Hwf Hl) as Hok.
  destruct (record_ok_facts _ _ Hok) as (Hk & -> & _).
  unfold tombstone. apply well_formed_set; [now apply well_formed_unbind|].
  unfold record_ok. simpl. rewrite andb_true_r.
  now apply negb_true_iff, String.eqb_neq.
Qed.

Lemma destroyGeometry_final_cases g s :
  final (destroyGeometry (Some g) s) = unbind (Geo.geoId g) s \/
  final (destroyGeometry (Some g) s)
  = tombstone (Geo.geoId g) (unbind (Geo.geoId g) s).
Proof.
  destruct (getElementById s (canvasId (Geo.canvas g))) eqn:Hdoc.
  - unfold destroyGeometry, unbind, tombstone, final. monad_unfold.
    destruct (option_string_eqb (Geo.geoId g) (currentBoundGeo s)); simpl;
      rewrite Hdoc;
      destruct (Geo.vertexBuf g), (Geo.normalBuf g), (Geo.indexBuf g),
               (Geo.texCoordBuf g); simpl; auto.
  - right. now rewrite destroyGeometry_gone.
Qed.

Lemma destroy_found_well_formed s k g :
  well_formed s = true ->
  lookup s k = Some g ->
  well_formed (final (destroyGeometry (Some g) s)) = true.
Proof.
  intros Hwf Hl. destruct (destroyGeometry_final_cases g s) as [-> | ->].
  - now apply well_formed_unbind.
  - eapply well_formed_tombstone; eassumption.
Qed.

Lemma destroy_lookup_well_formed s k :
  well_formed s = true ->
  well_formed (final (destroyGeometry (lookup s k) s)) = true.
Proof.
  intros Hwf. destruct (lookup s k) as [g|] eqn:Hl.
  - eapply destroy_found_well_formed; eassumption.
  - exact Hwf.
Qed.

Lemma destroy_each_well_formed keys s :
  well_formed s = true -> well_formed (final (destroy_each keys s)) = true.
Proof.
  revert s. induction keys as [|k keys IH]; intros s Hwf; [exact Hwf|].
  simpl. unfold bind at 1. unfold get. cbv iota beta.
  pose proof (destroy_lookup_well_formed s k Hwf) as H1.
  unfold bind. destruct (destroyGeometry (lookup s k) s) as [[[[]|e] s1] t1];
    unfold final in *; simpl in *.
  - specialize (IH s1 H1). destruct (destroy_each keys s1) as [[o s2] t2].
    exact IH.
  - exact H1.
Qed.

Lemma onEvent_well_formed ev s :
  well_formed s = true -> well_formed (final (onEvent ev s)) = true.
Proof.
  intros Hwf. destruct ev; try exact Hwf.
  unfold onEvent. unfold bind at 1. unfold get. cbv iota beta.
  pose proof (destroy_each_well_formed (JsObj.keys (geometries s)) s Hwf) as H1.
  unfold bind, modify.
  destruct (destroy_each (JsObj.keys (geometries s)) s) as [[[[]|e] s1] t1];
    unfold final in *; simpl in *; [reflexivity | exact H1].
Qed.

Lemma bind_final_invariant {A B : Type} (I : backend -> Prop)
    (m : M A) (k : A -> M B) s :
  I (final (m s)) ->
  (forall a s1, I s1 -> I (final (k a s1))) ->
  I (final (bind m k s)).
Proof.
  intros Hm Hk. unfold bind. destruct (m s) as [[[a|e] s1] t1]; unfold final in *;
    simpl in *; [|exact Hm].
  specialize (Hk a s1 Hm). destruct (k a s1) as [[o s2] t2]. exact Hk.
Qed.

Lemma deliver_well_formed evs s :
  well_formed s = true -> well_formed (final (deliver evs s)) = true.
Proof.
  revert s. induction evs as [|ev evs IH]; intros s Hwf; [exact Hwf|].
  simpl. apply bind_final_invariant with (I := fun x => well_formed x = true).
  - now apply onEvent_well_formed.
  - intros _ s1. apply IH.
Qed.

Lemma evictor_scan_found s keys acc e g :
  evictor_scan s keys acc = Return (e, Some g) ->
  snd acc = Some g \/ exists k, lookup s k = Some g.
Proof.
  revert acc. induction keys as [|k keys IH]; simpl; intros acc H.
  - left. now injection H as ->.
  - unfold evictor_visit in H. destruct (String.eqb k ""); [now apply IH|].
    destruct (lookup s k) as [g0|] eqn:Hl; [|discriminate].
    destruct (_ && _).
    + apply IH in H as [H|H]; [|now right]. simpl in H. injection H as ->.
      right. now exists k.
    + now apply IH.
Qed.

Lemma evictor_well_formed s :
  well_formed s = true -> well_formed (final (evictor s)) = true.
Proof.
  intros Hwf. unfold evictor. unfold bind at 1. unfold get. cbv iota beta.
  destruct (evictor_scan s _ _) as [[earliest [evictee|]]|e] eqn:Hscan;
    try exact Hwf.
  apply evictor_scan_found in Hscan as [Hs|(k & Hl)]; [discriminate|].
  pose proof (destroy_found_well_formed s k evictee Hwf Hl) as H1.
  unfold bind, emit, ret.
  destruct (destroyGeometry (Some evictee) s) as [[[[]|e'] s1] t1];
    unfold final in *; simpl in *; exact H1.
Qed.

Lemma call_evictor_well_formed n s :
  well_formed s = true -> well_formed (final (call_evictor n s)) = true.
Proof.
  revert s. induction n as [|n IH]; intros s Hwf; [exact Hwf|].
  simpl. apply bind_final_invariant with (I := fun x => well_formed x = true).
  - now apply evictor_well_formed.
  - intros _ s1. apply IH.
Qed.

Lemma try_catch_final_invariant {A : Type} (I : backend -> Prop)
    (m : M A) (h : exn -> M A) s :
  I (final (m s)) ->
  (forall e s1, I s1 -> I (final (h e s1))) ->
  I (final (try_catch m h s)).
Proof.
  intros Hm Hh. unfold try_catch. destruct (m s) as [[[a|e] s1] t1];
    unfold final in *; simpl in *; [exact Hm|].
  specialize (Hh e s1 Hm). destruct (h e s1) as [[o s2] t2]. exact Hh.
Qed.

Lemma buffer_of_well_formed g d tg xs size s :
  well_formed s = true -> well_formed (final (buffer_of g d tg xs size s)) = true.
Proof.
  intros Hwf. unfold buffer_of. destruct xs as [l|]; [|exact Hwf].
  unfold createArrayBuffer, allocate.
  apply bind_final_invariant with (I := fun x => well_formed x = true).
  - now apply call_evictor_well_formed.
  - intros _ s1 H1. destruct (granted (g d)); exact H1.
Qed.

Lemma make_geoId_not_empty c ty : make_geoId c ty <> "".
Proof. unfold make_geoId. destruct (canvasId c); discriminate. Qed.

Lemma createGeometry_well_formed g ty data s :
  well_formed s = true -> well_formed (final (createGeometry g ty data s)) = true.
Proof.
  intros Hwf. unfold createGeometry.
  set (I := fun x => well_formed x = true).
  assert (Hguard : forall d tg xs size v n tx i s0,
             I s0 ->
             I (final (try_catch (buffer_of g d tg xs size)
                                 (release_and_rethrow v n tx i) s0))).
  { intros. apply try_catch_final_invariant with (I := I).
    - now apply buffer_of_well_formed.
    - intros e' s1 H1. now rewrite release_and_rethrow_run. }
  apply bind_final_invariant with (I := I); [exact Hwf|]. intros _ s1 H1.
  apply bind_final_invariant with (I := I); [exact H1|]. intros s0 s2 H2.
  destruct (canvas s0) as [c|]; [|exact H2].
  destruct (negb _); [exact H2|].
  apply bind_final_invariant with (I := I); [now apply Hguard|]. intros vb s3 H3.
  apply bind_final_invariant with (I := I); [now apply Hguard|]. intros nb s4 H4.
  apply bind_final_invariant with (I := I).
  { apply try_catch_final_invariant with (I := I).
    - destruct (Data.uv data) as [uv|]; [|exact H4].
      apply bind_final_invariant with (I := I); [now apply buffer_of_well_formed|].
      intros b s5 H5. exact H5.
    - intros e' s5 H5. now rewrite release_and_rethrow_run. }
  intros tb s5 H5.
  apply bind_final_invariant with (I := I); [now apply Hguard|]. intros ib s6 H6.
  apply bind_final_invariant with (I := I).
  { apply try_catch_final_invariant with (I := I).
    - destruct (Data.primitive data) as [p|]; [|exact H6].
      unfold getPrimitiveType.
      repeat match goal with
             | |- context [if ?b then _ else _] => destruct b; [exact H6|]
             end.
      exact H6.
    - intros e' s7 H7. now rewrite release_and_rethrow_run. }
  intros prim s7 H7.
  apply bind_final_invariant with (I := I); [exact H7|]. intros s8 s9 H9.
  apply bind_final_invariant with (I := I); [|intros _ s10 H10; exact H10].
  unfold modify, final. simpl. apply well_formed_set; [exact H9|].
  unfold record_ok. simpl. rewrite String.eqb_refl. simpl.
  rewrite andb_true_r.
  apply negb_true_iff, String.eqb_neq, make_geoId_not_empty.
Qed.

Lemma record_ok_with_lastUsed k g u :
  record_ok (k, Some (Geo.with_lastUsed g u)) = record_ok (k, Some g).
Proof. reflexivity. Qed.

Lemma well_formed_touched k found s :
  well_formed s = true ->
  lookup s k = Some found ->
  well_formed (touched k found s) = true.
Proof.
  intros Hwf Hl. unfold touched. apply well_formed_set; [exact Hwf|].
  rewrite record_ok_with_lastUsed. eapply record_ok_lookup; eassumption.
Qed.

Lemma draw_continue_well_formed k s :
  well_formed s = true -> well_formed (final (draw_continue k s)) = true.
Proof.
  intros Hwf. destruct (lookup s k) as [found|] eqn:Hl.
  2:{ now rewrite (draw_continue_unresolved _ _ Hl). }
  pose proof (well_formed_touched k found s Hwf Hl) as Ht.
  destruct (record_ok_facts _ _ (record_ok_lookup _ _ _ Hwf Hl))
    as (_ & _ & Hf & ib & Hib).
  destruct (canvas s) as [c|] eqn:Hc.
  - rewrite (draw_continue_resolved _ _ _ _ _ Hl Hc Hib), Hf.
    unfold final, drawn_state. simpl.
    destruct (option_string_eqb k (currentBoundGeo s)); exact Ht.
  - unfold draw_continue, bind, get, modify. rewrite Hl. simpl. rewrite Hc.
    exact Ht.
Qed.

Lemma drawGeometry_well_formed reaction geoId s :
  well_formed s = true ->
  well_formed (final (drawGeometry reaction geoId s)) = true.
Proof.
  intros Hwf. destruct (canvas s) as [c|] eqn:Hc.
  - rewrite (drawGeometry_active _ _ _ _ Hc).
    apply bind_final_invariant with (I := fun x => well_formed x = true).
    + rewrite fire_SHADER_ACTIVATE_run. now apply deliver_well_formed.
    + intros _ s1. apply draw_continue_well_formed.
  - now rewrite drawGeometry_no_canvas.
Qed.

Lemma do_call_well_formed c s :
  well_formed s = true -> well_formed (fst (do_call c s)) = true.
Proof.
  intros Hwf. destruct c as [ev| |ty|g ty data|reaction geoId|doc]; simpl.
  - now apply onEvent_well_formed.
  - now apply evictor_well_formed.
  - unfold findGeometry, bind, get. destruct (canvas s); [|exact Hwf].
    destruct (lookup s _); exact Hwf.
  - now apply createGeometry_well_formed.
  - now apply drawGeometry_well_formed.
  - exact Hwf.
Qed.

Lemma run_well_formed cs s :
  well_formed s = true -> well_formed (fst (run cs s)) = true.
Proof.
  revert s. induction cs as [|c cs IH]; intros s Hwf; [exact Hwf|].
  simpl. pose proof (do_call_well_formed c s Hwf) as H1.
  destruct (do_call c s) as [s1 t1]. specialize (IH s1 H1).
  destruct (run cs s1) as [s2 t2]. exact IH.
Qed.

(** Every state the backend can reach is well-formed, and so holds only fixed
    records. *)
Lemma reachable_well_formed now doc cs :
  well_formed (fst (run cs (install now doc))) = true.
Proof. apply run_well_formed. reflexivity. Qed.

Lemma well_formed_all_fixed s : well_formed s = true -> all_fixed s.
Proof.
  intros Hwf k g Hl.
  now destruct (record_ok_facts _ _ (record_ok_lookup _ _ _ Hwf Hl)) as (_ & _ & Hf & _).
Qed.

Lemma reachable_all_fixed now doc cs : all_fixed (fst (run cs (install now doc))).
Proof. apply well_formed_all_fixed, reachable_well_formed. Qed.

(** * More of the backend

    Properties of the functions beyond the ones above. *)

(** ** Create, then find *)

(** A [createGeometry] that returns went through all five statements of its
    [try] block and stored a fresh record under the identifier it returns;
    before that, only the evictor and the device's counter touched the
    state. *)
Lemma createGeometry_returns_inv g ty data s id s' t :
  createGeometry g ty data s = (Return id, s', t) ->
  exists c s5 geo,
    canvas s = Some c /\
    id = make_geoId c ty /\
    frame s s5 /\
    s' = set_geometries (JsObj.set (geometries s5) id (Some geo)) s5 /\
    Geo.geoId geo = id /\
    Geo.type geo = ty /\
    Geo.lastUsed geo = time s /\
    Geo.fixed geo = true /\
    Geo.canvas geo = c /\
    record_ok (id, Some geo) = true.
Proof.
  unfold createGeometry. intros H.
  apply bind_inv in H as [([] & s0 & t0 & t2 & Hm & H & ->)|(e0 & Hm & E)];
    [|discriminate].
  unfold emit in Hm. injection Hm as <- <-.
  apply bind_inv in H as [(sg & s0 & t0 & t2' & Hm & H & ->)|(e0 & Hm & E)];
    [|discriminate].
  unfold get in Hm. injection Hm as <- <- <-.
  destruct (canvas s) as [c|] eqn:Hc; [|discriminate].
  destruct (negb (truthy_string (Data.primitive data))); [discriminate|].
  apply bind_inv in H as [(vb & s1 & t1 & T1 & Hm & H & ->)|(e1 & _ & E)];
    [|discriminate].
  apply guarded_buffer_of_inv in Hm as (Hf1 & _ & _).
  apply bind_inv in H as [(nb & s2 & t2 & T2 & Hm & H & ->)|(e2 & _ & E)];
    [|discriminate].
  apply guarded_buffer_of_inv in Hm as (Hf2 & _ & _).
  apply bind_inv in H as [(tb & s3 & t3 & T3 & Hm & H & ->)|(e3 & _ & E)];
    [|discriminate].
  apply guarded_uv_inv in Hm as (Hf3 & _ & _).
  apply bind_inv in H as [(ib & s4 & t4 & T4 & Hm & H & ->)|(e4 & _ & E)];
    [|discriminate].
  apply guarded_buffer_of_inv in Hm as (Hf4 & _ & _).
  apply bind_inv in H as [(prim & s5 & t5 & T5 & Hm & H & ->)|(e5 & _ & E)];
    [|discriminate].
  apply guarded_primitive_inv in Hm as (-> & _).
  unfold bind, get, modify, ret in H. cbn [fst snd] in H.
  assert (Hf : frame s s4)
    by (eapply frame_trans; [eapply frame_trans; [eapply frame_trans|]|]; eassumption).
  exists c, s4. eexists. split; [reflexivity|].
  split; [congruence|]. split; [exact Hf|].
  split; [injection H as <- <- _; reflexivity|].
  assert (Hid : id = make_geoId c ty) by congruence. subst id.
  cbn. repeat split.
  - exact (frame_time _ _ Hf).
  - unfold record_ok. cbn. rewrite String.eqb_refl. cbn. rewrite andb_true_r.
    apply negb_true_iff, String.eqb_neq, make_geoId_not_empty.
Qed.

(** X1: a geometry that has just been created is found. Whatever the memory
    module did during the call, once [createGeometry] has returned an
    identifier, [findGeometry] for the same type returns that identifier,
    changes nothing and emits nothing. *)
Theorem create_then_find
    (g : gate) (ty : string) (data : Data.t)
    (s : backend) (id : string) (s' : backend) (t : list effect) :
  createGeometry g ty data s = (Return id, s', t) ->
  findGeometry ty s' = (Return (Some id), s', []).
Proof.
  intros H. apply createGeometry_returns_inv in H
    as (c & s5 & geo & Hc & -> & Hf & -> & _).
  unfold findGeometry, bind, get. cbn [fst snd canvas set_geometries].
  rewrite (frame_canvas _ _ Hf), Hc. unfold lookup. cbn [geometries set_geometries].
  now rewrite get_set_same.
Qed.

Lemma create_then_find_witness :
  findGeometry "a" Example.with_a = (Return (Some "c:a"), Example.with_a, []).
Proof.
  apply (create_then_find plentiful "a" Example.triangle Example.started "c:a"
           Example.with_a
           (trace (createGeometry plentiful "a" Example.triangle Example.started))).
  reflexivity.
Defined.

Lemma In_records_of_lookup s k g :
  NoDup (JsObj.keys (geometries s)) ->
  In (k, g) (live_records s) <-> lookup s k = Some g.
Proof.
  intros Hnd. unfold live_records, records_of, lookup. split.
  - rewrite in_flat_map. intros ([k0 [g0|]] & Hin & Hkg); simpl in Hkg; [|tauto].
    destruct Hkg as [E|[]]. injection E as -> ->.
    now rewrite (In_get _ _ _ Hnd Hin).
  - destruct (JsObj.get (geometries s) k) as [v|] eqn:E; [|discriminate].
    intros ->. apply get_In in E. apply in_flat_map.
    exists (k, Some g). split; [exact E | now left].
Qed.

(** X2: [findGeometry] is a lookup and nothing else. On a well-formed cache
    with canvas [c] active it never changes the state and never emits
    anything, and it returns the identifier [canvasId:type] exactly when a
    live record is stored under it; for a type whose record is absent or has
    been destroyed it returns [null]. *)
Theorem find_agrees_with_live_records
    (s : backend) (c : canvas_t) (ty : string) :
  well_formed s = true ->
  canvas s = Some c ->
  final (findGeometry ty s) = s /\
  trace (findGeometry ty s) = [] /\
  (result (findGeometry ty s) = Return (Some (make_geoId c ty)) <->
   In (make_geoId c ty) (map fst (live_records s))) /\
  (result (findGeometry ty s) = Return None <->
   ~ In (make_geoId c ty) (map fst (live_records s))).
Proof.
  intros Hwf Hc. destruct (well_formed_facts s Hwf) as (Hnd & _).
  assert (Hlive : In (make_geoId c ty) (map fst (live_records s)) <->
                  exists g, lookup s (make_geoId c ty) = Some g).
  { rewrite in_map_iff. split.
    - intros ([k g] & Hk & Hin). simpl in Hk. subst k. exists g.
      now apply In_records_of_lookup.
    - intros (g & Hg). exists (make_geoId c ty, g). split; [reflexivity|].
      now apply In_records_of_lookup. }
  unfold findGeometry, bind, get, final, trace, result. cbn [fst snd].
  rewrite Hc. destruct (lookup s (make_geoId c ty)) as [g|] eqn:Hl; cbn.
  - repeat split; try reflexivity.
    + intros _. apply Hlive. now exists g.
    + discriminate.
    + intros Hn. exfalso. apply Hn, Hlive. now exists g.
  - repeat split; try reflexivity.
    + discriminate.
    + intros Hin. apply Hlive in Hin as (g & Hg). discriminate.
    + intros _ Hin. apply Hlive in Hin as (g & Hg). discriminate.
Qed.

Lemma find_agrees_with_live_records_witness :
  final (findGeometry "b" Example.with_a) = Example.with_a /\
  trace (findGeometry "b" Example.with_a) = [] /\
  (result (findGeometry "b" Example.with_a)
   = Return (Some (make_geoId Example.surface "b")) <->
   In (make_geoId Example.surface "b") (map fst (live_records Example.with_a))) /\
  (result (findGeometry "b" Example.with_a) = Return None <->
   ~ In (make_geoId Example.surface "b") (map fst (live_records Example.with_a))).
Proof.
  apply (find_agrees_with_live_records Example.with_a Example.surface "b");
    reflexivity.
Defined.

(** ** What a draw does to the cache *)

Lemma lookup_In_keys s k g : lookup s k = Some g -> In k (JsObj.keys (geometries s)).
Proof.
  intros H. apply lookup_In in H. unfold JsObj.keys. apply in_map_iff.
  now exists (k, Some g).
Qed.

Lemma lookup_drawn_state geoId found s k :
  lookup (drawn_state geoId found s) k =
  if String.eqb geoId k then Some (Geo.with_lastUsed found (time s)) else lookup s k.
Proof.
  unfold drawn_state, touched, lookup.
  destruct (option_string_eqb geoId (currentBoundGeo s)); cbn [geometries set_geometries
    set_currentBoundGeo];
    (destruct (String.eqb_spec geoId k) as [->|Hne];
     [now rewrite get_set_same | now rewrite get_set_other]).
Qed.

Lemma bound_drawn_state geoId found s :
  currentBoundGeo (drawn_state geoId found s) = Some geoId.
Proof.
  unfold drawn_state, touched.
  destruct (option_string_eqb geoId (currentBoundGeo s)) eqn:E; [|reflexivity].
  now apply option_string_eqb_true.
Qed.

(** A draw of a fixed record that returns, seen from the state the event bus
    left: the state is [drawn_state]. *)
Lemma drawGeometry_returns_fixed reaction geoId s s' t :
  well_formed s = true ->
  drawGeometry reaction geoId s = (Return tt, s', t) ->
  exists sa found,
    final (deliver reaction s) = sa /\
    result (deliver reaction s) = Return tt /\
    well_formed sa = true /\
    lookup sa geoId = Some found /\
    s' = drawn_state geoId found sa.
Proof.
  intros Hwf H.
  apply drawGeometry_returns in H as (c & sa & ta & tb & Hc & Hd & Hcont & ->).
  pose proof (deliver_well_formed reaction s Hwf) as Hwa.
  rewrite Hd in Hwa. unfold final in Hwa. cbn [fst snd] in Hwa.
  destruct (draw_continue_returns _ _ _ _ Hcont) as (found & ca & ib & Hl & Hca & Hib).
  destruct (record_ok_facts _ _ (record_ok_lookup _ _ _ Hwa Hl)) as (_ & _ & Hf & _).
  rewrite (draw_continue_resolved _ _ _ _ _ Hl Hca Hib), Hf in Hcont.
  cbv iota in Hcont.
  exists sa, found. rewrite Hd. unfold final, result. cbn [fst snd].
  repeat split; try assumption. congruence.
Qed.

(** X3: a draw refreshes the record's last-used time and touches nothing
    else in the cache. On a well-formed cache, when [drawGeometry] returns
    (no event having come back from the shader activation), the record drawn
    is the one that was stored, with [lastUsed] set to the current clock
    value; every other property of [geometries], the order of the
    properties, the clock and the canvas are as before; and the drawn
    identifier is the bound one. *)
Theorem draw_refreshes_last_used_only
    (s : backend) (geoId : string) (s' : backend) (t : list effect) :
  well_formed s = true ->
  drawGeometry [] geoId s = (Return tt, s', t) ->
  exists g,
    lookup s geoId = Some g /\
    lookup s' geoId = Some (Geo.with_lastUsed g (time s)) /\
    (forall k, k <> geoId -> JsObj.get (geometries s') k = JsObj.get (geometries s) k) /\
    JsObj.keys (geometries s') = JsObj.keys (geometries s) /\
    currentBoundGeo s' = Some geoId /\
    time s' = time s /\ canvas s' = canvas s.
Proof.
  intros Hwf H.
  apply drawGeometry_returns_fixed in H as (sa & found & Hsa & _ & _ & Hl & ->);
    [|exact Hwf].
  simpl in Hsa. subst sa. exists found. split; [exact Hl|]. split.
  - rewrite lookup_drawn_state. now rewrite String.eqb_refl.
  - split; [|split; [|split; [apply bound_drawn_state|]]].
    + intros k Hk. unfold drawn_state, touched.
      destruct (option_string_eqb _ _); cbn [geometries set_geometries set_currentBoundGeo];
        apply get_set_other; congruence.
    + unfold drawn_state, touched.
      destruct (option_string_eqb _ _); cbn [geometries set_geometries set_currentBoundGeo];
        apply keys_set_present; eapply lookup_In_keys; eassumption.
    + unfold drawn_state, touched. destruct (option_string_eqb _ _); split; reflexivity.
Qed.

Lemma draw_refreshes_last_used_only_witness :
  exists g,
    lookup Scenario.two_records "c:a" = Some g /\
    lookup (final (drawGeometry [] "c:a" Scenario.two_records)) "c:a"
    = Some (Geo.with_lastUsed g (time Scenario.two_records)) /\
    (forall k, k <> "c:a" ->
               JsObj.get (geometries (final (drawGeometry [] "c:a" Scenario.two_records))) k
               = JsObj.get (geometries Scenario.two_records) k) /\
    JsObj.keys (geometries (final (drawGeometry [] "c:a" Scenario.two_records)))
    = JsObj.keys (geometries Scenario.two_records) /\
    currentBoundGeo (final (drawGeometry [] "c:a" Scenario.two_records)) = Some "c:a" /\
    time (final (drawGeometry [] "c:a" Scenario.two_records)) = time Scenario.two_records /\
    canvas (final (drawGeometry [] "c:a" Scenario.two_records))
    = canvas Scenario.two_records.
Proof.
  apply (draw_refreshes_last_used_only Scenario.two_records "c:a"
           (final (drawGeometry [] "c:a" Scenario.two_records))
           (trace (drawGeometry [] "c:a" Scenario.two_records)));
    reflexivity.
Defined.

(** ** What the evictor spares *)

(** The evictee the scan ends with is the one it started with or a record of
    the cache last used strictly before the starting value of [earliest]. *)
Lemma evictor_scan_before s keys e0 ev0 e ev :
  evictor_scan s keys (e0, ev0) = Return (e, ev) ->
  (e <= e0)%Z /\
  (ev = ev0 \/
   exists k g, ev = Some g /\ lookup s k = Some g /\ (Geo.lastUsed g < e0)%Z).
Proof.
  revert e0 ev0. induction keys as [|k keys IH]; simpl; intros e0 ev0 H.
  - injection H as <- <-. split; [lia | now left].
  - unfold evictor_visit in H. destruct (String.eqb k ""); [now apply IH|].
    destruct (lookup s k) as [g|] eqn:Hl; [|discriminate].
    cbn [fst] in H.
    destruct ((Geo.lastUsed g <? e0)%Z) eqn:Hlt; cbn [andb] in H.
    + apply Z.ltb_lt in Hlt.
      destruct (getElementById s (canvasId (Geo.canvas g))).
      * apply IH in H as (Hle & [->|(k' & g' & -> & Hl' & Hlt')]).
        -- split; [lia|]. right. now exists k, g.
        -- split; [lia|]. right. exists k', g'. repeat split; [assumption | lia].
      * now apply IH.
    + now apply IH.
Qed.

(** The state an invocation of the evictor ends in. *)
Lemma evictor_final s :
  final (evictor s) =
  match evictor_scan s (JsObj.keys (geometries s)) (time s, None) with
  | Return (_, Some evictee) => final (destroyGeometry (Some evictee) s)
  | _ => s
  end.
Proof.
  unfold evictor, bind, get, emit, ret, throw, final. cbn [fst snd].
  destruct (evictor_scan s _ _) as [[earliest [evictee|]]|e]; try reflexivity.
  destruct (destroyGeometry (Some evictee) s) as [[[[]|e'] s1] t1]; reflexivity.
Qed.

(** A record last used at the current clock value or later survives an
    invocation of the evictor, whatever the invocation returns or throws. *)
Lemma evictor_keeps_recent s k g :
  well_formed s = true ->
  lookup s k = Some g ->
  (time s <= Geo.lastUsed g)%Z ->
  lookup (final (evictor s)) k = Some g /\
  (currentBoundGeo s = Some k -> currentBoundGeo (final (evictor s)) = Some k).
Proof.
  intros Hwf Hl Hrecent. rewrite evictor_final.
  destruct (evictor_scan s _ _) as [[earliest [evictee|]]|e] eqn:Hscan;
    try (split; [exact Hl | trivial]).
  apply evictor_scan_before in Hscan as (_ & [E|(k' & g' & E & Hl' & Hlt)]);
    [discriminate|].
  injection E as ->.
  destruct (record_ok_facts _ _ (record_ok_lookup _ _ _ Hwf Hl')) as (_ & Hid & _).
  assert (Hne : k' <> k).
  { intros ->. rewrite Hl in Hl'. injection Hl' as ->. lia. }
  assert (Hb : option_string_eqb k' (Some k) = false)
    by (apply option_string_eqb_false; congruence).
  destruct (destroyGeometry_final_cases g' s) as [-> | ->]; rewrite Hid.
  - split.
    + unfold lookup. now rewrite geometries_unbind.
    + intros Hbound. unfold unbind. now rewrite Hbound, Hb.
  - split.
    + rewrite lookup_tombstone. apply String.eqb_neq in Hne. rewrite Hne.
      unfold lookup. now rewrite geometries_unbind.
    + intros Hbound. unfold tombstone, unbind. rewrite Hbound, Hb. exact Hbound.
Qed.

(** X4: the evictor never takes a record that was created or drawn at the
    current clock value. On a well-formed cache, a live record whose
    [lastUsed] is not before [time] is still live, unchanged, after an
    invocation of the evictor, whatever that invocation returns or throws. *)
Theorem evictor_spares_records_used_now
    (s : backend) (k : string) (g : Geo.t) :
  well_formed s = true ->
  lookup s k = Some g ->
  (time s <= Geo.lastUsed g)%Z ->
  lookup (final (evictor s)) k = Some g.
Proof. intros Hwf Hl Hr. now apply evictor_keeps_recent. Qed.

Lemma evictor_spares_records_used_now_witness :
  exists g,
    lookup Example.with_a_b "c:b" = Some g /\
    lookup (final (evictor Example.with_a_b)) "c:b" = Some g.
Proof.
  destruct (lookup Example.with_a_b "c:b") as [g|] eqn:E; [|discriminate].
  exists g. split; [reflexivity|].
  apply (evictor_spares_records_used_now Example.with_a_b "c:b" g).
  - reflexivity.
  - exact E.
  - vm_compute in E. injection E as <-. vm_compute. discriminate.
Defined.

(** X5: within one clock tick the geometry just drawn is safe from the
    evictor. On a well-formed cache, after [drawGeometry] has returned, an
    invocation of the evictor made before the next clock update leaves the
    drawn record live and leaves it the bound one. *)
Theorem drawn_geometry_survives_evictor
    (s : backend) (reaction : list event) (geoId : string)
    (s1 : backend) (t : list effect) :
  well_formed s = true ->
  drawGeometry reaction geoId s = (Return tt, s1, t) ->
  (exists g, lookup (final (evictor s1)) geoId = Some g) /\
  currentBoundGeo (final (evictor s1)) = Some geoId.
Proof.
  intros Hwf H. pose proof (drawGeometry_well_formed reaction geoId s Hwf) as Hw1.
  rewrite H in Hw1. unfold final in Hw1. cbn [fst snd] in Hw1.
  apply drawGeometry_returns_fixed in H as (sa & found & _ & _ & _ & Hl & ->);
    [|exact Hwf].
  assert (Hl1 : lookup (drawn_state geoId found sa) geoId
                = Some (Geo.with_lastUsed found (time sa)))
    by (rewrite lookup_drawn_state; now rewrite String.eqb_refl).
  assert (Ht : time (drawn_state geoId found sa) = time sa).
  { unfold drawn_state, touched. now destruct (option_string_eqb _ _). }
  destruct (evictor_keeps_recent _ _ _ Hw1 Hl1) as (Hk & Hb).
  { rewrite Ht. cbn. lia. }
  split; [eexists; exact Hk|]. apply Hb, bound_drawn_state.
Qed.

Lemma drawn_geometry_survives_evictor_witness :
  (exists g,
      lookup (final (evictor (final (drawGeometry [] "c:a" Scenario.two_records))))
             "c:a" = Some g) /\
  currentBoundGeo (final (evictor (final (drawGeometry [] "c:a" Scenario.two_records))))
  = Some "c:a".
Proof.
  apply (drawn_geometry_survives_evictor Scenario.two_records [] "c:a" _
           (trace (drawGeometry [] "c:a" Scenario.two_records)));
    reflexivity.
Defined.

(** ** Entries left [null] by a destroy *)

Lemma evictor_scan_null s keys k acc :
  In k keys -> k <> "" -> lookup s k = None ->
  evictor_scan s keys acc = Throw TypeError.
Proof.
  intros Hin Hk Hl. revert acc.
  induction keys as [|k0 keys IH]; intros acc; [destruct Hin|].
  simpl. destruct (evictor_visit s acc k0) as [acc'|e] eqn:Hv.
  - destruct Hin as [->|Hin]; [|now apply IH].
    unfold evictor_visit in Hv. apply String.eqb_neq in Hk.
    rewrite Hk, Hl in Hv. discriminate.
  - unfold evictor_visit in Hv. destruct (String.eqb k0 ""); [discriminate|].
    destruct (lookup s k0); [|congruence].
    destruct (_ && _); discriminate.
Qed.

Lemma evictor_null_entry s k :
  In k (JsObj.keys (geometries s)) -> k <> "" -> lookup s k = None ->
  evictor s = (Throw TypeError, s, []).
Proof.
  intros Hin Hk Hl. unfold evictor, bind, get, throw. cbn [fst snd].
  now rewrite (evictor_scan_null s _ k _ Hin Hk Hl).
Qed.

(** X6: the evictor cannot pass an entry that a destroy has left [null].
    Whenever [geometries] has a property, with a non-empty name, that holds no
    record, an invocation of the evictor throws a [TypeError], destroys
    nothing and changes nothing, however many evictable records the cache
    holds. *)
Theorem evictor_throws_on_null_entry (s : backend) (k : string) :
  In k (JsObj.keys (geometries s)) ->
  k <> "" ->
  lookup s k = None ->
  evictor s = (Throw TypeError, s, []).
Proof. apply evictor_null_entry. Qed.

Lemma evictor_throws_on_null_entry_witness :
  let s := final (evictor Scenario.two_records) in
  evictor s = (Throw TypeError, s, []).
Proof.
  apply (evictor_throws_on_null_entry
           (final (evictor Scenario.two_records)) "c:a").
  - vm_compute. left. reflexivity.
  - discriminate.
  - reflexivity.
Defined.

(** X7: at most one eviction succeeds. On a well-formed cache, once an
    invocation of the evictor has returned true, the next invocation throws a
    [TypeError] and evicts nothing, because the first left its victim's
    property holding [null]. *)
Theorem evictor_fails_after_an_eviction
    (s s' : backend) (t : list effect) :
  well_formed s = true ->
  evictor s = (Return true, s', t) ->
  evictor s' = (Throw TypeError, s', []).
Proof.
  intros Hwf H. pose proof (evictor_final s) as Hfin. rewrite H in Hfin.
  unfold final in Hfin at 1. cbn [fst snd] in Hfin.
  unfold evictor, bind, get, emit, ret, throw in H. cbn [fst snd] in H.
  destruct (evictor_scan s _ _) as [[earliest [evictee|]]|e] eqn:Hscan;
    try discriminate.
  apply evictor_scan_found in Hscan as [E|(k & Hl)]; [discriminate|].
  destruct (record_ok_facts _ _ (record_ok_lookup _ _ _ Hwf Hl)) as (Hk & Hid & _).
  assert (Hs' : s' = tombstone k (unbind k s)).
  { destruct (destroyGeometry (Some evictee) s) as [[[[]|e'] s1] t1] eqn:Hd;
      [|discriminate].
    apply destroyGeometry_returns in Hd as (Hs1 & _).
    unfold final in Hfin. cbn [fst snd] in Hfin.
    rewrite Hfin, Hs1, Hid. reflexivity. }
  rewrite Hs'. apply (evictor_null_entry _ k).
  - apply (frame_keys _ _ (frame_tombstone k (unbind k s))).
    apply (frame_keys _ _ (frame_unbind k s)). eapply lookup_In_keys. exact Hl.
  - exact Hk.
  - rewrite lookup_tombstone. now rewrite String.eqb_refl.
Qed.

Lemma evictor_fails_after_an_eviction_witness :
  let s' := final (evictor Scenario.two_records) in
  evictor s' = (Throw TypeError, s', []).
Proof.
  apply (evictor_fails_after_an_eviction Scenario.two_records _
           (trace (evictor Scenario.two_records)));
    reflexivity.
Defined.

Lemma reset_item_document s s' kg :
  document s' = document s -> reset_item s' kg = reset_item s kg.
Proof.
  intros H. unfold reset_item, on_page, getElementById. now rewrite H.
Qed.

Lemma keys_box l : JsObj.keys (map box l) = map fst l.
Proof. unfold JsObj.keys. rewrite map_map. reflexivity. Qed.

Lemma keys_nulled (l : list (string * Geo.t)) :
  JsObj.keys (map (fun kg => (fst kg, @None Geo.t)) l) = map fst l.
Proof. unfold JsObj.keys. rewrite map_map. reflexivity. Qed.

(** The [RESET] loop on a cache whose first [null] entry is [k]: the
    records before it, [l], are destroyed one after the other, and the loop
    ends at [k]. [done] holds the entries already passed. *)
Lemma destroy_each_stops (l : list (string * Geo.t)) :
  forall (done : JsObj.t (option Geo.t)) k rest s,
    NoDup (JsObj.keys (done ++ map box l ++ (k, None) :: rest)) ->
    geometries s = done ++ map box l ++ (k, None) :: rest ->
    (forall kg, In kg l -> Geo.geoId (snd kg) = fst kg /\ destroyable (snd kg)) ->
    exists s',
      destroy_each (map fst l ++ k :: JsObj.keys rest) s
      = (Throw TypeError, s', flat_map (reset_item s) l) /\
      geometries s' = done ++ map (fun kg => (fst kg, None)) l ++ (k, None) :: rest /\
      canvas s' = canvas s /\ time s' = time s /\ document s' = document s /\
      nextHandle s' = nextHandle s /\
      currentBoundGeo s'
      = if existsb (fun kg => option_string_eqb (fst kg) (currentBoundGeo s)) l
        then None else currentBoundGeo s.
Proof.
  induction l as [|[k0 g0] l IH]; intros done k rest s Hnd Hg Hrec.
  - exists s. cbn [map app flat_map existsb] in *.
    assert (Hl : lookup s k = None).
    { unfold lookup. rewrite Hg.
      rewrite (In_get _ k None Hnd); [reflexivity|].
      apply in_or_app. right. now left. }
    cbn [destroy_each]. unfold bind at 1. unfold get. cbv iota beta.
    unfold bind. rewrite Hl, destroyGeometry_null. now repeat split.
  - cbn [map app flat_map existsb fst snd box] in *.
    destruct (Hrec (k0, g0) (or_introl eq_refl)) as (Hid & Hd). cbn [fst snd] in *.
    assert (Hl : lookup s k0 = Some g0).
    { unfold lookup. rewrite Hg.
      rewrite (In_get _ k0 (Some g0) Hnd); [reflexivity|].
      apply in_or_app. right. now left. }
    assert (Hk0 : ~ In k0 (JsObj.keys done)).
    { unfold JsObj.keys in *. rewrite map_app in Hnd.
      apply NoDup_remove_2 in Hnd. intros Hin. apply Hnd.
      apply in_or_app. now left. }
    set (s1 := tombstone k0 (unbind k0 s)).
    assert (Hstep : destroyGeometry (lookup s k0) s
                    = (Return tt, s1, reset_item s (k0, g0))).
    { rewrite Hl. unfold reset_item, on_page, s1. cbn [snd]. rewrite <- Hid.
      destruct (getElementById s (canvasId (Geo.canvas g0))) eqn:Hp.
      - now apply destroyGeometry_present.
      - now apply destroyGeometry_gone. }
    assert (Hg1 : geometries s1
                  = (done ++ [(k0, None)]) ++ map box l ++ (k, None) :: rest).
    { unfold s1, tombstone. cbn [geometries set_geometries].
      rewrite geometries_unbind, Hg.
      change (box (k0, g0)) with (k0, Some g0).
      rewrite (set_middle done (map box l ++ (k, None) :: rest) k0 (Some g0) None Hk0).
      now rewrite <- app_assoc. }
    assert (Hdoc1 : document s1 = document s).
    { unfold s1, tombstone, unbind. now destruct (option_string_eqb _ _). }
    assert (Hnd1 : NoDup (JsObj.keys ((done ++ [(k0, None)]) ++ map box l
                                        ++ (k, None) :: rest))).
    { unfold JsObj.keys in *. rewrite <- app_assoc. cbn [app].
      rewrite !map_app in *. cbn [map fst] in *. exact Hnd. }
    destruct (IH (done ++ [(k0, None)]) k rest s1 Hnd1 Hg1) as
        (s' & Hrun & Hg' & Hc' & Ht' & Hd' & Hn' & Hb').
    { intros kg Hin. apply Hrec. now right. }
    exists s'. split.
    + cbn [destroy_each]. unfold bind at 1. unfold get. cbv iota beta.
      assert (Hfm : flat_map (reset_item s1) l = flat_map (reset_item s) l)
        by (apply flat_map_ext; intros kg; now apply reset_item_document).
      unfold bind. rewrite Hstep, Hrun, Hfm. reflexivity.
    + rewrite Hg', <- app_assoc. cbn [app]. split; [reflexivity|].
      unfold s1, tombstone, unbind in Hc', Ht', Hd', Hn', Hb'.
      destruct (option_string_eqb k0 (currentBoundGeo s)) eqn:Hb;
        cbn [canvas time document nextHandle currentBoundGeo set_geometries
             set_currentBoundGeo] in *;
        cbn [orb]; repeat split; try assumption.
      rewrite Hb'.
      replace (existsb (fun kg => option_string_eqb (fst kg) None) l) with false;
        [reflexivity|].
      clear. induction l as [|x l IH]; [reflexivity | exact IH].
Qed.

(** X8: a global reset stops at the first entry left [null]. On a
    well-formed cache whose first [null] property is [k], the [RESET] handler
    destroys the records that come before [k], in order (logging each,
    releasing the buffers of those whose canvas is still in the page,
    leaving [null] in their place, and unsetting the bound marker if it
    names one of them), then throws a [TypeError] at [k]. The records after
    [k] are untouched and the assignments that end the handler are never
    reached: the canvas is still active and the cache keeps every
    property. *)
Theorem reset_stops_at_first_null_entry
    (s : backend) (before : list (string * Geo.t)) (k : string)
    (rest : JsObj.t (option Geo.t)) :
  well_formed s = true ->
  geometries s = map box before ++ (k, None) :: rest ->
  exists s',
    onEvent RESET s = (Throw TypeError, s', flat_map (reset_item s) before) /\
    geometries s' = map (fun kg => (fst kg, None)) before ++ (k, None) :: rest /\
    canvas s' = canvas s /\ time s' = time s /\ document s' = document s /\
    nextHandle s' = nextHandle s /\
    currentBoundGeo s'
    = if existsb (fun kg => option_string_eqb (fst kg) (currentBoundGeo s)) before
      then None else currentBoundGeo s.
Proof.
  intros Hwf Hg. destruct (well_formed_facts s Hwf) as (Hnd & Hrec).
  destruct (destroy_each_stops before [] k rest s) as (s' & Hrun & Hrest).
  - cbn [app]. now rewrite <- Hg.
  - exact Hg.
  - intros [k0 g0] Hin. cbn [fst snd].
    assert (Hin' : In (k0, Some g0) (geometries s)).
    { rewrite Hg. apply in_or_app. left. apply in_map_iff. now exists (k0, g0). }
    destruct (Hrec _ _ Hin') as (_ & Hfacts).
    destruct (Hfacts g0 eq_refl) as (Hid & _).
    split; [exact Hid | eapply well_formed_destroyable; eassumption].
  - exists s'. split; [|exact Hrest].
    unfold onEvent. unfold bind at 1. unfold get. cbv iota beta.
    assert (Hkeys : JsObj.keys (geometries s) = map fst before ++ k :: JsObj.keys rest).
    { rewrite Hg. unfold JsObj.keys. rewrite map_app, map_map. reflexivity. }
    unfold bind. rewrite Hkeys, Hrun. reflexivity.
Qed.

Lemma reset_stops_at_first_null_entry_witness :
  exists g s',
    lookup Scenario.b_evicted "c:a" = Some g /\
    onEvent RESET Scenario.b_evicted
    = (Throw TypeError, s', flat_map (reset_item Scenario.b_evicted) [("c:a", g)]) /\
    geometries s'
    = map (fun kg => (fst kg, None)) [("c:a", g)] ++ ("c:b", None) :: [] /\
    canvas s' = canvas Scenario.b_evicted /\
    time s' = time Scenario.b_evicted /\
    document s' = document Scenario.b_evicted /\
    nextHandle s' = nextHandle Scenario.b_evicted /\
    currentBoundGeo s'
    = if existsb (fun kg => option_string_eqb (fst kg)
                                              (currentBoundGeo Scenario.b_evicted))
                 [("c:a", g)]
      then None else currentBoundGeo Scenario.b_evicted.
Proof.
  destruct (lookup Scenario.b_evicted "c:a") as [g|] eqn:E; [|discriminate].
  destruct (reset_stops_at_first_null_entry Scenario.b_evicted [("c:a", g)] "c:b" [])
    as (s' & H).
  - reflexivity.
  - vm_compute in E. injection E as <-. reflexivity.
  - exists g, s'. split; [reflexivity | exact H].
Defined.

(** ** Global reset of a cache without [null] entries *)

Lemma on_page_frame s s' g : frame s s' -> on_page s' g = on_page s g.
Proof.
  intros Hf. unfold on_page, getElementById. now rewrite (frame_document _ _ Hf).
Qed.

Lemma destroy_each_clean (l : list (string * Geo.t)) s :
  NoDup (map fst l) ->
  (forall k g, In (k, g) l ->
               lookup s k = Some g /\ Geo.geoId g = k /\ destroyable g) ->
  exists s',
    destroy_each (map fst l) s = (Return tt, s', flat_map (reset_item s) l) /\
    frame s s'.
Proof.
  revert s. induction l as [|[k g] l IH]; intros s Hnd Hrec.
  - exists s. split; [reflexivity | apply frame_refl].
  - simpl in Hnd. inversion Hnd as [|? ? Hk Hnd']; subst.
    destruct (Hrec k g (or_introl eq_refl)) as (Hl & Hid & Hd).
    set (s1 := tombstone k (unbind k s)).
    assert (Hf1 : frame s s1)
      by (eapply frame_trans; [apply frame_unbind | apply frame_tombstone]).
    assert (Hstep : destroyGeometry (lookup s k) s = (Return tt, s1, reset_item s (k, g))).
    { rewrite Hl. unfold reset_item, on_page, s1. cbn [snd]. rewrite <- Hid.
      destruct (getElementById s (canvasId (Geo.canvas g))) eqn:Hp.
      - now apply destroyGeometry_present.
      - now apply destroyGeometry_gone. }
    destruct (IH s1 Hnd') as (s' & Hrest & Hf').
    { intros k' g' Hin. destruct (Hrec k' g' (or_intror Hin)) as (Hl' & Hid' & Hd').
      repeat split; try assumption.
      unfold s1. rewrite lookup_tombstone.
      destruct (String.eqb_spec k k') as [->|Hne].
      - exfalso. apply Hk. apply in_map_iff. now exists (k', g').
      - unfold lookup. now rewrite geometries_unbind. }
    exists s'. split; [|eapply frame_trans; eassumption].
    cbn [map fst flat_map]. cbn [destroy_each].
    unfold bind at 1. unfold get. cbv iota beta.
    unfold bind. rewrite Hstep, Hrest. cbn [app].
    f_equal. f_equal. apply flat_map_ext. intros [k' g'].
    unfold reset_item. cbn [snd]. now rewrite (on_page_frame _ _ _ Hf1).
Qed.

(** X9: a global reset destroys everything. On a well-formed cache in which
    no property holds [null], the [RESET] handler returns; afterwards the
    cache is empty, no canvas is active and no geometry is bound; and on the
    way it has logged every record, in the order of the properties, and
    released the buffers of exactly the records whose canvas is still in the
    page. *)
Theorem reset_destroys_every_record (s : backend) :
  well_formed s = true ->
  no_tombstone s = true ->
  exists s',
    onEvent RESET s = (Return tt, s', reset_trace s) /\
    geometries s' = [] /\
    canvas s' = None /\
    currentBoundGeo s' = None /\
    time s' = time s /\
    document s' = document s.
Proof.
  intros Hwf Hnt. destruct (well_formed_facts s Hwf) as (Hnd & Hrec).
  pose proof (no_tombstone_box _ Hnt) as Hbox. fold (live_records s) in Hbox.
  assert (Hkeys : JsObj.keys (geometries s) = map fst (live_records s)).
  { rewrite Hbox at 1. unfold JsObj.keys. rewrite map_map. reflexivity. }
  destruct (destroy_each_clean (live_records s) s) as (s1 & Hrun & Hf).
  { now rewrite <- Hkeys. }
  { intros k g Hin. apply In_records_of_lookup in Hin; [|exact Hnd].
    pose proof (lookup_In _ _ _ Hin) as Hin'.
    destruct (Hrec _ _ Hin') as (_ & Hg).
    destruct (Hg g eq_refl) as (Hid & _).
    repeat split; try assumption.
    eapply well_formed_destroyable; eassumption. }
  eexists. split.
  - unfold onEvent. unfold bind at 1. unfold get. cbv iota beta.
    unfold bind, modify. rewrite Hkeys, Hrun. cbn [app].
    rewrite !app_nil_r. reflexivity.
  - cbn. repeat split;
      [exact (frame_time _ _ Hf) | exact (frame_document _ _ Hf)].
Qed.

Lemma reset_destroys_every_record_witness :
  exists s',
    onEvent RESET Scenario.two_records
    = (Return tt, s', reset_trace Scenario.two_records) /\
    geometries s' = [] /\
    canvas s' = None /\
    currentBoundGeo s' = None /\
    time s' = time Scenario.two_records /\
    document s' = document Scenario.two_records.
Proof.
  apply (reset_destroys_every_record Scenario.two_records); reflexivity.
Defined.

(** ** The bound marker never dangles *)

Lemma bound_is_live_same s s' :
  geometries s' = geometries s ->
  currentBoundGeo s' = None \/ currentBoundGeo s' = currentBoundGeo s ->
  bound_is_live s -> bound_is_live s'.
Proof.
  intros Hg Hb H id Hid. destruct Hb as [Hb|Hb]; [congruence|].
  rewrite Hb in Hid. destruct (H id Hid) as (g & Hl). exists g.
  unfold lookup in *. now rewrite Hg.
Qed.

Lemma sound_same s s' :
  geometries s' = geometries s ->
  currentBoundGeo s' = None \/ currentBoundGeo s' = currentBoundGeo s ->
  sound s -> sound s'.
Proof.
  intros Hg Hb [Hwf Hbl]. split.
  - eapply well_formed_same_geometries; eassumption.
  - eapply bound_is_live_same; eassumption.
Qed.

Lemma sound_unbind k s : sound s -> sound (unbind k s).
Proof.
  apply sound_same; [apply geometries_unbind|].
  unfold unbind. destruct (option_string_eqb _ _); simpl; auto.
Qed.

Lemma sound_tombstone s k g :
  sound s -> lookup s k = Some g ->
  sound (tombstone (Geo.geoId g) (unbind (Geo.geoId g) s)).
Proof.
  intros [Hwf Hbl] Hl. split; [eapply well_formed_tombstone; eassumption|].
  intros id Hid. cbn in Hid.
  assert (Hne : Geo.geoId g <> id).
  { intros E. pose proof (unbind_bound (Geo.geoId g) s) as Hu.
    rewrite Hid, E in Hu. simpl in Hu. rewrite String.eqb_refl in Hu. discriminate. }
  assert (Hs : currentBoundGeo s = Some id).
  { unfold unbind in Hid. destruct (option_string_eqb _ _); [discriminate | exact Hid]. }
  destruct (Hbl id Hs) as (g0 & Hg0). exists g0.
  rewrite lookup_tombstone. apply String.eqb_neq in Hne. rewrite Hne.
  unfold lookup in *. now rewrite geometries_unbind.
Qed.

Lemma destroy_found_sound s k g :
  sound s -> lookup s k = Some g -> sound (final (destroyGeometry (Some g) s)).
Proof.
  intros Hs Hl. destruct (destroyGeometry_final_cases g s) as [-> | ->].
  - now apply sound_unbind.
  - eapply sound_tombstone; eassumption.
Qed.

Lemma destroy_each_sound keys s : sound s -> sound (final (destroy_each keys s)).
Proof.
  revert s. induction keys as [|k keys IH]; intros s Hs; [exact Hs|].
  simpl. unfold bind at 1. unfold get. cbv iota beta.
  assert (H1 : sound (final (destroyGeometry (lookup s k) s))).
  { destruct (lookup s k) as [g|] eqn:Hl; [|exact Hs].
    eapply destroy_found_sound; eassumption. }
  unfold bind. destruct (destroyGeometry (lookup s k) s) as [[[[]|e] s1] t1];
    unfold final in *; cbn [fst snd] in *.
  - specialize (IH s1 H1). destruct (destroy_each keys s1) as [[o s2] t2].
    exact IH.
  - exact H1.
Qed.

Lemma sound_unbound s' :
  well_formed s' = true -> currentBoundGeo s' = None -> sound s'.
Proof. intros Hwf Hb. split; [exact Hwf|]. intros id Hid. congruence. Qed.

Lemma onEvent_sound ev s : sound s -> sound (final (onEvent ev s)).
Proof.
  intros Hs. pose proof (onEvent_well_formed ev s (proj1 Hs)) as Hwf.
  destruct ev; try (apply sound_unbound; [exact Hwf | reflexivity]).
  - exact Hs.
  - unfold onEvent. unfold bind at 1. unfold get. cbv iota beta.
    pose proof (destroy_each_sound (JsObj.keys (geometries s)) s Hs) as H1.
    unfold bind, modify.
    destruct (destroy_each (JsObj.keys (geometries s)) s) as [[[[]|e] s1] t1];
      unfold final in *; cbn [fst snd] in *; [|exact H1].
    split; [reflexivity|]. intros id Hid. discriminate.
Qed.

Lemma deliver_sound evs s : sound s -> sound (final (deliver evs s)).
Proof.
  revert s. induction evs as [|ev evs IH]; intros s Hs; [exact Hs|].
  simpl. apply bind_final_invariant with (I := sound).
  - now apply onEvent_sound.
  - intros _ s1. apply IH.
Qed.

Lemma evictor_sound s : sound s -> sound (final (evictor s)).
Proof.
  intros Hs. rewrite evictor_final.
  destruct (evictor_scan s _ _) as [[earliest [evictee|]]|e] eqn:Hscan;
    try exact Hs.
  apply evictor_scan_found in Hscan as [E|(k & Hl)]; [discriminate|].
  eapply destroy_found_sound; eassumption.
Qed.

Lemma call_evictor_sound n s : sound s -> sound (final (call_evictor n s)).
Proof.
  revert s. induction n as [|n IH]; intros s Hs; [exact Hs|].
  simpl. apply bind_final_invariant with (I := sound).
  - now apply evictor_sound.
  - intros _ s1. apply IH.
Qed.

Lemma buffer_of_sound g d tg xs size s :
  sound s -> sound (final (buffer_of g d tg xs size s)).
Proof.
  intros Hs. unfold buffer_of. destruct xs as [l|]; [|exact Hs].
  unfold createArrayBuffer, allocate.
  apply bind_final_invariant with (I := sound).
  - now apply call_evictor_sound.
  - intros _ s1 H1. destruct (granted (g d)); [|exact H1].
    unfold new_ArrayBuffer, bind, get, modify, emit, ret, final. cbn [fst snd].
    revert H1. apply sound_same; [reflexivity | now right].
Qed.

Lemma sound_store s k g :
  sound s -> record_ok (k, Some g) = true ->
  sound (set_geometries (JsObj.set (geometries s) k (Some g)) s).
Proof.
  intros [Hwf Hbl] Hok. split; [now apply well_formed_set|].
  intros id Hid. cbn in Hid. unfold lookup. cbn [geometries set_geometries].
  destruct (String.eqb_spec k id) as [->|Hne].
  - exists g. now rewrite get_set_same.
  - destruct (Hbl id Hid) as (g0 & Hg0). exists g0.
    rewrite get_set_other by assumption. exact Hg0.
Qed.

Lemma createGeometry_sound g ty data s :
  sound s -> sound (final (createGeometry g ty data s)).
Proof.
  intros Hs. unfold createGeometry.
  assert (Hguard : forall d tg xs size v n tx i s0,
             sound s0 ->
             sound (final (try_catch (buffer_of g d tg xs size)
                                     (release_and_rethrow v n tx i) s0))).
  { intros. apply try_catch_final_invariant with (I := sound).
    - now apply buffer_of_sound.
    - intros e' s1 H1. now rewrite release_and_rethrow_run. }
  apply bind_final_invariant with (I := sound); [exact Hs|]. intros _ s1 H1.
  apply bind_final_invariant with (I := sound); [exact H1|]. intros s0 s2 H2.
  destruct (canvas s0) as [c|]; [|exact H2].
  destruct (negb _); [exact H2|].
  apply bind_final_invariant with (I := sound); [now apply Hguard|]. intros vb s3 H3.
  apply bind_final_invariant with (I := sound); [now apply Hguard|]. intros nb s4 H4.
  apply bind_final_invariant with (I := sound).
  { apply try_catch_final_invariant with (I := sound).
    - destruct (Data.uv data) as [uv|]; [|exact H4].
      apply bind_final_invariant with (I := sound); [now apply buffer_of_sound|].
      intros b s5 H5. exact H5.
    - intros e' s5 H5. now rewrite release_and_rethrow_run. }
  intros tb s5 H5.
  apply bind_final_invariant with (I := sound); [now apply Hguard|]. intros ib s6 H6.
  apply bind_final_invariant with (I := sound).
  { apply try_catch_final_invariant with (I := sound).
    - destruct (Data.primitive data) as [p|]; [|exact H6].
      unfold getPrimitiveType.
      repeat match goal with
             | |- context [if ?b then _ else _] => destruct b; [exact H6|]
             end.
      exact H6.
    - intros e' s7 H7. now rewrite release_and_rethrow_run. }
  intros prim s7 H7.
  apply bind_final_invariant with (I := sound); [exact H7|]. intros s8 s9 H9.
  apply bind_final_invariant with (I := sound); [|intros _ s10 H10; exact H10].
  unfold modify, final. cbn [fst snd]. apply sound_store; [exact H9|].
  unfold record_ok. cbn. rewrite String.eqb_refl. cbn. rewrite andb_true_r.
  apply negb_true_iff, String.eqb_neq, make_geoId_not_empty.
Qed.

Lemma sound_touched k found s :
  sound s -> lookup s k = Some found -> sound (touched k found s).
Proof.
  intros Hs Hl. unfold touched. apply sound_store; [exact Hs|].
  rewrite record_ok_with_lastUsed. eapply record_ok_lookup; [apply Hs | exact Hl].
Qed.

Lemma draw_continue_sound k s : sound s -> sound (final (draw_continue k s)).
Proof.
  intros Hs. destruct (lookup s k) as [found|] eqn:Hl.
  2:{ now rewrite (draw_continue_unresolved _ _ Hl). }
  pose proof (sound_touched k found s Hs Hl) as Ht.
  destruct (record_ok_facts _ _ (record_ok_lookup _ _ _ (proj1 Hs) Hl))
    as (_ & _ & Hf & ib & Hib).
  destruct (canvas s) as [c|] eqn:Hc.
  - rewrite (draw_continue_resolved _ _ _ _ _ Hl Hc Hib), Hf.
    unfold final. cbn [fst snd].
    split.
    + pose proof (draw_continue_well_formed k s (proj1 Hs)) as Hw.
      rewrite (draw_continue_resolved _ _ _ _ _ Hl Hc Hib), Hf in Hw. exact Hw.
    + intros id Hid. rewrite bound_drawn_state in Hid. injection Hid as <-.
      eexists. rewrite lookup_drawn_state. now rewrite String.eqb_refl.
  - unfold draw_continue, bind, get, modify. rewrite Hl. cbn. rewrite Hc.
    exact Ht.
Qed.

Lemma drawGeometry_sound reaction geoId s :
  sound s -> sound (final (drawGeometry reaction geoId s)).
Proof.
  intros Hs. destruct (canvas s) as [c|] eqn:Hc.
  - rewrite (drawGeometry_active _ _ _ _ Hc).
    apply bind_final_invariant with (I := sound).
    + rewrite fire_SHADER_ACTIVATE_run. now apply deliver_sound.
    + intros _ s1. apply draw_continue_sound.
  - now rewrite drawGeometry_no_canvas.
Qed.

Lemma do_call_sound c s : sound s -> sound (fst (do_call c s)).
Proof.
  intros Hs. destruct c as [ev| |ty|g ty data|reaction geoId|doc]; simpl.
  - now apply onEvent_sound.
  - now apply evictor_sound.
  - unfold findGeometry, bind, get. destruct (canvas s); [|exact Hs].
    destruct (lookup s _); exact Hs.
  - now apply createGeometry_sound.
  - now apply drawGeometry_sound.
  - revert Hs. apply sound_same; [reflexivity | now right].
Qed.

Lemma run_sound cs s : sound s -> sound (fst (run cs s)).
Proof.
  revert s. induction cs as [|c cs IH]; intros s Hs; [exact Hs|].
  simpl. pose proof (do_call_sound c s Hs) as H1.
  destruct (do_call c s) as [s1 t1]. specialize (IH s1 H1).
  destruct (run cs s1) as [s2 t2]. exact IH.
Qed.

(** X10: the bound marker never dangles. In every state the backend reaches
    from its installation, by any sequence of events, evictor invocations,
    API calls and page changes, whatever they return or throw, the bound
    marker is either unset or names a record that is live in the cache. *)
Theorem bound_marker_names_a_live_record
    (now : Z) (doc : list string) (cs : list call) (geoId : string) :
  currentBoundGeo (fst (run cs (install now doc))) = Some geoId ->
  exists g, lookup (fst (run cs (install now doc))) geoId = Some g.
Proof.
  apply (run_sound cs (install now doc)). split; [reflexivity|].
  intros id Hid. discriminate.
Qed.

Lemma bound_marker_names_a_live_record_witness :
  exists g,
    lookup (fst (run [Deliver (CANVAS_ACTIVATED Example.surface);
                      Create plentiful "a" Example.triangle;
                      Draw [SHADER_ACTIVATED] "c:a";
                      Deliver (TIME_UPDATED 9);
                      Create plentiful "b" Example.triangle;
                      Page []]
                     (install 1 ["c"]))) "c:a" = Some g.
Proof.
  apply (bound_marker_names_a_live_record 1 ["c"]). reflexivity.
Defined.

(** ** A geometry re-created while it is bound *)

Lemma created_In b t : In b (created t) -> In (BufferCreated b) t.
Proof.
  unfold created. rewrite in_flat_map. intros (e & He & Hb).
  destruct e; simpl in Hb; try tauto. destruct Hb as [<-|[]]. exact He.
Qed.

(** X11: re-creating the geometry that is currently bound leaves the bound
    marker on its identifier, so the next draw takes the fast path: it fires
    [SHADER_ACTIVATE], draws with the item count of the new record's index
    buffer and flushes, but neither exports the new record nor binds its
    index buffer, which the create call has just allocated. *)
Theorem recreated_bound_geometry_is_not_rebound
    (g : gate) (ty : string) (data : Data.t) (s : backend) (c : canvas_t) :
  canvas s = Some c ->
  relaxed g ->
  valid_data data = true ->
  currentBoundGeo s = Some (make_geoId c ty) ->
  exists s1 t1 geo ib s2,
    createGeometry g ty data s = (Return (make_geoId c ty), s1, t1) /\
    lookup s1 (make_geoId c ty) = Some geo /\
    Geo.indexBuf geo = Some ib /\
    In (BufferCreated ib) t1 /\
    currentBoundGeo s1 = Some (make_geoId c ty) /\
    drawGeometry [] (make_geoId c ty) s1 =
    (Return tt, s2,
     [Fired_SHADER_ACTIVATE;
      DrawElements (Geo.primitive geo) (numItems ib) UNSIGNED_SHORT 0; Flush]).
Proof.
  intros Hc Hg Hv Hb.
  destruct (createGeometry_relaxed g ty data s c Hc Hg Hv)
    as (geo & n & t1 & Hrun & Hid & Hlu & Hfix & Hcr & _ & _).
  destruct (createGeometry_returns_inv _ _ _ _ _ _ _ Hrun)
    as (c' & s5 & geo' & _ & _ & _ & Hs1 & _ & _ & _ & _ & _ & Hok).
  set (id := make_geoId c ty) in *.
  set (s1 := set_geometries (JsObj.set (geometries s) id (Some geo))
                            (set_nextHandle n s)) in *.
  assert (Hl : lookup s1 id = Some geo).
  { unfold lookup, s1. cbn [geometries set_geometries]. now rewrite get_set_same. }
  assert (Hgeo : geo' = geo).
  { assert (Hl' : lookup s1 id = Some geo').
    { rewrite Hs1. unfold lookup. cbn [geometries set_geometries].
      now rewrite get_set_same. }
    congruence. }
  subst geo'. destruct (record_ok_facts _ _ Hok) as (_ & _ & _ & ib & Hib).
  assert (Hc1 : canvas s1 = Some c) by exact Hc.
  assert (Hb1 : currentBoundGeo s1 = Some id) by exact Hb.
  exists s1, t1, geo, ib. eexists.
  split; [exact Hrun|]. split; [exact Hl|]. split; [exact Hib|].
  split.
  { apply created_In. rewrite Hcr. unfold buffers_of. rewrite Hib.
    rewrite !in_app_iff. right. right. right. now left. }
  split; [exact Hb1|].
  assert (E : option_string_eqb id (currentBoundGeo s1) = true)
    by now apply option_string_eqb_true.
  pose proof (draw_continue_resolved _ _ _ _ _ Hl Hc1 Hib) as Hd.
  rewrite Hfix in Hd. unfold drawn_trace in Hd. rewrite E in Hd.
  cbn [app] in Hd.
  rewrite (drawGeometry_active _ _ _ _ Hc1). unfold bind.
  rewrite fire_SHADER_ACTIVATE_run. cbn [deliver]. unfold ret, result, final, trace.
  cbn [fst snd]. rewrite Hd. reflexivity.
Qed.

Lemma recreated_bound_geometry_is_not_rebound_witness :
  exists s1 t1 geo ib s2,
    createGeometry plentiful "a" Example.triangle
                   (fst (run [Draw [] "c:a"] Example.with_a)) =
    (Return (make_geoId Example.surface "a"), s1, t1) /\
    lookup s1 (make_geoId Example.surface "a") = Some geo /\
    Geo.indexBuf geo = Some ib /\
    In (BufferCreated ib) t1 /\
    currentBoundGeo s1 = Some (make_geoId Example.surface "a") /\
    drawGeometry [] (make_geoId Example.surface "a") s1 =
    (Return tt, s2,
     [Fired_SHADER_ACTIVATE;
      DrawElements (Geo.primitive geo) (numItems ib) UNSIGNED_SHORT 0; Flush]).
Proof.
  apply (recreated_bound_geometry_is_not_rebound plentiful "a" Example.triangle
           (fst (run [Draw [] "c:a"] Example.with_a)) Example.surface).
  - reflexivity.
  - intros d. reflexivity.
  - reflexivity.
  - reflexivity.
Defined.

(** ** Rejected geometry data *)

Lemma getPrimitiveType_unsupported p s :
  supported p = false ->
  getPrimitiveType p s = (Throw InvalidGeometryConfigException, s, []).
Proof.
  unfold supported, getPrimitiveType. cbn [existsb].
  repeat match goal with
         | |- context [String.eqb p ?lit] =>
             destruct (String.eqb p lit); [discriminate|]
         end.
  reflexivity.
Qed.

(** X12: which way [createGeometry] ends on an active canvas when the memory
    module grants every allocation without evicting. The checks come in the
    order of the source: a missing or empty [primitive] is a
    [NodeConfigExpectedException]; otherwise a missing [positions],
    [normals] or [indices] array is a [TypeError], also when the primitive
    name is not a supported one; otherwise an unsupported primitive name is
    an [InvalidGeometryConfigException]; otherwise the call returns the
    identifier made of the canvas identifier and the type. *)
Theorem createGeometry_verdict
    (g : gate) (ty : string) (data : Data.t) (s : backend) (c : canvas_t) :
  canvas s = Some c ->
  relaxed g ->
  result (createGeometry g ty data s) =
  match rejection data with
  | Some e => Throw e
  | None => Return (make_geoId c ty)
  end.
Proof.
  intros Hc Hg. destruct data as [prim pos nor uv ind].
  unfold rejection, createGeometry, buffer_of, createArrayBuffer, allocate,
    new_ArrayBuffer.
  unfold bind, get, emit, modify, ret, throw, try_catch, result.
  cbn [Data.primitive Data.positions Data.normals Data.uv Data.indices].
  rewrite Hc. cbn [fst snd].
  destruct (truthy_string prim) eqn:Htr; cbn [negb]; [|reflexivity].
  destruct prim as [p|]; [|discriminate].
  destruct pos as [pos|]; cbn [is_some negb]; [|reflexivity].
  rewrite !Hg. cbn [evictions granted call_evictor]. unfold ret.
  cbn -[make_geoId JsObj.set getPrimitiveType String.append supported].
  destruct nor as [nor|]; cbn [is_some negb];
    cbn -[make_geoId JsObj.set getPrimitiveType String.append supported];
    [|reflexivity].
  destruct uv as [uv|];
    cbn -[make_geoId JsObj.set getPrimitiveType String.append supported];
    rewrite ?Hg;
    cbn -[make_geoId JsObj.set getPrimitiveType String.append supported];
    (destruct ind as [ind|];
     cbn -[make_geoId JsObj.set getPrimitiveType String.append supported];
     [|reflexivity]);
    (destruct (supported p) eqn:Hs;
     [destruct (getPrimitiveType_supported p Hs) as (pr & Hpr); rewrite Hpr
     |rewrite (getPrimitiveType_unsupported p _ Hs)]);
    reflexivity.
Qed.

Lemma createGeometry_verdict_witness :
  result (createGeometry plentiful "x"
            {| Data.primitive := Some "hexagon"; Data.positions := Some [0%Z];
               Data.normals := None; Data.uv := None; Data.indices := None |}
            Example.started) = Throw TypeError.
Proof.
  exact (createGeometry_verdict plentiful "x"
           {| Data.primitive := Some "hexagon"; Data.positions := Some [0%Z];
              Data.normals := None; Data.uv := None; Data.indices := None |}
           Example.started Example.surface eq_refl (fun d => eq_refl)).
Defined.

(** X13: an unsupported primitive name is found out only after every buffer
    has been allocated. On an active canvas, with all the arrays present and
    a memory module that grants every allocation without evicting, the call
    creates three buffers, or four when texture coordinates are given,
    releases exactly those buffers in the order it created them, and throws
    [InvalidGeometryConfigException]; only the device's handle counter has
    moved. *)
Theorem unsupported_primitive_allocates_then_releases
    (g : gate) (ty p : string) (data : Data.t) (s : backend) (c : canvas_t) :
  canvas s = Some c ->
  relaxed g ->
  Data.primitive data = Some p ->
  p <> "" ->
  supported p = false ->
  is_some (Data.positions data) && is_some (Data.normals data)
    && is_some (Data.indices data) = true ->
  exists bs,
    createGeometry g ty data s =
    (Throw InvalidGeometryConfigException,
     set_nextHandle (List.length bs + nextHandle s) s,
     LogDebug ("Creating geometry: '" ++ ty ++ "'")%string
       :: map BufferCreated bs ++ map BufferDestroyed bs) /\
    List.length bs = (if is_some (Data.uv data) then 4 else 3) /\
    map handle bs = seq (nextHandle s) (List.length bs).
Proof.
  intros Hc Hg Hp Hne Hs Harr. destruct data as [prim pos nor uv ind].
  cbn [Data.primitive Data.positions Data.normals Data.uv Data.indices] in *.
  subst prim.
  destruct pos as [pos|]; [|discriminate].
  destruct nor as [nor|]; [|discriminate].
  destruct ind as [ind|]; [|discriminate].
  assert (Htr : truthy_string (Some p) = true).
  { unfold truthy_string. apply negb_true_iff. now apply String.eqb_neq. }
  unfold createGeometry, buffer_of, createArrayBuffer, allocate, new_ArrayBuffer.
  unfold bind, get, emit, modify, ret, try_catch.
  cbn [Data.primitive Data.positions Data.normals Data.uv Data.indices].
  rewrite Hc, Htr. cbn [negb]. rewrite !Hg. cbn [evictions granted call_evictor].
  unfold ret. cbn -[make_geoId JsObj.set getPrimitiveType String.append].
  destruct uv as [uv|];
    cbn -[make_geoId JsObj.set getPrimitiveType String.append];
    rewrite ?Hg; cbn -[make_geoId JsObj.set getPrimitiveType String.append];
    rewrite (getPrimitiveType_unsupported p _ Hs);
    cbn -[make_geoId JsObj.set getPrimitiveType String.append].
  - eexists [_; _; _; _]. split; [reflexivity|]. split; reflexivity.
  - eexists [_; _; _]. split; [reflexivity|]. split; reflexivity.
Qed.

Lemma unsupported_primitive_allocates_then_releases_witness :
  exists bs,
    createGeometry plentiful "x" Example.hexagon Example.started =
    (Throw InvalidGeometryConfigException,
     set_nextHandle (List.length bs + nextHandle Example.started) Example.started,
     LogDebug ("Creating geometry: '" ++ "x" ++ "'")%string
       :: map BufferCreated bs ++ map BufferDestroyed bs) /\
    List.length bs = (if is_some (Data.uv Example.hexagon) then 4 else 3) /\
    map handle bs = seq (nextHandle Example.started) (List.length bs).
Proof.
  apply (unsupported_primitive_allocates_then_releases plentiful "x" "hexagon"
           Example.hexagon Example.started Example.surface).
  - reflexivity.
  - intros d. reflexivity.
  - reflexivity.
  - discriminate.
  - reflexivity.
  - reflexivity.
Defined.

(** ** What the calls other than [createGeometry] do to the records *)

Lemma with_lastUsed_self g : Geo.with_lastUsed g (Geo.lastUsed g) = g.
Proof. now destruct g. Qed.

Lemma with_lastUsed_twice g u v :
  Geo.with_lastUsed (Geo.with_lastUsed g u) v = Geo.with_lastUsed g v.
Proof. reflexivity. Qed.

Lemma ages_refl s : ages s s.
Proof.
  intros k g' H. exists g', (Geo.lastUsed g'). split; [exact H|].
  symmetry. apply with_lastUsed_self.
Qed.

Lemma ages_trans s1 s2 s3 : ages s1 s2 -> ages s2 s3 -> ages s1 s3.
Proof.
  intros H12 H23 k g3 H3. destruct (H23 k g3 H3) as (g2 & u & H2 & ->).
  destruct (H12 k g2 H2) as (g1 & v & H1 & ->).
  exists g1, u. split; [exact H1 | apply with_lastUsed_twice].
Qed.

Lemma ages_live s s' :
  (forall k g, lookup s' k = Some g -> lookup s k = Some g) -> ages s s'.
Proof.
  intros H k g' Hk. exists g', (Geo.lastUsed g'). split; [now apply H|].
  symmetry. apply with_lastUsed_self.
Qed.

(** The three ways [draw_continue] ends on a well-formed cache: the
    identifier resolves to nothing; the canvas has gone during the event; the
    record is drawn. *)
Lemma draw_continue_cases k s :
  well_formed s = true ->
  (lookup s k = None /\ final (draw_continue k s) = s /\
   trace (draw_continue k s) = unresolved_trace k s) \/
  exists found,
    lookup s k = Some found /\
    ((canvas s = None /\ final (draw_continue k s) = touched k found s /\
      trace (draw_continue k s) = []) \/
     (exists ib,
         result (draw_continue k s) = Return tt /\
         final (draw_continue k s) = drawn_state k found s /\
         trace (draw_continue k s) = drawn_trace k found ib s)).
Proof.
  intros Hwf. destruct (lookup s k) as [found|] eqn:Hl.
  2:{ left. rewrite (draw_continue_unresolved _ _ Hl). now repeat split. }
  right. exists found. split; [reflexivity|].
  destruct (record_ok_facts _ _ (record_ok_lookup _ _ _ Hwf Hl))
    as (_ & _ & Hf & ib & Hib).
  destruct (canvas s) as [c|] eqn:Hc.
  - right. exists ib.
    rewrite (draw_continue_resolved _ _ _ _ _ Hl Hc Hib), Hf. now repeat split.
  - left. unfold draw_continue, bind, get, modify. rewrite Hl. cbn. rewrite Hc.
    now repeat split.
Qed.

Lemma ages_touched k found s :
  lookup s k = Some found -> ages s (touched k found s).
Proof.
  intros Hl k' g' H. unfold touched, lookup in H. cbn [geometries set_geometries] in H.
  destruct (String.eqb_spec k k') as [<-|Hne].
  - rewrite get_set_same in H. injection H as <-. now exists found, (time s).
  - rewrite get_set_other in H by assumption. now apply ages_refl.
Qed.

Lemma ages_drawn_state k found s :
  lookup s k = Some found -> ages s (drawn_state k found s).
Proof.
  intros Hl k' g' H. rewrite lookup_drawn_state in H.
  destruct (String.eqb_spec k k') as [<-|Hne].
  - injection H as <-. now exists found, (time s).
  - now apply ages_refl.
Qed.

Lemma draw_continue_ages k s :
  well_formed s = true -> ages s (final (draw_continue k s)).
Proof.
  intros Hwf.
  destruct (draw_continue_cases k s Hwf)
    as [(_ & -> & _)|(found & Hl & [(_ & -> & _)|(ib & _ & -> & _)])].
  - apply ages_refl.
  - now apply ages_touched.
  - now apply ages_drawn_state.
Qed.

Lemma drawGeometry_ages reaction geoId s :
  well_formed s = true -> ages s (final (drawGeometry reaction geoId s)).
Proof.
  intros Hwf. destruct (canvas s) as [c|] eqn:Hc.
  2:{ rewrite drawGeometry_no_canvas by assumption. apply ages_refl. }
  rewrite (drawGeometry_active _ _ _ _ Hc). unfold bind.
  rewrite fire_SHADER_ACTIVATE_run.
  destruct (respects_deliver reaction s) as (Hset & _ & _).
  pose proof (deliver_well_formed reaction s Hwf) as Hwa.
  destruct (deliver reaction s) as [[[[]|e] sa] ta]; unfold result, final, trace in *;
    cbn [fst snd] in *.
  - pose proof (draw_continue_ages geoId sa Hwa) as Hd.
    destruct (draw_continue geoId sa) as [[o s2] t2]. cbn [fst snd] in *.
    eapply ages_trans; [|exact Hd]. apply ages_live. apply Hset.
  - apply ages_live. apply Hset.
Qed.

Lemma do_call_ages c s :
  well_formed s = true -> creates c = false -> ages s (fst (do_call c s)).
Proof.
  intros Hwf Hc. destruct c as [ev| |ty|g ty data|reaction geoId|doc];
    simpl in *; try discriminate.
  - apply ages_live. destruct (respects_onEvent ev s) as (H & _ & _). apply H.
  - apply ages_live. destruct (respects_evictor s) as (H & _ & _). apply H.
  - unfold findGeometry, bind, get. destruct (canvas s); [|apply ages_refl].
    destruct (lookup s _); apply ages_refl.
  - now apply drawGeometry_ages.
  - exact (ages_refl s).
Qed.

(** X14: only [createGeometry] adds records. After any sequence of events,
    evictor invocations, lookups, draws and page changes run on a well-formed
    cache, whatever they return or throw, every live record was live under
    the same identifier when the sequence began, and is that record with at
    most its last-used time changed. *)
Theorem only_createGeometry_adds_records
    (cs : list call) (s : backend) (k : string) (g' : Geo.t) :
  well_formed s = true ->
  forallb (fun c => negb (creates c)) cs = true ->
  lookup (fst (run cs s)) k = Some g' ->
  exists g u, lookup s k = Some g /\ g' = Geo.with_lastUsed g u.
Proof.
  revert s. induction cs as [|c cs IH]; intros s Hwf Hcs H.
  - now apply (ages_refl s).
  - cbn [forallb] in Hcs. apply andb_prop in Hcs as [Hc Hcs].
    apply negb_true_iff in Hc.
    pose proof (do_call_well_formed c s Hwf) as Hw1.
    pose proof (do_call_ages c s Hwf Hc) as Ha.
    cbn [run] in H. destruct (do_call c s) as [s1 t1]. cbn [fst] in *.
    destruct (run cs s1) as [s2 t2] eqn:Hr. cbn [fst] in H.
    assert (H2 : lookup (fst (run cs s1)) k = Some g') by now rewrite Hr.
    destruct (IH s1 Hw1 Hcs H2) as (g1 & u & H1 & ->).
    destruct (Ha k g1 H1) as (g & v & H0 & ->).
    exists g, u. split; [exact H0 | apply with_lastUsed_twice].
Qed.

Lemma only_createGeometry_adds_records_witness :
  exists g' g u,
    lookup (fst (run [Draw [SHADER_ACTIVATED] "c:a"; Evict; Find "b";
                      Deliver CANVAS_DEACTIVATED]
                     Scenario.two_records)) "c:a" = Some g' /\
    lookup Scenario.two_records "c:a" = Some g /\ g' = Geo.with_lastUsed g u.
Proof.
  eexists.
  assert (H := fun g' => only_createGeometry_adds_records
                 [Draw [SHADER_ACTIVATED] "c:a"; Evict; Find "b";
                  Deliver CANVAS_DEACTIVATED]
                 Scenario.two_records "c:a" g' eq_refl eq_refl).
  destruct (H _ eq_refl) as (g & u & Hg & Hu).
  exists g, u. split; [reflexivity|]. split; [exact Hg | exact Hu].
Defined.

(** ** One record per eviction *)

Lemma records_of_set_None o k :
  List.length (records_of o) <= S (List.length (records_of (JsObj.set o k None))).
Proof.
  induction o as [|[k0 v0] o IH]; [simpl; lia|].
  cbn [JsObj.set]. unfold records_of in *.
  destruct (String.eqb k0 k); cbn [flat_map fst snd]; rewrite ?length_app;
    destruct v0; cbn [List.length app]; lia.
Qed.

Lemma destroy_at_most_one g s :
  List.length (live_records s)
  <= S (List.length (live_records (final (destroyGeometry (Some g) s)))).
Proof.
  unfold live_records.
  destruct (destroyGeometry_final_cases g s) as [-> | ->].
  - rewrite geometries_unbind. lia.
  - unfold tombstone. cbn [geometries set_geometries]. rewrite geometries_unbind.
    apply records_of_set_None.
Qed.

Lemma evictor_at_most_one s :
  List.length (live_records s)
  <= S (List.length (live_records (final (evictor s)))).
Proof.
  rewrite evictor_final.
  destruct (evictor_scan s _ _) as [[earliest [evictee|]]|e]; try lia.
  apply destroy_at_most_one.
Qed.

(** X15: one invocation of the evictor removes at most one record from the
    cache, and the [n] invocations a memory module makes before an
    allocation remove at most [n], from any state and whatever each
    invocation returns or throws. *)
Theorem evictor_removes_at_most_one_record (s : backend) (n : nat) :
  List.length (live_records s)
  <= 1 + List.length (live_records (final (evictor s))) /\
  List.length (live_records s)
  <= n + List.length (live_records (final (call_evictor n s))).
Proof.
  split; [apply evictor_at_most_one|].
  revert s. induction n as [|n IH]; intros s;
    [cbn [call_evictor]; unfold ret, final; cbn [fst snd]; lia|].
  cbn [call_evictor]. unfold bind.
  pose proof (evictor_at_most_one s) as H1.
  destruct (evictor s) as [[[b|e] s1] t1]; unfold final in *; cbn [fst snd] in *.
  - specialize (IH s1). destruct (call_evictor n s1) as [[o s2] t2].
    cbn [fst snd] in *. lia.
  - lia.
Qed.

(** ** Draws destroy nothing *)

Lemma onEvent_quiet ev s :
  resets ev = false ->
  result (onEvent ev s) = Return tt /\
  geometries (final (onEvent ev s)) = geometries s /\
  trace (onEvent ev s) = [].
Proof. destruct ev; simpl; intros H; try discriminate; now repeat split. Qed.

Lemma deliver_quiet evs s :
  forallb (fun ev => negb (resets ev)) evs = true ->
  result (deliver evs s) = Return tt /\
  geometries (final (deliver evs s)) = geometries s /\
  trace (deliver evs s) = [].
Proof.
  revert s. induction evs as [|ev evs IH]; intros s H; [now repeat split|].
  cbn [forallb] in H. apply andb_prop in H as [Hev H].
  apply negb_true_iff in Hev.
  destruct (onEvent_quiet ev s Hev) as (Hr & Hg & Ht).
  cbn [deliver]. unfold bind.
  destruct (onEvent ev s) as [[[[]|e] s1] t1]; unfold result, final, trace in *;
    cbn [fst snd] in *; [|discriminate].
  destruct (IH s1 H) as (Hr2 & Hg2 & Ht2).
  destruct (deliver evs s1) as [[o s2] t2]; unfold result, final, trace in *;
    cbn [fst snd] in *.
  split; [exact Hr2|]. split; [congruence|]. now rewrite Ht, Ht2.
Qed.

Lemma count_release_unresolved_trace k s :
  count is_release (unresolved_trace k s) = 0.
Proof.
  apply count_none, Forall_forall. intros e He.
  apply unresolved_trace_quiet in He. now destruct e.
Qed.

Lemma count_release_drawn_trace k found ib s :
  count is_release (drawn_trace k found ib s) = 0.
Proof.
  unfold drawn_trace. destruct (option_string_eqb k (currentBoundGeo s)); reflexivity.
Qed.

(** X16: a draw destroys nothing. Every record [createGeometry] stores is
    marked [fixed], so the branch of [drawGeometry] that destroys one-off
    geometry is never taken: on a well-formed cache, a draw during which the
    event bus delivers no [RESET] releases no buffer and keeps every live
    record live, whether it returns or throws. *)
Theorem draw_destroys_nothing
    (s : backend) (reaction : list event) (geoId : string) :
  well_formed s = true ->
  forallb (fun ev => negb (resets ev)) reaction = true ->
  count is_release (trace (drawGeometry reaction geoId s)) = 0 /\
  forall k g, lookup s k = Some g ->
              exists u, lookup (final (drawGeometry reaction geoId s)) k
                        = Some (Geo.with_lastUsed g u).
Proof.
  intros Hwf Hq.
  assert (Hself : forall k g, lookup s k = Some g ->
                              exists u, lookup s k = Some (Geo.with_lastUsed g u)).
  { intros k g H. exists (Geo.lastUsed g). now rewrite with_lastUsed_self. }
  destruct (canvas s) as [c|] eqn:Hc.
  2:{ rewrite drawGeometry_no_canvas by assumption. split; [reflexivity | exact Hself]. }
  rewrite (drawGeometry_active _ _ _ _ Hc). unfold bind.
  rewrite fire_SHADER_ACTIVATE_run.
  destruct (deliver_quiet reaction s Hq) as (Hr & Hg & Ht).
  pose proof (deliver_well_formed reaction s Hwf) as Hwa.
  destruct (deliver reaction s) as [[[[]|e] sa] ta]; unfold result, final, trace in *;
    cbn [fst snd] in *; [|discriminate].
  subst ta.
  assert (Hsame : forall k, lookup sa k = lookup s k)
    by (intros k; unfold lookup; now rewrite Hg).
  pose proof (draw_continue_cases geoId sa Hwa) as Hcases.
  destruct (draw_continue geoId sa) as [[o s2] t2]; unfold result, final, trace in *;
    cbn [fst snd app] in *.
  destruct Hcases as [(_ & -> & ->)|(found & Hl & [(_ & -> & ->)|(ib & _ & -> & ->)])].
  - split.
    + change (count is_release (Fired_SHADER_ACTIVATE :: unresolved_trace geoId sa))
        with (count is_release (unresolved_trace geoId sa)).
      apply count_release_unresolved_trace.
    + intros k g H. rewrite Hsame. now apply Hself.
  - split; [reflexivity|]. intros k g H.
    unfold touched, lookup. cbn [geometries set_geometries].
    destruct (String.eqb_spec geoId k) as [<-|Hne].
    + rewrite get_set_same. rewrite Hsame in Hl. exists (time sa). congruence.
    + rewrite get_set_other by assumption. fold (lookup sa k). rewrite Hsame.
      now apply Hself.
  - split.
    + change (count is_release (Fired_SHADER_ACTIVATE :: drawn_trace geoId found ib sa))
        with (count is_release (drawn_trace geoId found ib sa)).
      apply count_release_drawn_trace.
    + intros k g H. rewrite lookup_drawn_state.
      destruct (String.eqb_spec geoId k) as [<-|Hne].
      * rewrite Hsame in Hl. exists (time sa). congruence.
      * rewrite Hsame. now apply Hself.
Qed.

Lemma draw_destroys_nothing_witness :
  count is_release
        (trace (drawGeometry [SHADER_ACTIVATED] "c:a" Scenario.two_records)) = 0 /\
  forall k g, lookup Scenario.two_records k = Some g ->
              exists u,
                lookup (final (drawGeometry [SHADER_ACTIVATED] "c:a"
                                            Scenario.two_records)) k
                = Some (Geo.with_lastUsed g u).
Proof.
  apply (draw_destroys_nothing Scenario.two_records [SHADER_ACTIVATED] "c:a");
    reflexivity.
Defined.

(** * The texture node *)

Section TextureFacts.

Import Texture.

Lemma update_layer_facts a i l :
  Layer.creationParams (fst (fst (update_layer a i l))) = Layer.creationParams l /\
  snd (update_layer a i l) = (if is_created (fst (fst (update_layer a i l))) then 1 else 0) /\
  filter applies (snd (fst (update_layer a i l))) = [].
Proof.
  unfold update_layer, is_created. destruct l as [st p im cp tx af at_ bm].
  destruct st; cbn; try (now repeat split).
  destruct (textureExists a i); cbn; now repeat split.
Qed.

Lemma update_facts a i ls :
  List.length (fst (fst (update a i ls))) = List.length ls /\
  map Layer.creationParams (fst (fst (update a i ls))) = map Layer.creationParams ls /\
  snd (update a i ls) = List.length (filter is_created (fst (fst (update a i ls)))) /\
  filter applies (snd (fst (update a i ls))) = [].
Proof.
  revert i. induction ls as [|l ls IH]; intros i; [now repeat split|].
  cbn [update]. destruct (update_layer_facts a i l) as (Hp & Hc & Ht).
  destruct (update_layer a i l) as [[l' t1] c1]. cbn [fst snd] in *.
  destruct (IH (S i)) as (Hlen & Hps & Hcs & Hts).
  destruct (update a (S i) ls) as [[ls' t2] c2]. cbn [fst snd] in *.
  cbn [List.length map filter]. rewrite Hlen, Hps, Hp, filter_app, Ht, Hts.
  repeat split. subst c1 c2. destruct (is_created l'); reflexivity.
Qed.

Lemma filter_length_all {A : Type} (f : A -> bool) (l : list A) :
  Nat.eqb (List.length (filter f l)) (List.length l) = forallb f l.
Proof.
  assert (Hle : forall l', List.length (filter f l') <= List.length l').
  { induction l' as [|x l' IH]; simpl; [lia|]. destruct (f x); simpl; lia. }
  induction l as [|x l IH]; [reflexivity|]. cbn [filter forallb List.length].
  destruct (f x); cbn [List.length andb].
  - exact IH.
  - apply Nat.eqb_neq. specialize (Hle l). lia.
Qed.

Lemma pushLayers_facts a i ls m :
  List.length (fst (pushLayers a i ls m)) = List.length ls /\
  forallb is_push (fst (pushLayers a i ls m)) = true.
Proof.
  revert i m. induction ls as [|l ls IH]; intros i m; [now split|].
  cbn [pushLayers]. destruct (IH (S i) (createMatrix a i l m)) as (Hl & Hp).
  destruct (pushLayers a (S i) ls (createMatrix a i l m)) as [t m'].
  cbn [fst snd] in *. cbn. now rewrite Hl, Hp.
Qed.

Lemma configure_configured a nd :
  params nd <> None -> configure a nd = (Normal, nd).
Proof. unfold configure. destruct (params nd); [reflexivity | congruence]. Qed.

(** A rendering visit of a configured node, by whether every layer is ready
    once updated. *)
Lemma render_visit_cases
    (a : answers) (nd : node) (c : completion) (nd' : node) (t : list call) :
  params nd <> None ->
  picking a = false ->
  visit a nd = (c, nd', t) ->
  List.length (layers nd') = List.length (layers nd) /\
  if forallb is_created (layers nd')
  then
    exists before pushes,
      t = before ++ pushes ++ Call_visitChildren ::
            match visitChildren a with
            | None => [Call_popLayers (List.length (layers nd))]
            | Some _ => []
            end /\
      filter applies before = [] /\
      List.length pushes = List.length (layers nd) /\
      forallb is_push pushes = true /\
      c = children a
  else c = Normal /\ filter applies t = [].
Proof.
  intros Hp Hpick H. unfold visit in H. rewrite (configure_configured a nd Hp), Hpick in H.
  destruct (update_facts a 0 (layers nd)) as (Hlen & _ & Hc & Ht).
  destruct (update a 0 (layers nd)) as [[ls t0] cnt]. cbn [fst snd] in *.
  subst cnt. rewrite filter_length_all in H.
  destruct (forallb is_created ls) eqn:Hall.
  - destruct (pushLayers_facts a 0 ls (matrix (set_layers ls nd))) as (Hpl & Hpp).
    destruct (pushLayers a 0 ls (matrix (set_layers ls nd))) as [pushes m].
    cbn [fst snd] in *. injection H as <- <- <-. cbn [layers set_matrix set_layers].
    split; [exact Hlen|]. rewrite Hall. exists t0, pushes. rewrite Hlen.
    repeat split; try assumption. congruence.
  - injection H as <- <- <-. cbn [layers set_layers]. split; [exact Hlen|].
    rewrite Hall. now split.
Qed.

(** X18: in rendering mode a configured node shows its subtree exactly when
    every layer is ready. If, once the visit has updated them, all layers
    have their texture created, the visit pushes one layer each, visits the
    children once and pops as many layers as it pushed, the pop being left
    out if the children throw; otherwise it pushes nothing, pops nothing and
    does not visit the children. *)
Theorem children_are_visited_iff_every_layer_is_ready
    (a : answers) (nd : node) (c : completion) (nd' : node) (t : list call) :
  params nd <> None ->
  picking a = false ->
  visit a nd = (c, nd', t) ->
  List.length (layers nd') = List.length (layers nd) /\
  if forallb is_created (layers nd')
  then
    exists before pushes,
      t = before ++ pushes ++ Call_visitChildren ::
            match visitChildren a with
            | None => [Call_popLayers (List.length (layers nd))]
            | Some _ => []
            end /\
      filter applies before = [] /\
      List.length pushes = List.length (layers nd) /\
      forallb is_push pushes = true /\
      c = children a
  else c = Normal /\ filter applies t = [].
Proof. exact (render_visit_cases a nd c nd' t). Qed.

Lemma children_are_visited_iff_every_layer_is_ready_witness :
  List.length (layers textured) = List.length (layers textured) /\
  if forallb is_created (layers textured)
  then
    exists before pushes,
      snd (visit (rendering None) textured)
      = before ++ pushes ++ Call_visitChildren ::
          match visitChildren (rendering None) with
          | None => [Call_popLayers (List.length (layers textured))]
          | Some _ => []
          end /\
      filter applies before = [] /\
      List.length pushes = List.length (layers textured) /\
      forallb is_push pushes = true /\
      Normal = children (rendering None)
  else Normal = Normal /\ filter applies (snd (visit (rendering None) textured)) = [].
Proof.
  exact (children_are_visited_iff_every_layer_is_ready
           (rendering None) textured Normal textured
           (snd (visit (rendering None) textured))
           ltac:(discriminate) eq_refl eq_refl).
Defined.

(** X19: in picking mode a configured node always visits its children, once
    and as the last thing it does, and applies no texture: it pushes no
    layer, pops none and leaves its matrix alone. The layers are updated all
    the same. *)
Theorem picking_visits_children_untextured
    (a : answers) (nd : node) (c : completion) (nd' : node) (t : list call) :
  params nd <> None ->
  picking a = true ->
  visit a nd = (c, nd', t) ->
  c = children a /\
  matrix nd' = matrix nd /\
  layers nd' = fst (fst (update a 0 (layers nd))) /\
  exists before,
    t = before ++ [Call_visitChildren] /\ filter applies before = [].
Proof.
  intros Hp Hpick H. unfold visit in H. rewrite (configure_configured a nd Hp), Hpick in H.
  destruct (update_facts a 0 (layers nd)) as (_ & _ & _ & Ht).
  destruct (update a 0 (layers nd)) as [[ls t0] cnt]. cbn [fst snd] in *.
  injection H as <- <- <-. repeat split. now exists t0.
Qed.

Lemma picking_visits_children_untextured_witness :
  Normal = children picking_visit /\
  matrix (snd (fst (visit picking_visit half_failed))) = matrix half_failed /\
  layers (snd (fst (visit picking_visit half_failed)))
  = fst (fst (update picking_visit 0 (layers half_failed))) /\
  exists before,
    snd (visit picking_visit half_failed) = before ++ [Call_visitChildren] /\
    filter applies before = [].
Proof.
  exact (picking_visits_children_untextured
           picking_visit half_failed Normal
           (snd (fst (visit picking_visit half_failed)))
           (snd (visit picking_visit half_failed))
           ltac:(discriminate) eq_refl eq_refl).
Defined.

(** ** A rejected configuration *)

Lemma prepare_cases i ps acc :
  (fst (prepare i ps acc) = Normal /\
   snd (prepare i ps acc) = acc ++ map new_layer ps) \/
  (exists e k, fst (prepare i ps acc) = Abrupt e /\ k < List.length ps /\
               snd (prepare i ps acc) = acc ++ map new_layer (firstn k ps)).
Proof.
  revert i acc. induction ps as [|p ps IH]; intros i acc.
  - left. cbn. now rewrite app_nil_r.
  - cbn [prepare].
    destruct (negb (truthy (LayerParam.uri p))).
    { right. eexists _, 0. cbn. rewrite app_nil_r. repeat split. lia. }
    destruct (truthy (LayerParam.applyFrom p) && _).
    { right. eexists _, 0. cbn. rewrite app_nil_r. repeat split. lia. }
    destruct (truthy (LayerParam.applyTo p) && _).
    { right. eexists _, 0. cbn. rewrite app_nil_r. repeat split. lia. }
    destruct (IH (S i) (acc ++ [new_layer p])) as [(Hc & Hl)|(e & k & Hc & Hk & Hl)].
    + left. rewrite Hc, Hl, <- app_assoc. now split.
    + right. exists e, (S k). rewrite Hc, Hl, <- app_assoc. cbn.
      repeat split. lia.
Qed.



(** ** A layer whose image failed *)

Lemma update_layer_failed a i l :
  Layer.state l = STATE_ERROR -> update_layer a i l = (l, [], 0).
Proof.
  destruct l as [st p im cp tx af at_ bm]. cbn [Layer.state]. intros ->.
  reflexivity.
Qed.

Lemma update_failed a i0 ls j layer :
  nth_error ls j = Some layer ->
  Layer.state layer = STATE_ERROR ->
  nth_error (fst (fst (update a i0 ls))) j = Some layer /\
  forallb is_created (fst (fst (update a i0 ls))) = false.
Proof.
  revert i0 j. induction ls as [|l ls IH]; intros i0 j Hn Hst.
  - destruct j; discriminate.
  - cbn [update]. destruct j as [|j].
    + injection Hn as ->. rewrite (update_layer_failed a i0 layer Hst).
      destruct (update a (S i0) ls) as [[ls' t2] c2].
      cbn [fst snd nth_error forallb]. unfold is_created at 1. rewrite Hst.
      now split.
    + cbn in Hn. destruct (IH (S i0) j Hn Hst) as (H1 & H2).
      destruct (update_layer a i0 l) as [[l' t1] c1].
      destruct (update a (S i0) ls) as [[ls' t2] c2]. cbn [fst snd] in *.
      cbn [fst snd nth_error forallb]. rewrite H2, andb_false_r. now split.
Qed.

Lemma visit_failed a nd i layer :
  nth_error (layers nd) i = Some layer ->
  Layer.state layer = STATE_ERROR ->
  picking a = false ->
  nth_error (layers (snd (fst (visit a nd)))) i = Some layer /\
  filter applies (snd (visit a nd)) = [].
Proof.
  intros Hn Hst Hpick. unfold visit.
  assert (Hconf : fst (configure a nd) = Normal ->
                  nth_error (layers (snd (configure a nd))) i = Some layer).
  { unfold configure. destruct (params nd); [intros _; exact Hn|].
    destruct (Params.layers (getParams a)) as [ps|]; [|discriminate].
    cbn [layers set_params].
    destruct (prepare_cases 0 ps (layers nd)) as [(Hc & Hl)|(e' & k & Hc & Hk & Hl)];
      destruct (prepare 0 ps (layers nd)) as [c ls]; cbn [fst snd] in *; subst c;
      [|discriminate].
    intros _. cbn [layers set_layers]. rewrite Hl.
    rewrite nth_error_app1; [exact Hn|]. apply nth_error_Some. congruence. }
  assert (Hkeep : fst (configure a nd) <> Normal ->
                  nth_error (layers (snd (configure a nd))) i = Some layer).
  { unfold configure. destruct (params nd); [intros H; now elim H|].
    destruct (Params.layers (getParams a)) as [ps|]; [|intros _; exact Hn].
    cbn [layers set_params].
    destruct (prepare_cases 0 ps (layers nd)) as [(Hc & Hl)|(e' & k & Hc & Hk & Hl)];
      destruct (prepare 0 ps (layers nd)) as [c ls]; cbn [fst snd] in *; subst c;
      [intros H; now elim H|].
    intros _. cbn [layers set_layers]. rewrite Hl.
    rewrite nth_error_app1; [exact Hn|]. apply nth_error_Some. congruence. }
  destruct (configure a nd) as [[|e] nd1]; cbn [fst snd] in *.
  - specialize (Hconf eq_refl).
    destruct (update_failed a 0 (layers nd1) i layer Hconf Hst) as (H1 & H2).
    destruct (update_facts a 0 (layers nd1)) as (_ & _ & Hc & Ht).
    destruct (update a 0 (layers nd1)) as [[ls t0] cnt]. cbn [fst snd] in *.
    subst cnt. rewrite Hpick, filter_length_all, H2. cbn. now split.
  - cbn. split; [apply Hkeep; discriminate | reflexivity].
Qed.

(** X20: a layer whose image failed to load is given up for good. While no
    image callback intervenes, rendering visits leave a layer in
    [STATE_ERROR] exactly as it is, and none of them pushes or pops a layer
    or visits the children: the subtree of the node is no longer drawn. *)
Theorem failed_layer_hides_the_subtree
    (l : list answers) (nd : node) (i : nat) (layer : Layer.t) :
  nth_error (layers nd) i = Some layer ->
  Layer.state layer = STATE_ERROR ->
  forallb (fun a => negb (picking a)) l = true ->
  nth_error (layers (fst (visits l nd))) i = Some layer /\
  filter applies (snd (visits l nd)) = [].
Proof.
  revert nd. induction l as [|a l IH]; intros nd Hn Hst Hl; [now split|].
  cbn [forallb] in Hl. apply andb_prop in Hl as [Ha Hl]. apply negb_true_iff in Ha.
  destruct (visit_failed a nd i layer Hn Hst Ha) as (H1 & H2).
  cbn [visits]. destruct (visit a nd) as [[c nd1] t1]. cbn [fst snd] in *.
  destruct (IH nd1 H1 Hst Hl) as (H3 & H4).
  destruct (visits l nd1) as [nd2 t2]. cbn [fst snd] in *.
  split; [exact H3|]. now rewrite filter_app, H2, H4.
Qed.

Lemma failed_layer_hides_the_subtree_witness :
  nth_error (layers (fst (visits [rendering None; rendering None] half_failed))) 1
  = nth_error (layers half_failed) 1 /\
  filter applies (snd (visits [rendering None; rendering None] half_failed)) = [].
Proof.
  exact (failed_layer_hides_the_subtree
           [rendering None; rendering None] half_failed 1 _ eq_refl eq_refl eq_refl).
Defined.

(** ** Loading *)

Lemma update_new a i ps :
  update a i (map new_layer ps)
  = (loading a i ps, map (fun p => Call_loadImage (LayerParam.uri p)) ps, 0).
Proof.
  revert i. induction ps as [|p ps IH]; intros i; [reflexivity|].
  cbn [map update loading]. rewrite IH. reflexivity.
Qed.

Lemma update_loading a a' i j ps :
  update a' j (loading a i ps) = (loading a i ps, [], 0).
Proof.
  revert i j. induction ps as [|p ps IH]; intros i j; [reflexivity|].
  cbn [update loading]. rewrite IH. reflexivity.
Qed.

Lemma loading_length a i ps : List.length (loading a i ps) = List.length ps.
Proof.
  revert i. induction ps as [|p ps IH]; intros i; [reflexivity|].
  cbn [loading List.length]. now rewrite IH.
Qed.

(** X21: every image is asked for once. The first visit of a node, in
    rendering mode and given at least one layer and a configuration it
    accepts, asks the backend to load the image of each layer, in order,
    and does nothing else: each layer is then loading, with the process
    handle returned for it. Until an image callback arrives, a further
    rendering visit makes no call at all and changes nothing. *)
Theorem first_visit_starts_every_load_once
    (a a' : answers) (ps : list LayerParam.t) :
  Params.layers (getParams a) = Some ps ->
  ps <> [] ->
  fst (prepare 0 ps []) = Normal ->
  picking a = false ->
  picking a' = false ->
  exists nd1,
    visit a unvisited
    = (Normal, nd1, map (fun p => Call_loadImage (LayerParam.uri p)) ps) /\
    layers nd1 = loading a 0 ps /\
    visit a' nd1 = (Normal, nd1, []).
Proof.
  intros Hps Hne Hok Hpick Hpick'.
  destruct (prepare_cases 0 ps []) as [(_ & Hl)|(e & k & Hc & _)]; [|congruence].
  pose proof (fun i => loading_length a i ps) as Hlen.
  assert (Hpos : Nat.eqb 0 (List.length ps) = false).
  { destruct ps; [congruence | reflexivity]. }
  eexists. unfold visit at 1. unfold configure. cbn [params unvisited]. rewrite Hps.
  cbn [layers set_params unvisited].
  destruct (prepare 0 ps []) as [c ls]. cbn [fst snd] in *. subst c ls.
  cbn [app layers set_layers]. rewrite update_new, Hpick, Hlen, Hpos.
  split; [reflexivity|]. split; [reflexivity|].
  unfold visit, configure. cbn [params set_layers set_params layers].
  rewrite update_loading, Hpick', Hlen, Hpos. reflexivity.
Qed.

Lemma first_visit_starts_every_load_once_witness :
  exists nd1,
    visit (rendering (Some two_layers)) unvisited
    = (Normal, nd1, map (fun p => Call_loadImage (LayerParam.uri p)) two_layers) /\
    layers nd1 = loading (rendering (Some two_layers)) 0 two_layers /\
    visit (rendering None) nd1 = (Normal, nd1, []).
Proof.
  apply (first_visit_starts_every_load_once
           (rendering (Some two_layers)) (rendering None) two_layers).
  - reflexivity.
  - discriminate.
  - reflexivity.
  - reflexivity.
  - reflexivity.
Defined.

(** ** One matrix for all layers *)

Lemma createMatrix_static a i l m :
  static l = true ->
  createMatrix a i l m = match m with
                         | Some x => Some x
                         | None => own_matrix l
                         end.
Proof.
  unfold static, createMatrix, own_matrix.
  destruct (LayerParam.translate (Layer.creationParams l)),
    (LayerParam.rotate (Layer.creationParams l)),
    (LayerParam.scale (Layer.creationParams l)); cbn; intros H;
    try discriminate; destruct m; reflexivity.
Qed.

Lemma pushLayers_static a i ls m :
  forallb static ls = true ->
  snd (pushLayers a i ls m) = match m with
                              | Some x => Some x
                              | None => first_matrix ls
                              end /\
  forall x, In x (pushed_matrices (fst (pushLayers a i ls m))) ->
            x = snd (pushLayers a i ls m) \/ (x = None /\ m = None).
Proof.
  revert i m. induction ls as [|l ls IH]; intros i m Hst.
  - cbn. split; [now destruct m | tauto].
  - cbn [forallb] in Hst. apply andb_prop in Hst as [Hl Hst].
    cbn [pushLayers first_matrix]. rewrite (createMatrix_static a i l m Hl).
    destruct (IH (S i) (match m with Some x => Some x | None => own_matrix l end) Hst)
      as (Hm & Hin).
    destruct (pushLayers a (S i) ls _) as [t m']. cbn [fst snd] in *.
    split.
    + rewrite Hm. destruct m; [reflexivity|]. now destruct (own_matrix l).
    + intros x0 [Hx|Hx].
      * subst x0. destruct m as [x1|].
        -- left. now rewrite Hm.
        -- destruct (own_matrix l) as [x1|]; [left; now rewrite Hm | now right].
      * destruct (Hin x0 Hx) as [->|[-> Hnone]]; [now left|].
        destruct m; [discriminate|]. now right.
Qed.

Lemma first_matrix_params ls ls' :
  map Layer.creationParams ls' = map Layer.creationParams ls ->
  first_matrix ls' = first_matrix ls.
Proof.
  revert ls'. induction ls as [|l ls IH]; intros [|l' ls'] H; try discriminate;
    [reflexivity|].
  cbn in H. injection H as Hl H. cbn [first_matrix]. unfold own_matrix.
  rewrite Hl, (IH ls' H). reflexivity.
Qed.

Lemma static_params ls ls' :
  map Layer.creationParams ls' = map Layer.creationParams ls ->
  forallb static ls' = forallb static ls.
Proof.
  revert ls'. induction ls as [|l ls IH]; intros [|l' ls'] H; try discriminate;
    [reflexivity|].
  cbn in H. injection H as Hl H. cbn [forallb]. unfold static at 1 3.
  rewrite Hl, (IH ls' H). reflexivity.
Qed.

Lemma pushed_matrices_app t1 t2 :
  pushed_matrices (t1 ++ t2) = pushed_matrices t1 ++ pushed_matrices t2.
Proof. unfold pushed_matrices. apply flat_map_app. Qed.

Lemma pushed_matrices_none t : filter applies t = [] -> pushed_matrices t = [].
Proof.
  induction t as [|c t IH]; [reflexivity|]. cbn [filter].
  destruct c; cbn; try discriminate; exact IH.
Qed.

Lemma pushed_matrices_pushLayers a i ls m :
  List.length (pushed_matrices (fst (pushLayers a i ls m))) = List.length ls.
Proof.
  revert i m. induction ls as [|l ls IH]; intros i m; [reflexivity|].
  cbn [pushLayers]. specialize (IH (S i) (createMatrix a i l m)).
  destruct (pushLayers a (S i) ls (createMatrix a i l m)) as [t m'].
  cbn [fst snd] in *. cbn [pushed_matrices flat_map app List.length].
  fold (pushed_matrices t). now rewrite IH.
Qed.

(** X22: the layers of a node share one matrix. When no layer parameter is a
    function, the first matrix a layer's own [translate], [rotate] and
    [scale] give becomes the node's matrix for good, and every layer pushed
    from then on carries it, whatever its own parameters are; a layer pushed
    before any matrix exists carries none. *)
Theorem static_layers_share_one_matrix
    (a : answers) (nd : node) (c : completion) (nd' : node) (t : list call) :
  params nd <> None ->
  picking a = false ->
  forallb static (layers nd) = true ->
  visit a nd = (c, nd', t) ->
  (forall m, In m (pushed_matrices t) ->
             m = shared_matrix nd \/ (m = None /\ matrix nd = None)) /\
  (pushed_matrices t = [] -> matrix nd' = matrix nd) /\
  (pushed_matrices t <> [] -> matrix nd' = shared_matrix nd).
Proof.
  intros Hp Hpick Hst H. unfold visit in H.
  rewrite (configure_configured a nd Hp), Hpick in H.
  destruct (update_facts a 0 (layers nd)) as (_ & Hps & _ & Ht).
  destruct (update a 0 (layers nd)) as [[ls t0] cnt]. cbn [fst snd] in *.
  apply pushed_matrices_none in Ht.
  destruct (Nat.eqb cnt (List.length ls)).
  - rewrite <- (static_params _ _ Hps) in Hst.
    destruct (pushLayers_static a 0 ls (matrix (set_layers ls nd)) Hst) as (Hm & Hin).
    pose proof (pushed_matrices_pushLayers a 0 ls (matrix (set_layers ls nd))) as Hn.
    destruct (pushLayers a 0 ls (matrix (set_layers ls nd))) as [pushes m].
    cbn [fst snd matrix set_layers] in *. injection H as <- <- <-.
    assert (Hshared : m = shared_matrix nd).
    { rewrite Hm. unfold shared_matrix. now rewrite (first_matrix_params _ _ Hps). }
    assert (Ht' : pushed_matrices
                    (t0 ++ pushes ++ Call_visitChildren ::
                       match visitChildren a with
                       | Some _ => []
                       | None => [Call_popLayers (List.length ls)]
                       end) = pushed_matrices pushes).
    { rewrite !pushed_matrices_app, Ht. cbn [app].
      replace (pushed_matrices (Call_visitChildren :: _)) with (@nil (option mat4)).
      - now rewrite app_nil_r.
      - now destruct (visitChildren a). }
    rewrite Ht'. cbn [matrix set_matrix]. split; [|split].
    + intros x0 Hx. destruct (Hin x0 Hx) as [->|Hnone]; [now left | now right].
    + intros Hnil. rewrite Hnil in Hn. destruct ls as [|l ls]; [|discriminate].
      cbn in Hm. rewrite Hm. now destruct (matrix nd).
    + intros _. exact Hshared.
  - injection H as <- <- <-. rewrite Ht. cbn. repeat split; try tauto.
Qed.

Lemma static_layers_share_one_matrix_witness :
  (forall m, In m (pushed_matrices (snd (visit (rendering None) textured))) ->
             m = shared_matrix textured \/ (m = None /\ matrix textured = None)) /\
  (pushed_matrices (snd (visit (rendering None) textured)) = [] ->
   matrix textured = matrix textured) /\
  (pushed_matrices (snd (visit (rendering None) textured)) <> [] ->
   matrix textured = shared_matrix textured).
Proof.
  exact (static_layers_share_one_matrix
           (rendering None) textured Normal textured
           (snd (visit (rendering None) textured))
           ltac:(discriminate) eq_refl eq_refl eq_refl).
Defined.

(** ** From a loaded image to a texture, and back *)

Lemma update_nth a i0 ls j l :
  nth_error ls j = Some l ->
  nth_error (fst (fst (update a i0 ls))) j
  = Some (fst (fst (update_layer a (i0 + j) l))) /\
  exists t1 t2,
    snd (fst (update a i0 ls)) = t1 ++ snd (fst (update_layer a (i0 + j) l)) ++ t2.
Proof.
  revert i0 j. induction ls as [|l0 ls IH]; intros i0 j Hn.
  - destruct j; discriminate.
  - cbn [update]. destruct j as [|j].
    + injection Hn as ->. rewrite Nat.add_0_r.
      destruct (update_layer a i0 l) as [[l' t1] c1].
      destruct (update a (S i0) ls) as [[ls' t2] c2]. cbn [fst snd nth_error].
      split; [reflexivity|]. now exists [], t2.
    + cbn in Hn. destruct (IH (S i0) j Hn) as (H1 & ta & tb & H2).
      replace (i0 + S j) with (S i0 + j) by lia.
      destruct (update_layer a i0 l0) as [[l' t1] c1].
      destruct (update a (S i0) ls) as [[ls' t2] c2]. cbn [fst snd nth_error] in *.
      split; [exact H1|]. exists (t1 ++ ta), tb. now rewrite H2, <- app_assoc.
Qed.

Lemma at_index_nth {A : Type} (f : A -> A) (l : list A) i x :
  nth_error l i = Some x -> nth_error (at_index i f l) i = Some (f x).
Proof.
  revert i. induction l as [|y l IH]; intros [|i] H; try discriminate.
  - now injection H as ->.
  - cbn in *. now apply IH.
Qed.

Lemma visit_nth a nd i l :
  params nd <> None ->
  nth_error (layers nd) i = Some l ->
  nth_error (layers (snd (fst (visit a nd)))) i
  = Some (fst (fst (update_layer a i l))) /\
  exists t1 t2,
    snd (visit a nd) = t1 ++ snd (fst (update_layer a i l)) ++ t2.
Proof.
  intros Hp Hn. unfold visit. rewrite (configure_configured a nd Hp).
  destruct (update_nth a 0 (layers nd) i l Hn) as (H1 & ta & tb & H2).
  cbn [Nat.add] in *.
  destruct (update a 0 (layers nd)) as [[ls t0] cnt]. cbn [fst snd] in *.
  destruct (picking a).
  - cbn [fst snd layers set_layers]. split; [exact H1|].
    exists ta, (tb ++ [Call_visitChildren]). now rewrite H2, <- !app_assoc.
  - destruct (Nat.eqb cnt (List.length ls)).
    + destruct (pushLayers a 0 ls (matrix (set_layers ls nd))) as [pushes m].
      cbn [fst snd layers set_layers set_matrix]. split; [exact H1|].
      eexists ta, (tb ++ _). rewrite H2, <- !app_assoc. reflexivity.
    + cbn [fst snd layers set_layers]. split; [exact H1|]. now exists ta, tb.
Qed.

(** X23: a loaded image becomes a texture at the next visit. Once the
    success callback of a layer has run, whatever state the layer was in,
    the next visit of the node creates the layer's texture from that image
    and the layer's parameters, then tells the backend that the load process
    held by the layer has ended; the layer holds the texture the backend
    returned and is ready. *)
Theorem loaded_image_becomes_texture
    (a : answers) (nd : node) (i : nat) (layer : Layer.t) (img : image) :
  params nd <> None ->
  nth_error (layers nd) i = Some layer ->
  nth_error (layers (snd (fst (visit a (image_loaded i img nd))))) i
  = Some (Layer.with_state
            (Layer.with_texture (Layer.with_image layer (Some img))
                                (Some (createTexture a i)))
            STATE_TEXTURE_CREATED) /\
  exists t1 t2,
    snd (visit a (image_loaded i img nd))
    = t1 ++ [Call_createTexture (Some img) (Layer.creationParams layer);
             Call_imageLoaded (Layer.process layer)] ++ t2.
Proof.
  intros Hp Hn.
  assert (Hn1 : nth_error (layers (image_loaded i img nd)) i
                = Some (Layer.with_state (Layer.with_image layer (Some img))
                                         STATE_IMAGE_LOADED)).
  { unfold image_loaded. cbn [layers set_layers].
    exact (at_index_nth
             (fun l => Layer.with_state (Layer.with_image l (Some img))
                                        STATE_IMAGE_LOADED)
             (layers nd) i layer Hn). }
  apply (visit_nth a (image_loaded i img nd) i _ Hp Hn1).
Qed.

Lemma loaded_image_becomes_texture_witness :
  nth_error
    (layers (snd (fst (visit (rendering None) (image_loaded 1 12 half_failed))))) 1
  = option_map
      (fun layer =>
         Layer.with_state
           (Layer.with_texture (Layer.with_image layer (Some 12))
                               (Some (createTexture (rendering None) 1)))
           STATE_TEXTURE_CREATED)
      (nth_error (layers half_failed) 1) /\
  exists t1 t2,
    snd (visit (rendering None) (image_loaded 1 12 half_failed))
    = t1 ++ [Call_createTexture (Some 12) (layer_of "moss.jpg" (along_x 2));
             Call_imageLoaded (Some 101)] ++ t2.
Proof.
  exact (loaded_image_becomes_texture
           (rendering None) half_failed 1 _ 12 ltac:(discriminate) eq_refl).
Defined.

(** X24: an evicted texture is loaded again, and hides the subtree
    meanwhile. When the backend answers that the texture of a ready layer no
    longer exists, the same visit asks for the layer's image again: the
    layer is loading, with the new process handle and still holding the
    handle of the lost texture; and in rendering mode the visit pushes
    nothing, pops nothing and does not visit the children. *)
Theorem evicted_texture_is_loaded_again
    (a : answers) (nd : node) (i : nat) (layer : Layer.t) :
  params nd <> None ->
  picking a = false ->
  nth_error (layers nd) i = Some layer ->
  Layer.state layer = STATE_TEXTURE_CREATED ->
  textureExists a i = false ->
  nth_error (layers (snd (fst (visit a nd)))) i
  = Some (Layer.with_process (Layer.with_state layer STATE_IMAGE_LOADING)
                             (Some (loadImage a i))) /\
  fst (fst (visit a nd)) = Normal /\
  filter applies (snd (visit a nd)) = [] /\
  exists t1 t2,
    snd (visit a nd)
    = t1 ++ [Call_textureExists (Layer.texture layer);
             Call_loadImage (LayerParam.uri (Layer.creationParams layer))] ++ t2.
Proof.
  intros Hp Hpick Hn Hst Hex.
  assert (Hu : update_layer a i layer
               = (Layer.with_process (Layer.with_state layer STATE_IMAGE_LOADING)
                                     (Some (loadImage a i)),
                  [Call_textureExists (Layer.texture layer);
                   Call_loadImage (LayerParam.uri (Layer.creationParams layer))],
                  0)).
  { unfold update_layer. destruct layer as [st p im cp tx af at_ bm].
    cbn [Layer.state] in Hst. subst st. cbn. rewrite Hex. reflexivity. }
  destruct (visit_nth a nd i layer Hp Hn) as (H1 & H2). rewrite Hu in H1, H2.
  cbn [fst snd] in H1, H2. split; [exact H1|].
  destruct (visit a nd) as [[c nd'] t] eqn:Hv. cbn [fst snd] in *.
  destruct (render_visit_cases a nd c nd' t Hp Hpick Hv) as (Hlen & Hgate).
  assert (Hnot : forallb is_created (layers nd') = false).
  { apply not_true_is_false. intros Hall. rewrite forallb_forall in Hall.
    apply nth_error_In in H1. apply Hall in H1. discriminate. }
  rewrite Hnot in Hgate. destruct Hgate as (Hc & Hf).
  split; [exact Hc|]. split; [exact Hf | exact H2].
Qed.

Lemma evicted_texture_is_loaded_again_witness :
  nth_error (layers (snd (fst (visit evicting textured)))) 0
  = option_map
      (fun layer =>
         Layer.with_process (Layer.with_state layer STATE_IMAGE_LOADING)
                            (Some (loadImage evicting 0)))
      (nth_error (layers textured) 0) /\
  fst (fst (visit evicting textured)) = Normal /\
  filter applies (snd (visit evicting textured)) = [] /\
  exists t1 t2,
    snd (visit evicting textured)
    = t1 ++ [Call_textureExists (Some 200); Call_loadImage (Some "brick.jpg")] ++ t2.
Proof.
  exact (evicted_texture_is_loaded_again
           evicting textured 0 _ ltac:(discriminate) eq_refl eq_refl eq_refl eq_refl).
Defined.

(** ** The matrix of a layer *)

Lemma rotated_none c axis m :
  rotated c axis m = None <-> m = None /\ no_turn c = true.
Proof.
  unfold rotated, no_turn. destruct c as [q|]; [destruct (falsy q)|];
    split; try tauto; try (intros [H1 H2]; discriminate); try discriminate;
    intros H; now split.
Qed.

(** X25: [getMatrix] returns no matrix exactly when there is nothing to
    apply: no translation, no scale, and a rotation that is missing or has no
    non-zero angle. An empty translation or scale object still makes a
    matrix. *)
Theorem getMatrix_is_null_iff_nothing_to_apply
    (translate rotate scale : option xyz) :
  getMatrix translate rotate scale = None <->
  translate = None /\ scale = None /\
  match rotate with
  | Some r => no_turn (x r) && no_turn (y r) && no_turn (z r) = true
  | None => True
  end.
Proof.
  unfold getMatrix. destruct translate as [t|], scale as [sc|], rotate as [r|];
    rewrite ?rotated_none, ?andb_true_iff;
    split; intros H; repeat match goal with
                            | H : _ /\ _ |- _ => destruct H
                            end;
    try discriminate; repeat split; try assumption; try reflexivity.
Qed.

End TextureFacts.
